(** * lsf (ls + find): typed scalars, filter predicates, sorting, traversal

    A shallow embedding of [lsf.py] and the properties of its typed
    attribute comparison, filter predicate, sort and traversal code.

    Python values are modelled as follows.
    - [str] is [string]; the characters of a string are [ascii] bytes.
    - [int]/[long] is [Z].
    - [float] is IEEE 754 binary64, module [PyFloat]: a finite value is a
      dyadic number [m * 2^e] with an odd mantissa, and every operation
      rounds the exact result to nearest, ties to even.
    - A raised exception is the left injection of a sum; class level
      dictionaries ([known_strings], [known_usernames], ...) and
      [FileStats.filter_list] are fields of an explicit state that is
      threaded through every call.
    - The operating system (clock, password and group databases,
      [time.strptime]/[time.mktime], [os.lstat], [os.listdir], the regular
      expression engine and [eval]) is a record [World] of functions. *)

From Stdlib Require Import ZArith List Ascii String Bool Lia.
From Stdlib Require Import Sorting.Sorted Sorting.Permutation.
From stdpp Require Import gmap strings.

Local Open Scope string_scope.
Local Open Scope Z_scope.

(* ===================================================================== *)
(** ** Python strings *)
(* ===================================================================== *)

Module PyStr.

Definition chars (s : string) : list ascii := list_ascii_of_string s.
Definition of_chars (l : list ascii) : string := string_of_list_ascii l.

(** [s[-1]]; [None] stands for the [IndexError] of an empty string. *)
Definition last_char (s : string) : option ascii := List.last (List.map Some (chars s)) None.

(** [s[:-1]] *)
Definition drop_last (s : string) : string := of_chars (List.removelast (chars s)).

(** [s[0]]; [None] stands for the [IndexError] of an empty string. *)
Definition first_char (s : string) : option ascii :=
  match s with
  | EmptyString => None
  | String c _ => Some c
  end.

Definition is_upper (c : ascii) : bool :=
  let n := N_of_ascii c in ((65 <=? n) && (n <=? 90))%N.

(** [c.lower()] on one byte *)
Definition lower (c : ascii) : ascii :=
  if is_upper c then ascii_of_N (N_of_ascii c + 32) else c.

(** [c in s] for a one character string [c] *)
Definition mem (c : ascii) (s : string) : bool :=
  List.existsb (Ascii.eqb c) (chars s).

(** the bytes [str.split()], [str.strip()], [float()] and [int()] treat
    as white space: space, tab, newline, vertical tab, form feed, return *)
Definition is_space (c : ascii) : bool :=
  let n := N_of_ascii c in ((n =? 32) || ((9 <=? n) && (n <=? 13)))%N.

Definition is_digit (c : ascii) : bool :=
  let n := N_of_ascii c in ((48 <=? n) && (n <=? 57))%N.

Definition digit_val (c : ascii) : Z := Z.of_N (N_of_ascii c) - 48.

Fixpoint lstrip (l : list ascii) : list ascii :=
  match l with
  | c :: r => if is_space c then lstrip r else l
  | [] => []
  end.

(** [s.strip()] on the character list *)
Definition strip (l : list ascii) : list ascii :=
  List.rev (lstrip (List.rev (lstrip l))).

(** [s.split()]: the maximal runs of non-blank characters.  [cur] is the
    token being read, in reverse. *)
Fixpoint split_ws_aux (l : list ascii) (cur : list ascii) : list string :=
  match l with
  | [] => match cur with [] => [] | _ => [of_chars (List.rev cur)] end
  | c :: r =>
      if is_space c then
        match cur with
        | [] => split_ws_aux r []
        | _ => of_chars (List.rev cur) :: split_ws_aux r []
        end
      else split_ws_aux r (c :: cur)
  end.

Definition split_ws (s : string) : list string := split_ws_aux (chars s) [].

(** [s.split(sep)] for a one character separator: always at least one
    piece, empty pieces are kept. *)
Fixpoint split_on_aux (sep : ascii) (l : list ascii) (cur : list ascii) : list string :=
  match l with
  | [] => [of_chars (List.rev cur)]
  | c :: r =>
      if Ascii.eqb c sep then of_chars (List.rev cur) :: split_on_aux sep r []
      else split_on_aux sep r (c :: cur)
  end.

Definition split_on (sep : ascii) (s : string) : list string :=
  split_on_aux sep (chars s) [].

(** the quoting done by ["'%s' ..." % s] *)
Definition quoted (s : string) : string := "'" +:+ s +:+ "'".

End PyStr.

(* ===================================================================== *)
(** ** Exceptions and results *)
(* ===================================================================== *)

Inductive exn : Type :=
| ValueError (msg : string)
| IndexError
| OverflowError
| KeyError
| ReError
| TypeError
| NameError
| EvalError
| ArgumentTypeError (msg : string).

Definition result (A : Type) : Type := exn + A.

Definition Ok {A : Type} (a : A) : result A := inr a.
Definition Raise {A : Type} (e : exn) : result A := inl e.

(* ===================================================================== *)
(** ** Python floats: IEEE 754 binary64 *)
(* ===================================================================== *)

Module PyFloat.

(** A finite float is [m * 2^e]; the representation is kept canonical:
    [m] is odd, or [m = 0] and [e = 0].  The sign of zero is not
    recorded ([int] and the comparisons do not see it). *)
Inductive t : Type :=
| Fin (m e : Z)
| Inf (neg : bool)
| NaN.

Definition prec : Z := 53.
Definition emin : Z := -1074.
Definition emax : Z := 1024.

(** strip the trailing zero bits of the mantissa *)
Fixpoint norm_pos (p : positive) (e : Z) : positive * Z :=
  match p with
  | xO p' => norm_pos p' (e + 1)
  | _ => (p, e)
  end.

Definition norm (m e : Z) : t :=
  match m with
  | Z0 => Fin 0 0
  | Zpos p => let '(q, e') := norm_pos p e in Fin (Zpos q) e'
  | Zneg p => let '(q, e') := norm_pos p e in Fin (Zneg q) e'
  end.

(** number of bits of a positive integer *)
Definition bits (a : Z) : Z := Z.log2 a + 1.

(** the magnitude [a * 2^e] with at most 53 bits in [a] and [emin <= e],
    or infinity when it is [2^1024] or more *)
Definition finish (neg : bool) (a e : Z) : t :=
  if a =? 0 then Fin 0 0
  else if emax <? bits a + e then Inf neg
  else norm (if neg then - a else a) e.

(** Round the exact value [m * 2^e] to binary64: nearest, ties to even,
    gradual underflow, overflow to infinity. *)
Definition round (m e : Z) : t :=
  let neg := m <? 0 in
  let a := Z.abs m in
  if a =? 0 then Fin 0 0
  else
    let sh := Z.max (bits a - prec) (emin - e) in
    if sh <=? 0 then finish neg a e
    else
      let q := Z.shiftr a sh in
      let r := a mod 2 ^ sh in
      let half := 2 ^ (sh - 1) in
      let q' := if (half <? r) || ((r =? half) && Z.odd q) then q + 1 else q in
      finish neg q' (e + sh).

(** Round the exact positive quotient [n / d]: enough quotient bits are
    computed for the rounding position to lie inside them, and a sticky
    bit records a non-zero remainder. *)
Definition round_ratio (neg : bool) (n d : Z) : t :=
  if n =? 0 then Fin 0 0
  else
    let s := Z.max 0 (60 + Z.log2 d - Z.log2 n) in
    let q := (n * 2 ^ s) / d in
    let sticky := if (n * 2 ^ s) mod d =? 0 then 0 else 1 in
    let m := 2 * q + sticky in
    round (if neg then - m else m) (- (s + 1)).

(** [float(n)] for an integer *)
Definition of_Z (n : Z) : t := round n 0.

(** [x * y] *)
Definition mul (x y : t) : t :=
  match x, y with
  | NaN, _ | _, NaN => NaN
  | Fin m1 e1, Fin m2 e2 => round (m1 * m2) (e1 + e2)
  | Inf n, Fin m _ | Fin m _, Inf n =>
      if m =? 0 then NaN else Inf (xorb n (m <? 0))
  | Inf n1, Inf n2 => Inf (xorb n1 n2)
  end.

(** [x - y] *)
Definition sub (x y : t) : t :=
  match x, y with
  | NaN, _ | _, NaN => NaN
  | Fin m1 e1, Fin m2 e2 =>
      let e := Z.min e1 e2 in
      round (m1 * 2 ^ (e1 - e) - m2 * 2 ^ (e2 - e)) e
  | Inf n, Fin _ _ => Inf n
  | Fin _ _, Inf n => Inf (negb n)
  | Inf n1, Inf n2 => if Bool.eqb n1 n2 then NaN else Inf n1
  end.

(** the integer part of the dyadic number [m * 2^e], towards zero *)
Definition trunc (m e : Z) : Z :=
  if 0 <=? e then m * 2 ^ e else Z.quot m (2 ^ (- e)).

(** [int(x)] *)
Definition to_int (x : t) : result Z :=
  match x with
  | Fin m e => Ok (trunc m e)
  | Inf _ => Raise OverflowError
  | NaN => Raise (ValueError "cannot convert float NaN to integer")
  end.

(** every finite result is a binary64 number in canonical form *)
Definition wf (x : t) : Prop :=
  match x with
  | Fin m e =>
      (m = 0 /\ e = 0) \/
      (Z.odd m = true /\ bits (Z.abs m) <= prec /\ emin <= e /\ bits (Z.abs m) + e <= emax)
  | _ => True
  end.

(** *** [float(s)] for a string

    Leading and trailing white space is dropped; then an optional sign
    and either [inf], [infinity], [nan] (in any case) or a decimal
    number: digits with an optional fraction and an optional exponent,
    with at least one digit before the exponent.  (The digit separator
    [_] that Python 3.6 added is not part of the grammar.) *)

(** the longest prefix of digits: its value, its length, and the rest *)
Fixpoint digits (l : list ascii) (acc : Z) (n : Z) : Z * Z * list ascii :=
  match l with
  | c :: r =>
      if PyStr.is_digit c then digits r (10 * acc + PyStr.digit_val c) (n + 1)
      else (acc, n, l)
  | [] => (acc, n, [])
  end.

Definition sign (l : list ascii) : bool * list ascii :=
  match l with
  | "-"%char :: r => (true, r)
  | "+"%char :: r => (false, r)
  | _ => (false, l)
  end.

(** the exponent part: [e], an optional sign and at least one digit,
    up to the end of the string *)
Definition exponent (l : list ascii) : option Z :=
  match l with
  | [] => Some 0
  | c :: r =>
      if Ascii.eqb (PyStr.lower c) "e" then
        let '(neg, r1) := sign r in
        match digits r1 0 0 with
        | (v, n, []) => if 0 <? n then Some (if neg then - v else v) else None
        | _ => None
        end
      else None
  end.

(** the decimal number with digits [d] (an integer) times [10^x] *)
Definition of_decimal (neg : bool) (d x : Z) : t :=
  if 0 <=? x then round ((if neg then - d else d) * 10 ^ x) 0
  else round_ratio neg d (10 ^ (- x)).

Definition of_chars (l0 : list ascii) : option t :=
  let '(neg, l) := sign (PyStr.strip l0) in
  let word := PyStr.of_chars (List.map PyStr.lower l) in
  if String.eqb word "inf" || String.eqb word "infinity" then Some (Inf neg)
  else if String.eqb word "nan" then Some NaN
  else
    let '(ip, ni, l1) := digits l 0 0 in
    let '(fp, nf, l2) :=
      match l1 with
      | "."%char :: r => digits r ip 0
      | _ => (ip, 0, l1)
      end in
    if (ni + nf =? 0) then None
    else
      match exponent l2 with
      | Some x => Some (of_decimal neg fp (x - nf))
      | None => None
      end.

(** [float(s)]; [None] stands for the [ValueError] of a bad literal *)
Definition of_string (s : string) : option t := of_chars (PyStr.chars s).

End PyFloat.

(** [int(s)] for a string: optional white space around an optional sign
    and at least one decimal digit; [None] stands for the [ValueError]. *)
Definition py_int (s : string) : option Z :=
  let '(neg, l) := PyFloat.sign (PyStr.strip (PyStr.chars s)) in
  match PyFloat.digits l 0 0 with
  | (v, n, []) => if 0 <? n then Some (if neg then - v else v) else None
  | _ => None
  end.


(* ===================================================================== *)
(** ** The world outside the program *)
(* ===================================================================== *)

(** the nine fields of [time.struct_time] *)
Record struct_time : Type := {
  tm_year : Z; tm_mon : Z; tm_mday : Z;
  tm_hour : Z; tm_min : Z; tm_sec : Z;
  tm_wday : Z; tm_yday : Z; tm_isdst : Z
}.

(** the first ten fields of the tuple [os.lstat] returns *)
Record stat_result : Type := {
  st_mode : Z; st_ino : Z; st_dev : Z; st_nlink : Z; st_uid : Z;
  st_gid : Z; st_size : Z; st_atime : Z; st_mtime : Z; st_ctime : Z
}.

(** One file record: the fifteen entries of [FileStats.stats], named by
    [FileStats.field_words]. *)
Record FileStats : Type := {
  Mode : Z; inode : Z; dev : Z; Nlink : Z; uid : Z; gid : Z; size : Z;
  atime : Z; mtime : Z; ctime : Z;
  path : string; name : string; filepath : string; target : string;
  Typecode : Z
}.

Record World : Type := {
  (** [OS_IS_WINDOWS] *)
  os_is_windows : bool;
  (** [pwd.getpwnam(name)[2]]; [None] is its [KeyError] *)
  getpwnam : string -> option Z;
  (** [grp.getgrnam(name)[2]]; [None] is its [KeyError] *)
  getgrnam : string -> option Z;
  (** [time.strptime(string, format)]; [None] is its [ValueError] *)
  strptime : string -> string -> option struct_time;
  (** [time.mktime(t)] *)
  mktime : struct_time -> result PyFloat.t;
  (** [re.compile(pattern)] succeeds *)
  re_valid : string -> bool;
  (** [re.compile(pattern).search(text)] finds a match *)
  re_search : string -> string -> bool;
  (** the truth value of [eval(expression)] with the fields of the record
      bound as [FileStats.to_objects] binds them *)
  py_eval : string -> FileStats -> result bool;
  (** [sys.argv[0]] *)
  argv0 : string;
  (** [os.lstat(path)]; the left injection is the message of [os.error] *)
  lstat : string -> string + stat_result;
  (** [os.listdir(path)]; the left injection is the message of [os.error] *)
  listdir : string -> string + list string;
  isdir : string -> bool;
  islink : string -> bool;
  realpath : string -> string;
  dirname : string -> string;
  basename : string -> string;
  path_join : string -> string -> string
}.

(* ===================================================================== *)
(** ** Typed scalars *)
(* ===================================================================== *)

(** the six rich comparison methods *)
Inductive cmpop : Type := OpLt | OpLe | OpGt | OpGe | OpEq | OpNe.

(** [self.value <op> other] on integers *)
Definition int_cmp (op : cmpop) (a b : Z) : bool :=
  match op with
  | OpLt => a <? b
  | OpLe => a <=? b
  | OpGt => a >? b
  | OpGe => a >=? b
  | OpEq => a =? b
  | OpNe => negb (a =? b)
  end.

(** the right operand of a comparison: a number or a string *)
Inductive operand : Type :=
| OInt (n : Z)
| OStr (s : string).

(** A decorated comparison method: [wrapper(self, arg)] converts a string
    argument with [parse] and then calls the undecorated method. *)
Definition wrapper {S : Type} (parse : S -> string -> result Z * S)
    (func : Z -> Z -> bool) (self_value : Z) (arg : operand) (st : S) : result bool * S :=
  match arg with
  | OStr s =>
      match parse st s with
      | (inr n, st') => (Ok (func self_value n), st')
      | (inl e, st') => (Raise e, st')
      end
  | OInt n => (Ok (func self_value n), st)
  end.

Module FileSize.

(** the value of [size * 512], [size * 1024], [size * 1024 * 1024] or
    [size * 1024 * 1024 * 1024] for the modifier letter *)
Definition scale (modifier : ascii) (size : PyFloat.t) : PyFloat.t :=
  let k := PyFloat.of_Z 1024 in
  if Ascii.eqb modifier "b" then PyFloat.mul size (PyFloat.of_Z 512)
  else if Ascii.eqb modifier "k" then PyFloat.mul size k
  else if Ascii.eqb modifier "m" then PyFloat.mul (PyFloat.mul size k) k
  else if Ascii.eqb modifier "g" then PyFloat.mul (PyFloat.mul (PyFloat.mul size k) k) k
  else size.

Definition bad_size (size_str : string) : exn :=
  ValueError (PyStr.quoted size_str +:+ " is not a valid FILESIZE string").

(** [FileSize.from_string(size_str)]; [known] is [FileSize.known_strings] *)
Definition from_string (known : gmap string Z) (size_str : string)
    : result Z * gmap string Z :=
  match known !! size_str with
  | Some v => (Ok v, known)
  | None =>
      match PyStr.last_char size_str with
      | None => (Raise IndexError, known)
      | Some c =>
          let '(modifier, size) :=
            if negb (PyStr.mem c "bkmg") then (None, size_str)
            else (Some c, PyStr.drop_last size_str) in
          match PyFloat.of_string size with
          | None => (Raise (bad_size size_str), known)
          | Some size =>
              let size := match modifier with
                          | Some m => scale m size
                          | None => size
                          end in
              match PyFloat.to_int size with
              | inl e => (Raise e, known)
              | inr n => (Ok n, <[size_str := n]> known)
              end
          end
      end
  end.

(** [FileSize(v) <op> arg] through the [arg_to_int] decorator *)
Definition compare (op : cmpop) (v : Z) (arg : operand) (known : gmap string Z)
    : result bool * gmap string Z :=
  wrapper from_string (int_cmp op) v arg known.

End FileSize.

Module Unixtime.

(** the chain of multiplications of [reltime_to_secs] for the modifier *)
Definition scale (modifier : ascii) (secs : PyFloat.t) : PyFloat.t :=
  let times n x := PyFloat.mul x (PyFloat.of_Z n) in
  if Ascii.eqb modifier "m" then times 60 secs
  else if Ascii.eqb modifier "h" then times 60 (times 60 secs)
  else if Ascii.eqb modifier "d" then times 24 (times 60 (times 60 secs))
  else if Ascii.eqb modifier "w" then times 7 (times 24 (times 60 (times 60 secs)))
  else if Ascii.eqb modifier "y" then times 365 (times 24 (times 60 (times 60 secs)))
  else secs.

Definition bad_reltime (time_str : string) : exn :=
  ValueError (PyStr.quoted time_str +:+ " is not a valid DATETIME string").

Definition bad_datetime (time_str : string) : exn :=
  ValueError (PyStr.quoted time_str +:+ " is not a valid DATETIME").

(** [Unixtime.reltime_to_secs(time_str)] *)
Definition reltime_to_secs (time_str : string) : result Z :=
  match PyStr.last_char time_str with
  | None => Raise IndexError
  | Some c =>
      let modifier := PyStr.lower c in
      let '(modifier, secs) :=
        if negb (PyStr.mem modifier "mhdwy") then ("d"%char, time_str)
        else (modifier, PyStr.drop_last time_str) in
      match PyFloat.of_string secs with
      | None => Raise (bad_reltime time_str)
      | Some secs => PyFloat.to_int (scale modifier secs)
      end
  end.

(** the [except ValueError] branch of [str_to_secs] *)
Definition abstime_to_secs (w : World) (time_str : string) : result Z :=
  let time_format :=
    if (List.length (PyStr.split_ws time_str) =? 3)%nat then "%b %d %Y"
    else "%b %d %Y %H:%M" in
  match strptime w time_str time_format with
  | None => Raise (bad_datetime time_str)
  | Some t =>
      match mktime w t with
      | inl (ValueError _) => Raise (bad_datetime time_str)
      | inl e => Raise e
      | inr x =>
          match PyFloat.to_int x with
          | inl (ValueError _) => Raise (bad_datetime time_str)
          | inl e => Raise e
          | inr n => Ok n
          end
      end
  end.

(** [int(time.time() - Unixtime.reltime_to_secs(time_str))], where [now]
    is the value [time.time()] returns *)
Definition before_now (now : PyFloat.t) (time_str : string) : result Z :=
  match reltime_to_secs time_str with
  | inl e => Raise e
  | inr secs => PyFloat.to_int (PyFloat.sub now (PyFloat.of_Z secs))
  end.

(** [Unixtime.str_to_secs(time_str)]; [known] is [Unixtime.known_strings]
    and [now] is what [time.time()] returns during the call *)
Definition str_to_secs (w : World) (now : PyFloat.t) (known : gmap string Z)
    (time_str : string) : result Z * gmap string Z :=
  match known !! time_str with
  | Some v => (Ok v, known)
  | None =>
      let r := match before_now now time_str with
               | inl (ValueError _) => abstime_to_secs w time_str
               | r => r
               end in
      match r with
      | inl e => (Raise e, known)
      | inr utime => (Ok utime, <[time_str := utime]> known)
      end
  end.

(** [Unixtime(v) <op> arg] through the [arg_to_unixtime] decorator *)
Definition compare (w : World) (now : PyFloat.t) (op : cmpop) (v : Z) (arg : operand)
    (known : gmap string Z) : result bool * gmap string Z :=
  wrapper (str_to_secs w now) (int_cmp op) v arg known.

End Unixtime.

Module Uid.

Definition bad_user (user_or_id : string) : exn :=
  ValueError (PyStr.quoted user_or_id +:+ " is not a valid username or UID").

(** [Uid.from_str(user_or_id)]; [known] is [Uid.known_usernames] *)
Definition from_str (w : World) (known : gmap string Z) (user_or_id : string)
    : result Z * gmap string Z :=
  match known !! user_or_id with
  | Some v => (Ok v, known)
  | None =>
      if os_is_windows w then (Ok 0, known)
      else
        let r := match py_int user_or_id with
                 | Some n => Ok n
                 | None =>
                     match getpwnam w user_or_id with
                     | Some n => Ok n
                     | None => Raise (bad_user user_or_id)
                     end
                 end in
        match r with
        | inl e => (Raise e, known)
        | inr n => (Ok n, <[user_or_id := n]> known)
        end
  end.

(** [Uid(v) <op> arg] through the [make_uid] decorator *)
Definition compare (w : World) (op : cmpop) (v : Z) (arg : operand)
    (known : gmap string Z) : result bool * gmap string Z :=
  wrapper (from_str w) (int_cmp op) v arg known.

End Uid.

Module Gid.

Definition bad_group (group_or_id : string) : exn :=
  ValueError (PyStr.quoted group_or_id +:+ " is not a valid group name or GID").

(** [Gid.from_str(group_or_id)]; [known] is [Gid.known_groups] *)
Definition from_str (w : World) (known : gmap string Z) (group_or_id : string)
    : result Z * gmap string Z :=
  match known !! group_or_id with
  | Some v => (Ok v, known)
  | None =>
      if os_is_windows w then (Ok 0, known)
      else
        let r := match py_int group_or_id with
                 | Some n => Ok n
                 | None =>
                     match getgrnam w group_or_id with
                     | Some n => Ok n
                     | None => Raise (bad_group group_or_id)
                     end
                 end in
        match r with
        | inl e => (Raise e, known)
        | inr n => (Ok n, <[group_or_id := n]> known)
        end
  end.

(** [Gid(v) <op> arg] through the [make_gid] decorator *)
Definition compare (w : World) (op : cmpop) (v : Z) (arg : operand)
    (known : gmap string Z) : result bool * gmap string Z :=
  wrapper (from_str w) (int_cmp op) v arg known.

End Gid.

(* ===================================================================== *)
(** ** File records and file types *)
(* ===================================================================== *)

(** a value stored in [FileStats.stats]: an integer or a string *)
Inductive pyval : Type :=
| VInt (n : Z)
| VStr (s : string).

Module FileTypeCode.

Definition S_IFDIR : Z := 16384.   (* 0o040000 *)
Definition S_IFCHR : Z := 8192.    (* 0o020000 *)
Definition S_IFBLK : Z := 24576.   (* 0o060000 *)
Definition S_IFREG : Z := 32768.   (* 0o100000 *)
Definition S_IFLNK : Z := 40960.   (* 0o120000 *)
Definition S_IFIFO : Z := 4096.    (* 0o010000 *)
Definition S_IFSOCK : Z := 49152.  (* 0o140000 *)

(** [stat.S_IFMT(mode)] *)
Definition S_IFMT (mode : Z) : Z := Z.land mode 61440.  (* 0o170000 *)

(** the type code of a broken link *)
Definition broken_link : Z := 0.

(** [FileTypeCode.from_char[c]]; [None] is the [KeyError] *)
Definition from_char (c : ascii) : option Z :=
  if Ascii.eqb c "d" then Some S_IFDIR
  else if Ascii.eqb c "c" then Some S_IFCHR
  else if Ascii.eqb c "b" then Some S_IFBLK
  else if Ascii.eqb c "r" then Some S_IFREG
  else if Ascii.eqb c "l" then Some S_IFLNK
  else if Ascii.eqb c "p" then Some S_IFIFO
  else if Ascii.eqb c "s" then Some S_IFSOCK
  else None.

End FileTypeCode.

Definition field_words : list string :=
  ["Mode"; "inode"; "dev"; "Nlink"; "uid"; "gid"; "size"; "atime";
   "mtime"; "ctime"; "path"; "name"; "filepath"; "target"; "Typecode"].

Definition first_letters (words : list string) : list ascii :=
  List.flat_map (fun word => match word with String c _ => [c] | EmptyString => [] end) words.

Definition field_letters : list ascii := first_letters field_words.

Definition file_type_words : list string :=
  ["regular"; "dir"; "link"; "char"; "block"; "pipe"; "socket"].

Definition file_type_chars : gset ascii := list_to_set (first_letters file_type_words).

(** the tuple [self.stats] *)
Definition stats (r : FileStats) : list pyval :=
  [VInt (Mode r); VInt (inode r); VInt (dev r); VInt (Nlink r); VInt (uid r);
   VInt (gid r); VInt (size r); VInt (atime r); VInt (mtime r); VInt (ctime r);
   VStr (path r); VStr (name r); VStr (filepath r); VStr (target r);
   VInt (Typecode r)].

(** [list.index(x)]: the first position of [x] *)
Fixpoint index_of {A : Type} (eqb : A -> A -> bool) (x : A) (l : list A) : option nat :=
  match l with
  | [] => None
  | y :: r => if eqb y x then Some O else option_map S (index_of eqb x r)
  end.

(** [self[c]] for a one letter string [c] ([FileStats.__getitem__]) *)
Definition getitem (r : FileStats) (c : ascii) : result pyval :=
  match index_of Ascii.eqb c field_letters with
  | None => Raise (ValueError "is not in list")
  | Some i =>
      match List.nth_error (stats r) i with
      | Some v => Ok v
      | None => Raise IndexError
      end
  end.

(** [FileStats(fpath)]: the record, or the line written to [sys.stderr] *)
Definition init (w : World) (fpath : string) : string + FileStats :=
  let path := dirname w fpath in
  let filename := basename w fpath in
  match lstat w fpath with
  | inl msg => inl ("Cannot stat file " +:+ fpath +:+ ": " +:+ msg)
  | inr st =>
      let typecode := FileTypeCode.S_IFMT (st_mode st) in
      let target :=
        if islink w fpath then
          let target := realpath w fpath in
          let target_dir := realpath w (dirname w target) in
          let file_dir := realpath w path in
          let target := if String.eqb target_dir file_dir then basename w target else target in
          "-> " +:+ target
        else "" in
      inr {| Mode := st_mode st; inode := st_ino st; dev := st_dev st;
             Nlink := st_nlink st; uid := st_uid st; gid := st_gid st;
             size := st_size st; atime := st_atime st; mtime := st_mtime st;
             ctime := st_ctime st; path := path; name := filename;
             filepath := fpath; target := target; Typecode := typecode |}
  end.

(* ===================================================================== *)
(** ** Option values *)
(* ===================================================================== *)

(** [arg_has_plus(arg_string)]; [None] is the [IndexError] of [""] *)
Definition arg_has_plus (arg_string : string) : option (string * bool) :=
  match arg_string with
  | EmptyString => None
  | String c rest => if Ascii.eqb c "+" then Some (rest, true) else Some (arg_string, false)
  end.

Definition mem_string (s : string) (l : list string) : bool := List.existsb (String.eqb s) l.

(** [str(l)] for a list of plain words *)
Definition repr_list (l : list string) : string :=
  "[" +:+ String.concat ", " (List.map PyStr.quoted l) +:+ "]".

(** the loop of [parse_value_list] over the comma separated words *)
Fixpoint first_letters_of (words valid_words : list string) (letters : list ascii)
    : result string :=
  match words with
  | [] => Ok (PyStr.of_chars (List.rev letters))
  | word :: rest =>
      if negb (mem_string word valid_words) then
        Raise (ValueError (PyStr.quoted word +:+ " not in " +:+ repr_list valid_words))
      else
        match word with
        | EmptyString => Raise IndexError
        | String c _ => first_letters_of rest valid_words (c :: letters)
        end
  end.

(** [parse_value_list(val_list, valid_words)] *)
Definition parse_value_list (val_list : string) (valid_words : list string) : result string :=
  if String.eqb val_list "" then Raise (ValueError "missing value")
  else
    let valid_letters := first_letters valid_words in
    let words := PyStr.split_on "," val_list in
    if (List.length words =? 1)%nat then
      if List.forallb (fun c => List.existsb (Ascii.eqb c) valid_letters) (PyStr.chars val_list)
      then Ok val_list
      else
        let msg := PyStr.quoted val_list +:+ " contains letters not in "
                   +:+ PyStr.quoted (PyStr.of_chars valid_letters) +:+ "." in
        let msg :=
          if mem_string val_list valid_words then
            msg +:+ String (ascii_of_nat 10) "If you meant the keyword "
                +:+ PyStr.quoted val_list +:+ ", you need to follow it with a comma."
          else msg in
        Raise (ValueError msg)
    else
      let words := if String.eqb (List.last words "x") "" then List.removelast words else words in
      first_letters_of words valid_words [].

(** [[FileTypeCode.from_char[char] for char in chars]] *)
Fixpoint typecodes_of (l : list ascii) : result (list Z) :=
  match l with
  | [] => Ok []
  | c :: r =>
      match FileTypeCode.from_char c with
      | None => Raise KeyError
      | Some code =>
          match typecodes_of r with
          | inl e => Raise e
          | inr codes => Ok (code :: codes)
          end
      end
  end.

(** The first half of [typecode_list_from_string]: the set [tc_set] of
    type letters the option value resolves to. *)
Definition type_set_from_string (type_list : string) : result (gset ascii) :=
  match arg_has_plus type_list with
  | None => Raise IndexError
  | Some (type_list, include) =>
      match parse_value_list type_list file_type_words with
      | inl (ValueError msg) => Raise (ArgumentTypeError msg)
      | inl e => Raise e
      | inr tstring =>
          let tc_set : gset ascii := list_to_set (PyStr.chars tstring) in
          Ok (if include then file_type_chars ∖ tc_set else tc_set)
      end
  end.

(** [typecode_list_from_string(type_list)]; the order in which Python
    enumerates a set is the order of [elements] here *)
Definition typecode_list_from_string (type_list : string) : result (list Z) :=
  match type_set_from_string type_list with
  | inl e => Raise e
  | inr tc_set =>
      match typecodes_of (elements tc_set) with
      | inl e => Raise e
      | inr typecode_list =>
          if bool_decide ("l"%char ∈ tc_set)
          then Ok (typecode_list ++ [FileTypeCode.broken_link])%list
          else Ok typecode_list
      end
  end.

(* ===================================================================== *)
(** ** Filter predicates *)
(* ===================================================================== *)

(** the comparison names ['<'], ['>'], ['in'], ['not in'], ['~'], ['!~']
    and ["eval"] *)
Inductive filter_op : Type :=
| FLt | FGt | FIn | FNotIn | FMatch | FNotMatch | FEval.

(** the native comparison value of a filter: a number, a list of numbers,
    a compiled regular expression (its pattern), or [None] *)
Inductive native : Type :=
| NInt (n : Z)
| NList (l : list Z)
| NRegex (pattern : string)
| NNone.

(** one entry [(field, comparison, value, field_index, native_value)] of
    [FileStats.filter_list] *)
Record Filter : Type := {
  f_field : string;
  f_comparison : filter_op;
  f_value : string;
  f_index : option nat;
  f_native : native
}.

(** The class attributes that registering a filter reads and writes. *)
Record Registry : Type := {
  size_strings : gmap string Z;   (* FileSize.known_strings *)
  time_strings : gmap string Z;   (* Unixtime.known_strings *)
  usernames : gmap string Z;      (* Uid.known_usernames *)
  groups : gmap string Z;         (* Gid.known_groups *)
  filter_list : list Filter       (* FileStats.filter_list *)
}.

Definition empty_registry : Registry :=
  {| size_strings := ∅; time_strings := ∅; usernames := ∅; groups := ∅;
     filter_list := [] |}.

(** [[parse(x) for x in value_list]] with the cache threaded through; the
    entries cached before an exception stay cached *)
Fixpoint parse_each (parse : gmap string Z -> string -> result Z * gmap string Z)
    (known : gmap string Z) (value_list : list string) : result (list Z) * gmap string Z :=
  match value_list with
  | [] => (Ok [], known)
  | x :: rest =>
      match parse known x with
      | (inl e, known') => (Raise e, known')
      | (inr n, known') =>
          match parse_each parse known' rest with
          | (inl e, known'') => (Raise e, known'')
          | (inr ns, known'') => (Ok (n :: ns), known'')
          end
      end
  end.

Definition is_time_field (field : string) : bool := mem_string field ["mtime"; "atime"; "ctime"].
Definition is_text_field (field : string) : bool := mem_string field ["name"; "path"; "filepath"].

(** the comparison and the native value [add_filter] computes for a field
    other than ["python"]; [comparison] stays unbound ([None]) for a field
    that no branch handles *)
Definition resolve (w : World) (now : PyFloat.t) (field value : string) (op_index : bool)
    (reg : Registry) : result (option filter_op * native) * Registry :=
  let pick (a b : filter_op) := Some (if op_index then b else a) in
  let comparison :=
    if String.eqb field "uid" || String.eqb field "gid" then pick FIn FNotIn else None in
  let value_list := PyStr.split_on "," value in
  if String.eqb field "Typecode" then
    match typecode_list_from_string value with
    | inl e => (Raise e, reg)
    | inr l => (Ok (pick FNotIn FIn, NList l), reg)
    end
  else if String.eqb field "uid" then
    match parse_each (Uid.from_str w) (usernames reg) value_list with
    | (r, known) =>
        let reg' := {| size_strings := size_strings reg; time_strings := time_strings reg;
                       usernames := known; groups := groups reg;
                       filter_list := filter_list reg |} in
        match r with
        | inl e => (Raise e, reg')
        | inr l => (Ok (comparison, NList l), reg')
        end
    end
  else if String.eqb field "gid" then
    match parse_each (Gid.from_str w) (groups reg) value_list with
    | (r, known) =>
        let reg' := {| size_strings := size_strings reg; time_strings := time_strings reg;
                       usernames := usernames reg; groups := known;
                       filter_list := filter_list reg |} in
        match r with
        | inl e => (Raise e, reg')
        | inr l => (Ok (comparison, NList l), reg')
        end
    end
  else if is_time_field field then
    match Unixtime.str_to_secs w now (time_strings reg) value with
    | (r, known) =>
        let reg' := {| size_strings := size_strings reg; time_strings := known;
                       usernames := usernames reg; groups := groups reg;
                       filter_list := filter_list reg |} in
        match r with
        | inl e => (Raise e, reg')
        | inr n => (Ok (pick FGt FLt, NInt n), reg')
        end
    end
  else if String.eqb field "size" then
    match FileSize.from_string (size_strings reg) value with
    | (r, known) =>
        let reg' := {| size_strings := known; time_strings := time_strings reg;
                       usernames := usernames reg; groups := groups reg;
                       filter_list := filter_list reg |} in
        match r with
        | inl e => (Raise e, reg')
        | inr n => (Ok (pick FLt FGt, NInt n), reg')
        end
    end
  else if is_text_field field then
    if re_valid w value then (Ok (pick FMatch FNotMatch, NRegex value), reg)
    else (Raise ReError, reg)
  else (Ok (comparison, NNone), reg).

Definition append_filter (f : Filter) (reg : Registry) : Registry :=
  {| size_strings := size_strings reg; time_strings := time_strings reg;
     usernames := usernames reg; groups := groups reg;
     filter_list := (filter_list reg ++ [f])%list |}.

(** [FileStats.add_filter(field, value)]; [now] is what [time.time()]
    returns if the call reads the clock *)
Definition add_filter (w : World) (now : PyFloat.t) (field value : string) (reg : Registry)
    : result unit * Registry :=
  match arg_has_plus value with
  | None => (Raise IndexError, reg)
  | Some (value, op_index) =>
      if op_index && String.eqb value "" then (Raise (ValueError ""), reg)
      else if String.eqb field "python" then
        match init w (argv0 w) with
        | inl _ => (Raise (ValueError "'stats' is not in list"), reg)
        | inr test_stats =>
            match py_eval w value test_stats with
            | inl e => (Raise e, reg)
            | inr _ =>
                (Ok tt, append_filter {| f_field := field; f_comparison := FEval;
                                         f_value := value; f_index := None;
                                         f_native := NNone |} reg)
            end
        end
      else
        match resolve w now field value op_index reg with
        | (inl e, reg') => (Raise e, reg')
        | (inr (comparison, native_value), reg') =>
            match index_of String.eqb field field_words with
            | None => (Raise (ValueError (PyStr.quoted field +:+ " is not in list")), reg')
            | Some field_index =>
                match comparison with
                | None => (Raise NameError, reg')
                | Some comparison =>
                    (Ok tt, append_filter {| f_field := field; f_comparison := comparison;
                                             f_value := value; f_index := Some field_index;
                                             f_native := native_value |} reg')
                end
            end
        end
  end.

(** [self.stats[index]] for the index stored in a filter *)
Definition field_value (self : FileStats) (index : option nat) : option pyval :=
  match index with
  | Some i => List.nth_error (stats self) i
  | None => None
  end.

Definition mem_Z (x : Z) (l : list Z) : bool := List.existsb (Z.eqb x) l.

(** One test of the loop in [passes_filters]: does the record satisfy the
    filter.  The combinations of comparison, field and native value that
    [add_filter] never builds raise [TypeError]. *)
Definition holds (w : World) (self : FileStats) (f : Filter) : result bool :=
  match f_comparison f, field_value self (f_index f), f_native f with
  | FLt, Some (VInt a), NInt b => Ok (a <? b)
  | FGt, Some (VInt a), NInt b => Ok (a >? b)
  | FIn, Some (VInt a), NList l => Ok (mem_Z a l)
  | FNotIn, Some (VInt a), NList l => Ok (negb (mem_Z a l))
  | FMatch, Some (VStr s), NRegex p => Ok (re_search w p s)
  | FNotMatch, Some (VStr s), NRegex p => Ok (negb (re_search w p s))
  | FEval, _, _ => py_eval w (f_value f) self
  | _, _, _ => Raise TypeError
  end.

(** The loop of [passes_filters]: the filter at which the loop breaks
    (the one the line printed under [OPTS.debug] names), or [None] when
    the loop runs to its end with [passes] still true. *)
Fixpoint first_failing (w : World) (filters : list Filter) (self : FileStats)
    : result (option Filter) :=
  match filters with
  | [] => Ok None
  | f :: rest =>
      match holds w self f with
      | inl e => Raise e
      | inr false => Ok (Some f)
      | inr true => first_failing w rest self
      end
  end.

(** [self.passes_filters()] *)
Definition passes_filters (w : World) (filters : list Filter) (self : FileStats) : result bool :=
  match first_failing w filters self with
  | inl e => Raise e
  | inr None => Ok true
  | inr (Some _) => Ok false
  end.

(** the loop of [apply_all_filters] *)
Fixpoint keep_passing (w : World) (filters : list Filter) (statlist : list FileStats)
    : result (list FileStats) :=
  match statlist with
  | [] => Ok []
  | stats :: rest =>
      match passes_filters w filters stats with
      | inl e => Raise e
      | inr b =>
          match keep_passing w filters rest with
          | inl e => Raise e
          | inr newlist => Ok (if b then stats :: newlist else newlist)
          end
      end
  end.

(** [apply_all_filters(statlist)] *)
Definition apply_all_filters (w : World) (filters : list Filter) (statlist : list FileStats)
    : result (list FileStats) :=
  match filters with
  | [] => Ok statlist
  | _ => keep_passing w filters statlist
  end.

(* ===================================================================== *)
(** ** Sorting *)
(* ===================================================================== *)

(** [a < b] on the values of a field, as Python 2 orders them: numbers by
    value, strings byte by byte, and every number before every string *)
Definition py_lt (a b : pyval) : bool :=
  match a, b with
  | VInt x, VInt y => x <? y
  | VStr x, VStr y => String.ltb x y
  | VInt _, VStr _ => true
  | VStr _, VInt _ => false
  end.

Section ListSort.

Context {A K : Type}.

(** put [x], which stood before all of [l], into the sorted list [l]:
    after the items that are strictly less, before the others *)
Fixpoint insert_by (lt : K -> K -> bool) (x : K * A) (l : list (K * A)) : list (K * A) :=
  match l with
  | [] => [x]
  | y :: r => if lt (fst y) (fst x) then y :: insert_by lt x r else x :: l
  end.

(** the stable sort of the decorated list *)
Definition stable_sort (lt : K -> K -> bool) (l : list (K * A)) : list (K * A) :=
  List.fold_right (insert_by lt) [] l.

(** the keys of all items, computed before anything is moved *)
Fixpoint decorate (key : A -> result K) (l : list A) : result (list (K * A)) :=
  match l with
  | [] => Ok []
  | x :: r =>
      match key x with
      | inl e => Raise e
      | inr k =>
          match decorate key r with
          | inl e => Raise e
          | inr d => Ok ((k, x) :: d)
          end
      end
  end.

(** [l.sort(key=key, reverse=reverse)]: a stable sort on the keys;
    with [reverse] the comparison is turned around and items with equal
    keys still keep their order *)
Definition list_sort (lt : K -> K -> bool) (key : A -> result K) (reverse : bool)
    (l : list A) : result (list A) :=
  match decorate key l with
  | inl e => Raise e
  | inr d =>
      let lt' := if reverse then (fun a b => lt b a) else lt in
      Ok (List.map snd (stable_sort lt' d))
  end.

End ListSort.

(** the loop of [sort_stats] over the letters it is given *)
Fixpoint sort_passes (letters : list ascii) (reverse_sort : bool) (statlist : list FileStats)
    : result (list FileStats) :=
  match letters with
  | [] => Ok statlist
  | field_letter :: rest =>
      match list_sort py_lt (fun r => getitem r field_letter) reverse_sort statlist with
      | inl e => Raise e
      | inr statlist' => sort_passes rest reverse_sort statlist'
      end
  end.

(** [sort_stats(statlist)] with [OPTS.sort = sort] *)
Definition sort_stats (sort : string) (statlist : list FileStats) : result (list FileStats) :=
  match arg_has_plus sort with
  | None => Raise IndexError
  | Some (sort_fields, reverse_sort) =>
      sort_passes (List.rev (PyStr.chars sort_fields)) reverse_sort statlist
  end.

(** what [main] makes of the [--sort] option before anything is sorted:
    ['n'] when it is missing, and ['n'] appended when it is not in it *)
Definition main_sort (sort : option string) : string :=
  let sort := match sort with
              | None | Some EmptyString => "n"
              | Some s => s
              end in
  if negb (PyStr.mem "n" sort) then sort +:+ "n" else sort.

(* ===================================================================== *)
(** ** Traversal and display *)
(* ===================================================================== *)

(** the options of [OPTS] the traversal reads *)
Record Options : Type := {
  opt_all : bool;
  opt_merge : bool;
  opt_recursive : bool;
  opt_directory : bool;
  opt_quiet : bool;
  opt_fields : string;
  opt_sort : string;
  opt_os_command : option string
}.

(** What the program writes, in the order it writes it.  The lines that
    [OPTS.debug] adds are left out. *)
Inductive event : Type :=
| OutDirectory (path : string)                  (* "Directory <path>" *)
| OutLine (stats : FileStats) (fields : string) (* stats.printout(OPTS.fields) *)
| OutExecute (filepath : string)                (* OPTS.os_command.execute *)
| OutTotal (files bytes : Z)                    (* "Total of ... files, ..." *)
| OutGrandTotal (files bytes : Z)               (* "Grand total of ..." *)
| ErrLine (msg : string).                       (* sys.stderr.write *)

(** the module globals and the output written so far *)
Record Run : Type := {
  TOTFILES : Z; TOTSIZE : Z; GTOTFILES : Z; GTOTSIZE : Z;
  output : list event
}.

Definition start : Run :=
  {| TOTFILES := 0; TOTSIZE := 0; GTOTFILES := 0; GTOTSIZE := 0; output := [] |}.

Definition emit (e : event) (run : Run) : Run :=
  {| TOTFILES := TOTFILES run; TOTSIZE := TOTSIZE run; GTOTFILES := GTOTFILES run;
     GTOTSIZE := GTOTSIZE run; output := (output run ++ [e])%list |}.

(** [stat_files(filepaths)] *)
Fixpoint stat_files (w : World) (filepaths : list string) (run : Run)
    : list FileStats * Run :=
  match filepaths with
  | [] => ([], run)
  | filepath :: rest =>
      match init w filepath with
      | inl msg => stat_files w rest (emit (ErrLine msg) run)
      | inr stats =>
          let '(statlist, run') := stat_files w rest run in
          (stats :: statlist, run')
      end
  end.

(** one turn of the display loop of [display_statlist] *)
Definition display_one (opts : Options) (run : Run) (stats : FileStats) : Run :=
  let run := emit (OutLine stats (opt_fields opts)) run in
  let run := {| TOTFILES := TOTFILES run + 1; TOTSIZE := TOTSIZE run + size stats;
                GTOTFILES := GTOTFILES run; GTOTSIZE := GTOTSIZE run;
                output := output run |} in
  match opt_os_command opts with
  | Some _ => emit (OutExecute (filepath stats)) run
  | None => run
  end.

Definition nonempty {A : Type} (l : list A) : bool :=
  match l with [] => false | _ => true end.

(** [display_statlist(statlist)] *)
Definition display_statlist (opts : Options) (w : World) (filters : list Filter)
    (statlist : list FileStats) (run : Run) : result unit * Run :=
  let run := {| TOTFILES := 0; TOTSIZE := 0; GTOTFILES := GTOTFILES run;
                GTOTSIZE := GTOTSIZE run; output := output run |} in
  match apply_all_filters w filters statlist with
  | inl e => (Raise e, run)
  | inr statlist =>
      match sort_stats (opt_sort opts) statlist with
      | inl e => (Raise e, run)
      | inr statlist =>
          let run :=
            match statlist with
            | first :: _ =>
                if negb (opt_quiet opts) && negb (opt_merge opts) then
                  emit (OutDirectory (if String.eqb (path first) "" then "." else path first)) run
                else run
            | [] => run
            end in
          let run := List.fold_left (display_one opts) statlist run in
          let run :=
            if nonempty statlist && negb (opt_quiet opts) then
              let run := emit (OutTotal (TOTFILES run) (TOTSIZE run)) run in
              {| TOTFILES := TOTFILES run; TOTSIZE := TOTSIZE run;
                 GTOTFILES := GTOTFILES run + TOTFILES run;
                 GTOTSIZE := GTOTSIZE run + TOTSIZE run; output := output run |}
            else run in
          (Ok tt, run)
      end
  end.

(** [[f for f in files if f[0] != '.']] *)
Fixpoint visible (files : list string) : result (list string) :=
  match files with
  | [] => Ok []
  | f :: rest =>
      match PyStr.first_char f with
      | None => Raise IndexError
      | Some c =>
          match visible rest with
          | inl e => Raise e
          | inr l => Ok (if Ascii.eqb c "." then l else f :: l)
          end
      end
  end.

(** [stat_directory(path)].  The recursion into subdirectories is bounded
    by [fuel]; [None] means the bound was too small. *)
Fixpoint stat_directory (fuel : nat) (opts : Options) (w : World) (filters : list Filter)
    (path : string) (run : Run) : option (result (list FileStats) * Run) :=
  match fuel with
  | O => None
  | S fuel' =>
      match listdir w path with
      | inl msg => Some (Ok [], emit (ErrLine ("Unable to access " +:+ path +:+ ": " +:+ msg)) run)
      | inr files =>
          match (if opt_all opts then Ok files else visible files) with
          | inl e => Some (Raise e, run)
          | inr [] => Some (Ok [], run)
          | inr files =>
              let filepaths := List.map (path_join w path) files in
              let '(statlist, run) := stat_files w filepaths run in
              let '(shown, statlist, run) :=
                if negb (opt_merge opts) then
                  let '(r, run') := display_statlist opts w filters statlist run in
                  (r, [], run')
                else (Ok tt, statlist, run) in
              match shown with
              | inl e => Some (Raise e, run)
              | inr _ =>
                  if opt_recursive opts then
                    let subdirectories :=
                      List.filter (fun f => isdir w f && negb (islink w f)) filepaths in
                    (fix descend (dirs : list string) (statlist : list FileStats) (run : Run) :=
                       match dirs with
                       | [] => Some (Ok statlist, run)
                       | directory :: rest =>
                           match stat_directory fuel' opts w filters directory run with
                           | None => None
                           | Some (inl e, run') => Some (Raise e, run')
                           | Some (inr l, run') => descend rest (statlist ++ l)%list run'
                           end
                       end) subdirectories statlist run
                  else Some (Ok statlist, run)
              end
          end
      end
  end.

(** the loop of [show_paths]; [last_dir] is [None] before the first path *)
Fixpoint show_loop (fuel : nat) (opts : Options) (w : World) (filters : list Filter)
    (paths : list string) (statlist : list FileStats) (last_dir : option string) (run : Run)
    : option (result (list FileStats) * Run) :=
  match paths with
  | [] => Some (Ok statlist, run)
  | path :: rest =>
      let this_dir := dirname w path in
      let flush :=
        match last_dir with
        | Some d => negb (String.eqb this_dir d) && negb (opt_merge opts)
        | None => false
        end in
      let '(shown, statlist, run) :=
        if flush then
          let '(r, run') := display_statlist opts w filters statlist run in (r, [], run')
        else (Ok tt, statlist, run) in
      match shown with
      | inl e => Some (Raise e, run)
      | inr _ =>
          let found :=
            if isdir w path && negb (opt_directory opts) then
              stat_directory fuel opts w filters path run
            else
              let '(l, run') := stat_files w [path] run in Some (Ok l, run') in
          match found with
          | None => None
          | Some (inl e, run') => Some (Raise e, run')
          | Some (inr l, run') =>
              show_loop fuel opts w filters rest (statlist ++ l)%list (Some this_dir) run'
          end
      end
  end.

(** [show_paths(paths)] *)
Definition show_paths (fuel : nat) (opts : Options) (w : World) (filters : list Filter)
    (paths : list string) (run : Run) : option (result unit * Run) :=
  match show_loop fuel opts w filters paths [] None run with
  | None => None
  | Some (inl e, run) => Some (Raise e, run)
  | Some (inr statlist, run) =>
      let '(shown, run) :=
        if nonempty statlist then display_statlist opts w filters statlist run
        else (Ok tt, run) in
      match shown with
      | inl e => Some (Raise e, run)
      | inr _ =>
          if negb (TOTFILES run =? GTOTFILES run) && negb (opt_quiet opts) then
            Some (Ok tt, emit (OutGrandTotal (GTOTFILES run) (GTOTSIZE run)) run)
          else Some (Ok tt, run)
      end
  end.

(** the records the program printed, in the order it printed them *)
Definition shown_records (run : Run) : list FileStats :=
  List.flat_map (fun e => match e with OutLine stats _ => [stats] | _ => [] end) (output run).

(* ===================================================================== *)
(** ** A reference world: POSIX, C locale, UTC, and a small directory *)
(* ===================================================================== *)

Module Posix.

(** [s.rfind('/') + 1]: the length of the part up to the last slash *)
Fixpoint after_last_slash (l : list ascii) (pos best : nat) : nat :=
  match l with
  | [] => best
  | c :: r => after_last_slash r (S pos) (if Ascii.eqb c "/" then S pos else best)
  end.

Fixpoint rstrip_slash (rev_l : list ascii) : list ascii :=
  match rev_l with
  | c :: r => if Ascii.eqb c "/" then rstrip_slash r else rev_l
  | [] => []
  end.

(** [posixpath.split(p)] *)
Definition split (p : string) : string * string :=
  let l := PyStr.chars p in
  let i := after_last_slash l 0 0 in
  let head := List.firstn i l in
  let tail := List.skipn i l in
  let head :=
    if List.forallb (Ascii.eqb "/") head then head
    else List.rev (rstrip_slash (List.rev head)) in
  (PyStr.of_chars head, PyStr.of_chars tail).

Definition posix_dirname (p : string) : string := fst (split p).
Definition posix_basename (p : string) : string := snd (split p).

(** [posixpath.join(a, b)] *)
Definition join (a b : string) : string :=
  let is_slash (c : option ascii) :=
    match c with Some c => Ascii.eqb c "/" | None => false end in
  if is_slash (PyStr.first_char b) then b
  else if String.eqb a "" || is_slash (PyStr.last_char a) then a +:+ b
  else a +:+ "/" +:+ b.

(** *** [time.strptime] in the C locale, for the two formats
    [str_to_secs] uses, and [time.mktime] in UTC *)

Definition months : list string :=
  ["jan"; "feb"; "mar"; "apr"; "may"; "jun"; "jul"; "aug"; "sep"; "oct"; "nov"; "dec"].

(** [\s+] *)
Definition spaces (l : list ascii) : option (list ascii) :=
  match l with
  | c :: r => if PyStr.is_space c then Some (PyStr.lstrip r) else None
  | [] => None
  end.

(** one or two digits: the two digit reading when [ok2] accepts it,
    else the one digit reading when [ok1] accepts it *)
Definition number (ok2 ok1 : Z -> bool) (l : list ascii) : option (Z * list ascii) :=
  let one :=
    match l with
    | c :: r =>
        if PyStr.is_digit c && ok1 (PyStr.digit_val c) then Some (PyStr.digit_val c, r)
        else None
    | [] => None
    end in
  match l with
  | c1 :: c2 :: r =>
      let v := 10 * PyStr.digit_val c1 + PyStr.digit_val c2 in
      if PyStr.is_digit c1 && PyStr.is_digit c2 && ok2 v then Some (v, r) else one
  | _ => one
  end.

Definition month (l : list ascii) : option (Z * list ascii) :=
  match l with
  | a :: b :: c :: r =>
      match index_of String.eqb (PyStr.of_chars (List.map PyStr.lower [a; b; c])) months with
      | Some i => Some (Z.of_nat i + 1, r)
      | None => None
      end
  | _ => None
  end.

Definition year (l : list ascii) : option (Z * list ascii) :=
  match l with
  | a :: b :: c :: d :: r =>
      if List.forallb PyStr.is_digit [a; b; c; d]
      then Some (fst (fst (PyFloat.digits [a; b; c; d] 0 0)), r)
      else None
  | _ => None
  end.

Definition is_leap (y : Z) : bool :=
  ((y mod 4 =? 0) && negb (y mod 100 =? 0)) || (y mod 400 =? 0).

Definition days_in_month (y m : Z) : Z :=
  if m =? 2 then (if is_leap y then 29 else 28)
  else if (m =? 4) || (m =? 6) || (m =? 9) || (m =? 11) then 30
  else 31.

(** days from 1970-01-01 to the given day of the Gregorian calendar *)
Definition days_from_civil (y m d : Z) : Z :=
  let y' := if m <=? 2 then y - 1 else y in
  let era := y' / 400 in
  let yoe := y' - era * 400 in
  let doy := (153 * (if 2 <? m then m - 3 else m + 9) + 2) / 5 + d - 1 in
  let doe := yoe * 365 + yoe / 4 - yoe / 100 + doy in
  era * 146097 + doe - 719468.

Definition make_time (y m d h mi : Z) : option struct_time :=
  if (1 <=? y) && (d <=? days_in_month y m) then
    let days := days_from_civil y m d in
    Some {| tm_year := y; tm_mon := m; tm_mday := d; tm_hour := h; tm_min := mi;
            tm_sec := 0; tm_wday := (days + 3) mod 7;
            tm_yday := days - days_from_civil y 1 1 + 1; tm_isdst := -1 |}
  else None.

Definition c_strptime (data format : string) : option struct_time :=
  let with_time :=
    if String.eqb format "%b %d %Y" then Some false
    else if String.eqb format "%b %d %Y %H:%M" then Some true
    else None in
  match with_time with
  | None => None
  | Some with_time =>
      l ← month (PyStr.chars data);
      let '(m, l) := l in
      l ← spaces l;
      l ← number (fun v => (1 <=? v) && (v <=? 31)) (fun v => 1 <=? v) l;
      let '(d, l) := l in
      l ← spaces l;
      l ← year l;
      let '(y, l) := l in
      if with_time then
        l ← spaces l;
        l ← number (fun v => v <=? 23) (fun _ => true) l;
        let '(h, l) := l in
        match l with
        | ":"%char :: l =>
            l ← number (fun v => v <=? 59) (fun _ => true) l;
            let '(mi, l) := l in
            match l with
            | [] => make_time y m d h mi
            | _ => None
            end
        | _ => None
        end
      else
        match l with
        | [] => make_time y m d 0 0
        | _ => None
        end
  end.

Definition utc_mktime (t : struct_time) : result PyFloat.t :=
  Ok (PyFloat.of_Z (days_from_civil (tm_year t) (tm_mon t) (tm_mday t) * 86400
                    + tm_hour t * 3600 + tm_min t * 60 + tm_sec t)).

(** *** The files: a directory [proj] with two regular files, a hidden
    file, a name that vanished before it could be examined, a
    subdirectory and a dangling link *)

Definition regular_file (bytes : Z) : stat_result :=
  {| st_mode := 33188; st_ino := 7; st_dev := 1; st_nlink := 1; st_uid := 0;
     st_gid := 0; st_size := bytes; st_atime := 1400000000;
     st_mtime := 1400000000; st_ctime := 1400000000 |}.

Definition directory : stat_result :=
  {| st_mode := 16877; st_ino := 8; st_dev := 1; st_nlink := 2; st_uid := 0;
     st_gid := 0; st_size := 4096; st_atime := 1400000000;
     st_mtime := 1400000000; st_ctime := 1400000000 |}.

Definition symlink : stat_result :=
  {| st_mode := 41471; st_ino := 9; st_dev := 1; st_nlink := 1; st_uid := 1000;
     st_gid := 1000; st_size := 7; st_atime := 1400000000;
     st_mtime := 1400000000; st_ctime := 1400000000 |}.

Definition fs_lstat (p : string) : string + stat_result :=
  if String.eqb p "proj" || String.eqb p "proj/sub" || String.eqb p "." then inr directory
  else if String.eqb p "proj/a.txt" || String.eqb p "lsf.py" then inr (regular_file 100)
  else if String.eqb p "proj/b.txt" then inr (regular_file 2048)
  else if String.eqb p "proj/.hidden" then inr (regular_file 10240)
  else if String.eqb p "proj/dangling" then inr symlink
  else inl "No such file or directory".

Definition fs_listdir (p : string) : string + list string :=
  if String.eqb p "proj" then inr ["b.txt"; "gone"; "sub"; ".hidden"; "a.txt"; "dangling"]
  else if String.eqb p "proj/sub" then inr []
  else inl "No such file or directory".

Definition fs_isdir (p : string) : bool :=
  String.eqb p "proj" || String.eqb p "proj/sub" || String.eqb p ".".

Definition passwd (user : string) : option Z :=
  if String.eqb user "root" then Some 0
  else if String.eqb user "alice" then Some 1000
  else None.

(** [find] on text: the patterns of this world are literal text *)
Fixpoint occurs (pat text : list ascii) : bool :=
  if String.prefix (PyStr.of_chars pat) (PyStr.of_chars text) then true
  else match text with
       | [] => false
       | _ :: r => occurs pat r
       end.

Definition world : World :=
  {| os_is_windows := false;
     getpwnam := passwd;
     getgrnam := passwd;
     strptime := c_strptime;
     mktime := utc_mktime;
     re_valid := fun _ => true;
     re_search := fun pat text => occurs (PyStr.chars pat) (PyStr.chars text);
     py_eval := fun _ _ => Raise EvalError;
     argv0 := "lsf.py";
     lstat := fs_lstat;
     listdir := fs_listdir;
     isdir := fs_isdir;
     islink := fun p => String.eqb p "proj/dangling";
     realpath := fun p => p;
     dirname := posix_dirname;
     basename := posix_basename;
     path_join := join |}.

(** the same machine seen by a program for which [os.name == "nt"] *)
Definition windows : World :=
  {| os_is_windows := true;
     getpwnam := fun _ => None;
     getgrnam := fun _ => None;
     strptime := c_strptime;
     mktime := utc_mktime;
     re_valid := re_valid world;
     re_search := re_search world;
     py_eval := py_eval world;
     argv0 := argv0 world;
     lstat := fs_lstat;
     listdir := fs_listdir;
     isdir := fs_isdir;
     islink := islink world;
     realpath := realpath world;
     dirname := posix_dirname;
     basename := posix_basename;
     path_join := join |}.

End Posix.


(* ===================================================================== *)
(** ** Vocabulary of the properties *)
(* ===================================================================== *)

(** the factor a FILESIZE suffix stands for *)
Definition unit_factor (c : ascii) : option Z :=
  if Ascii.eqb c "b" then Some 512
  else if Ascii.eqb c "k" then Some 1024
  else if Ascii.eqb c "m" then Some (1024 * 1024)
  else if Ascii.eqb c "g" then Some (1024 * 1024 * 1024)
  else None.


(** the four kinds of typed scalar *)
Inductive kind : Type := KUnixtime | KUid | KGid | KFileSize.

(** the parser of a kind, on the cache of that kind *)
Definition parse_kind (w : World) (now : PyFloat.t) (k : kind)
    : gmap string Z -> string -> result Z * gmap string Z :=
  match k with
  | KUnixtime => Unixtime.str_to_secs w now
  | KUid => Uid.from_str w
  | KGid => Gid.from_str w
  | KFileSize => FileSize.from_string
  end.


(** the calls of [Unixtime.str_to_secs] a program makes one after the
    other, each at its own clock reading; the results are dropped and the
    cache is handed on *)
Fixpoint later_calls (w : World) (calls : list (PyFloat.t * string)) (known : gmap string Z)
    : gmap string Z :=
  match calls with
  | [] => known
  | (now, time_str) :: rest =>
      later_calls w rest (snd (Unixtime.str_to_secs w now known time_str))
  end.

(** a record with the given name, size and type code in directory [proj] *)
Definition file (name : string) (bytes : Z) (typecode : Z) : FileStats :=
  {| Mode := typecode + 420; inode := 1; dev := 1; Nlink := 1; uid := 0; gid := 0;
     size := bytes; atime := 0; mtime := 0; ctime := 0;
     path := "proj"; name := name; filepath := "proj/" +:+ name; target := "";
     Typecode := typecode |}.

(** the filter list after registering one filter in an empty registry *)
Definition registered (w : World) (now : PyFloat.t) (field value : string) : list Filter :=
  filter_list (snd (add_filter w now field value empty_registry)).

(** the seconds a DATETIME suffix stands for *)
Definition unit_seconds (c : ascii) : option Z :=
  if Ascii.eqb c "m" then Some 60
  else if Ascii.eqb c "h" then Some (60 * 60)
  else if Ascii.eqb c "d" then Some (60 * 60 * 24)
  else if Ascii.eqb c "w" then Some (60 * 60 * 24 * 7)
  else if Ascii.eqb c "y" then Some (60 * 60 * 24 * 365)
  else None.

(** the format [str_to_secs] hands to [time.strptime] *)
Definition time_format (time_str : string) : string :=
  if (List.length (PyStr.split_ws time_str) =? 3)%nat then "%b %d %Y" else "%b %d %Y %H:%M".

(** the options with [OPTS.merge] set to [b] *)
Definition with_merge (b : bool) (opts : Options) : Options :=
  {| opt_all := opt_all opts; opt_merge := b; opt_recursive := opt_recursive opts;
     opt_directory := opt_directory opts; opt_quiet := opt_quiet opts;
     opt_fields := opt_fields opts; opt_sort := opt_sort opts;
     opt_os_command := opt_os_command opts |}.

(** the filtered and sorted content of a group: what [display_statlist]
    computes before it prints anything *)
Definition group_content (opts : Options) (w : World) (filters : list Filter)
    (statlist : list FileStats) : result (list FileStats) :=
  match apply_all_filters w filters statlist with
  | inl e => Raise e
  | inr l => sort_stats (opt_sort opts) l
  end.

(** options for the examples: sizes and names, sorted by size *)
Definition example_opts : Options :=
  {| opt_all := false; opt_merge := false; opt_recursive := false; opt_directory := false;
     opt_quiet := false; opt_fields := "sn"; opt_sort := "sn"; opt_os_command := None |}.

(** the stable insertion sort of [list_sort], seen on the items
    themselves: every item carries its key [key x] *)
Section KeySort.

Context {A K : Type} (lt : K -> K -> bool) (key : A -> K).

Fixpoint insert_key (x : A) (l : list A) : list A :=
  match l with
  | [] => [x]
  | y :: r => if lt (key y) (key x) then y :: insert_key x r else x :: l
  end.

Definition sort_by_key (l : list A) : list A := List.fold_right insert_key [] l.

(** the order after a pass: by the key of the pass, and among equal keys
    by the order [R] the list had before *)
Definition refined (R : A -> A -> Prop) (a b : A) : Prop :=
  lt (key a) (key b) = true \/ (lt (key b) (key a) = false /\ R a b).

End KeySort.

(** the value of the field with letter [c] of a record *)
Definition field_of (c : ascii) (r : FileStats) : pyval :=
  match getitem r c with
  | inr v => v
  | inl _ => VInt 0
  end.

(** the comparison one pass of [sort_stats] uses *)
Definition pass_lt (reverse : bool) : pyval -> pyval -> bool :=
  if reverse then (fun a b => py_lt b a) else py_lt.

(** [a] may stand before [b] in the order given by the key letters, the
    first letter counting most: at the first letter where the records
    differ, [a] has the smaller value (the greater one with [reverse]) *)
Fixpoint lex_le (reverse : bool) (keys : list ascii) (a b : FileStats) : Prop :=
  match keys with
  | [] => True
  | c :: rest =>
      pass_lt reverse (field_of c a) (field_of c b) = true \/
      (field_of c a = field_of c b /\ lex_le reverse rest a b)
  end.

(** the two records agree on every key *)
Definition same_keys (keys : list ascii) (a b : FileStats) : Prop :=
  Forall (fun c => field_of c a = field_of c b) keys.

(* ===================================================================== *)
(** ** Display of values and checks of option values *)
(* ===================================================================== *)

(** the decimal digits of a number that is not negative, in front of
    [acc]; [fuel] bounds the number of digits *)
Fixpoint decimal_digits (fuel : nat) (n : Z) (acc : list ascii) : list ascii :=
  match fuel with
  | O => acc
  | S fuel' =>
      let acc' := ascii_of_N (Z.to_N (48 + n mod 10)) :: acc in
      if n <? 10 then acc' else decimal_digits fuel' (n / 10) acc'
  end.

(** [str(n)] and ["%d" % n] for an integer *)
Definition py_str (n : Z) : string :=
  let a := Z.abs n in
  let ds := PyStr.of_chars (decimal_digits (S (Z.to_nat (Z.log2 a))) a []) in
  if n <? 0 then String "-" ds else ds.

(** ["%<width>d"]: blanks in front, up to the width *)
Definition rjust (width : nat) (s : string) : string :=
  PyStr.of_chars (List.repeat " "%char (width - String.length s)) +:+ s.

(** [FileSize.__str__] *)
Definition FileSize_str (value : Z) : string := rjust 10 (py_str value).

(** [Uid.__str__]; [known_uids] is [Uid.known_uids] and [getpwuid] is
    [pwd.getpwuid(uid)[0]], with [None] for its [KeyError] *)
Definition Uid_str (w : World) (getpwuid : Z -> option string) (known_uids : gmap Z string)
    (value : Z) : string * gmap Z string :=
  match known_uids !! value with
  | Some username => (username, known_uids)
  | None =>
      let username := if os_is_windows w then None else getpwuid value in
      let username := match username with
                      | Some u => u
                      | None => py_str value
                      end in
      (username, <[value := username]> known_uids)
  end.

(** [Gid.__str__]; [known_gids] is [Gid.known_gids] and [getgrgid] is
    [grp.getgrgid(gid)[0]], with [None] for its [KeyError] *)
Definition Gid_str (w : World) (getgrgid : Z -> option string) (known_gids : gmap Z string)
    (value : Z) : string * gmap Z string :=
  match known_gids !! value with
  | Some group => (group, known_gids)
  | None =>
      let group := if os_is_windows w then None else getgrgid value in
      let group := match group with
                   | Some g => g
                   | None => py_str value
                   end in
      (group, <[value := group]> known_gids)
  end.

(** [FileTypeCode.to_char[code]]; [None] is the [KeyError] *)
Definition to_char (code : Z) : option ascii :=
  if code =? 0 then Some "l"%char
  else if code =? FileTypeCode.S_IFDIR then Some "d"%char
  else if code =? FileTypeCode.S_IFCHR then Some "c"%char
  else if code =? FileTypeCode.S_IFBLK then Some "b"%char
  else if code =? FileTypeCode.S_IFREG then Some "-"%char
  else if code =? FileTypeCode.S_IFLNK then Some "l"%char
  else if code =? FileTypeCode.S_IFIFO then Some "p"%char
  else if code =? FileTypeCode.S_IFSOCK then Some "S"%char
  else None.

(** the [while mask:] loop of [mode_string]; it ends when the mask has
    been shifted to 0, which [fuel] turns of the loop are enough for *)
Fixpoint mode_loop (fuel : nat) (mode mask : Z) (i : nat) : result (list ascii) :=
  if mask =? 0 then Ok []
  else
    match fuel with
    | O => Ok []
    | S fuel' =>
        match (if Z.land mode mask =? 0 then Some "-"%char
               else List.nth_error (PyStr.chars "rwxrwxrwx") i) with
        | None => Raise IndexError
        | Some next_char =>
            match mode_loop fuel' mode (Z.shiftr mask 1) (S i) with
            | inl e => Raise e
            | inr rest => Ok (next_char :: rest)
            end
        end
    end.

(** [self.mode_string()] *)
Definition mode_string (self : FileStats) : result string :=
  match to_char (Typecode self) with
  | None => Raise KeyError
  | Some type_char =>
      match mode_loop 9 (Mode self) 256 0 with   (* mask = 0o400 *)
      | inl e => Raise e
      | inr chars => Ok (PyStr.of_chars (type_char :: chars))
      end
  end.

(** [t[i]] for a tuple or list, with Python's negative indices *)
Definition py_nth {A : Type} (l : list A) (i : Z) : option A :=
  let n := Z.of_nat (List.length l) in
  let j := if i <? 0 then i + n else i in
  if (0 <=? j) && (j <? n) then List.nth_error l (Z.to_nat j) else None.

(** [self[index]] ([FileStats.__getitem__]) for a string or a number *)
Definition getitem_any (self : FileStats) (index : operand) : result pyval :=
  let position :=
    match index with
    | OStr s =>
        if (1 <? String.length s)%nat then
          match index_of String.eqb s field_words with
          | Some i => Ok (Z.of_nat i)
          | None => Raise (ValueError (PyStr.quoted s +:+ " is not in list"))
          end
        else
          match index_of String.eqb s (List.map (fun c => String c "") field_letters) with
          | Some i => Ok (Z.of_nat i)
          | None => Raise (ValueError (PyStr.quoted s +:+ " is not in list"))
          end
    | OInt i => Ok i
    end in
  match position with
  | inl e => Raise e
  | inr i =>
      match py_nth (stats self) i with
      | Some v => Ok v
      | None => Raise IndexError
      end
  end.

Definition time_field_words : list string := ["atime"; "mtime"; "ctime"].

(** [except ValueError as error: raise argparse.ArgumentTypeError(error.message)] *)
Definition as_argument_error {A : Type} (r : result A) : result A :=
  match r with
  | inl (ValueError msg) => Raise (ArgumentTypeError msg)
  | r => r
  end.

(** [field_list_arg(arg)] *)
Definition field_list_arg (arg : string) : result string :=
  as_argument_error (parse_value_list arg field_words).

(** [time_field_list_arg(arg)] *)
Definition time_field_list_arg (arg : string) : result string :=
  as_argument_error (parse_value_list arg time_field_words).

(** [sort_field_arg(arg)] *)
Definition sort_field_arg (arg : string) : result string :=
  match arg_has_plus arg with
  | None => Raise IndexError
  | Some (fields, has_plus) =>
      let plus := if has_plus then "+" else "" in
      match field_list_arg fields with
      | inl e => Raise e
      | inr field_letters => Ok (plus +:+ field_letters)
      end
  end.

(** every entry of a cache of parsed strings is the value the parser
    computes for the string when nothing is cached *)
Definition coherent (parse : gmap string Z -> string -> result Z * gmap string Z)
    (known : gmap string Z) : Prop :=
  forall s v, known !! s = Some v -> fst (parse ∅ s) = Ok v.

(** the character [mode_string] shows for the permission at position [i]
    of [rwxrwxrwx]: the letter when bit [8 - i] of the mode is set *)
Definition perm_char (mode : Z) (i : nat) : ascii :=
  if Z.testbit mode (8 - Z.of_nat i)
  then List.nth i (PyStr.chars "rwxrwxrwx") "-"%char
  else "-"%char.

(** the objects [to_objects] builds: strings and plain integers, and the
    typed scalars [Uid], [Gid], [FileSize] and [Unixtime] *)
Inductive pyobj : Type :=
| ObjStr (s : string)
| ObjInt (n : Z)
| ObjUid (v : Z)
| ObjGid (v : Z)
| ObjFileSize (v : Z)
| ObjUnixtime (v : Z).

(** [self.to_objects()]: fourteen objects, the type code is not one *)
Definition to_objects (self : FileStats) : result (list pyobj) :=
  match mode_string self with
  | inl e => Raise e
  | inr mode =>
      Ok [ObjStr mode; ObjInt (inode self); ObjInt (dev self); ObjInt (Nlink self);
          ObjUid (uid self); ObjGid (gid self); ObjFileSize (size self);
          ObjUnixtime (atime self); ObjUnixtime (mtime self); ObjUnixtime (ctime self);
          ObjStr (path self); ObjStr (name self); ObjStr (filepath self);
          ObjStr (target self)]
  end.

(** [if field:]: an empty string and the number 0 are false; the typed
    scalars define neither [__nonzero__] nor [__len__] and are true *)
Definition truthy (o : pyobj) : bool :=
  match o with
  | ObjStr s => negb (String.eqb s "")
  | ObjInt n => negb (n =? 0)
  | _ => true
  end.

(** the loop of [printout]: the objects printed so far, and the
    exception that ended the loop, if one did *)
Fixpoint printout_loop (objects : list pyobj) (field_string : list ascii)
    (printed : list pyobj) : list pyobj * option exn :=
  match field_string with
  | [] => (printed, None)
  | char :: rest =>
      match index_of Ascii.eqb char field_letters with
      | None => (printed, Some (ValueError (PyStr.quoted (String char "") +:+ " is not in list")))
      | Some index =>
          match List.nth_error objects index with
          | None => (printed, Some IndexError)
          | Some field =>
              printout_loop objects rest
                (if truthy field then (printed ++ [field])%list else printed)
          end
      end
  end.

(** [self.printout(field_string)] *)
Definition printout (self : FileStats) (field_string : string) : list pyobj * option exn :=
  match to_objects self with
  | inl e => ([], Some e)
  | inr objects => printout_loop objects (PyStr.chars field_string) []
  end.

(** the object [printout] shows for a field letter, if it shows one *)
Definition shown_object (objects : list pyobj) (c : ascii) : list pyobj :=
  match index_of Ascii.eqb c field_letters with
  | Some index =>
      match List.nth_error objects index with
      | Some field => if truthy field then [field] else []
      | None => []
      end
  | None => []
  end.

(** a filter whose test cannot fail: its comparison, the field it reads
    and its native value fit together (a python expression is another
    matter: [eval] may raise what it likes) *)
Definition well_formed (f : Filter) : Prop :=
  f_comparison f = FEval \/ forall w self, exists b, holds w self f = Ok b.

(** the letter of the [-e] option that stands for a type code: the
    inverse of [FileTypeCode.from_char], with the code of a broken link
    counted as a link *)
Definition type_letter (code : Z) : option ascii :=
  if code =? FileTypeCode.broken_link then Some "l"%char
  else if code =? FileTypeCode.S_IFDIR then Some "d"%char
  else if code =? FileTypeCode.S_IFCHR then Some "c"%char
  else if code =? FileTypeCode.S_IFBLK then Some "b"%char
  else if code =? FileTypeCode.S_IFREG then Some "r"%char
  else if code =? FileTypeCode.S_IFLNK then Some "l"%char
  else if code =? FileTypeCode.S_IFIFO then Some "p"%char
  else if code =? FileTypeCode.S_IFSOCK then Some "s"%char
  else None.

(** ** Vocabulary of the display *)

(** what one turn of the display loop writes for a record *)
Definition line_events (opts : Options) (stats : FileStats) : list event :=
  OutLine stats (opt_fields opts)
  :: match opt_os_command opts with
     | Some _ => [OutExecute (filepath stats)]
     | None => []
     end.

(** the sum of the sizes of a list of records *)
Definition total_size (l : list FileStats) : Z :=
  List.fold_right Z.add 0 (List.map size l).

(** what [display_statlist] writes for the filtered and sorted records
    of a group: the directory line, the records, the total *)
Definition group_events (opts : Options) (content : list FileStats) : list event :=
  match content with
  | [] => []
  | first :: _ =>
      ((if negb (opt_quiet opts) && negb (opt_merge opts)
        then [OutDirectory (if String.eqb (path first) "" then "." else path first)]
        else [])
       ++ List.flat_map (line_events opts) content
       ++ (if negb (opt_quiet opts)
           then [OutTotal (Z.of_nat (List.length content)) (total_size content)]
           else []))%list
  end.

(** the events that are no headings and no totals *)
Definition is_plain (e : event) : bool :=
  match e with
  | OutLine _ _ | OutExecute _ | ErrLine _ => true
  | _ => false
  end.






(** the fuel is enough for the directories below [path]: the recursion
    of [stat_directory] into subdirectories ends within [fuel] levels *)
Fixpoint deep_enough (fuel : nat) (opts : Options) (w : World) (path : string) : bool :=
  match fuel with
  | O => false
  | S fuel' =>
      match listdir w path with
      | inl _ => true
      | inr files =>
          match (if opt_all opts then Ok files else visible files) with
          | inl _ => true
          | inr files =>
              negb (opt_recursive opts)
              || List.forallb (deep_enough fuel' opts w)
                   (List.filter (fun f => isdir w f && negb (islink w f))
                      (List.map (path_join w path) files))
          end
      end
  end.

(** options for the examples of the traversal: all files, recursively *)
Definition recursive_opts : Options :=
  {| opt_all := true; opt_merge := false; opt_recursive := true; opt_directory := false;
     opt_quiet := false; opt_fields := "sn"; opt_sort := "sn"; opt_os_command := None |}.

(** the options with [OPTS.quiet] set to [b] *)
Definition with_quiet (b : bool) (opts : Options) : Options :=
  {| opt_all := opt_all opts; opt_merge := opt_merge opts;
     opt_recursive := opt_recursive opts; opt_directory := opt_directory opts;
     opt_quiet := b; opt_fields := opt_fields opts; opt_sort := opt_sort opts;
     opt_os_command := opt_os_command opts |}.

(** ** The field string [main] settles on *)

(** [s.replace(old, new)] for a one character string [old] *)
Definition replace_char (old : ascii) (new : string) (s : string) : string :=
  PyStr.of_chars
    (List.flat_map (fun c => if Ascii.eqb c old then PyStr.chars new else [c]) (PyStr.chars s)).

Definition DEFAULT_FIELD_STRING (w : World) : string :=
  if os_is_windows w then "Msmn" else "MNugsmnt".

(** [x in "ac"] for a string [x]: it is one of the substrings of ["ac"] *)
Definition in_ac (x : string) : bool := mem_string x [""; "a"; "c"; "ac"].

(** [OPTS.fields] as [main] leaves it; [fields], [time] and [sort] are
    the values of [--fields], [--time] and [--sort], [None] for an option
    that was not given *)
Definition main_fields (w : World) (fields time sort : option string)
    (directory quiet merge : bool) : string :=
  let quiet := directory || quiet in
  let sort := match sort with
              | None | Some EmptyString => "n"
              | Some s => s
              end in
  match fields with
  | Some (String c rest) => String c rest
  | _ =>
      let fields := DEFAULT_FIELD_STRING w in
      let fields := if quiet || merge then replace_char "n" "f" fields else fields in
      match time with
      | Some (String c rest) => replace_char "m" (String c rest) fields
      | _ =>
          if negb (String.eqb sort "") && in_ac sort then replace_char "m" sort fields
          else fields
      end
  end.

(** ** Byte counts *)

(** [x >= y] on floats *)
Definition float_ge (x y : PyFloat.t) : bool :=
  match x, y with
  | PyFloat.NaN, _ | _, PyFloat.NaN => false
  | PyFloat.Inf nx, PyFloat.Inf ny => implb nx ny
  | PyFloat.Inf nx, PyFloat.Fin _ _ => negb nx
  | PyFloat.Fin _ _, PyFloat.Inf ny => ny
  | PyFloat.Fin m1 e1, PyFloat.Fin m2 e2 =>
      let e := Z.min e1 e2 in
      m2 * 2 ^ (e2 - e) <=? m1 * 2 ^ (e1 - e)
  end.

(** [x / y]; [None] is the [ZeroDivisionError] *)
Definition float_div (x y : PyFloat.t) : option PyFloat.t :=
  match y with
  | PyFloat.NaN => Some PyFloat.NaN
  | PyFloat.Inf _ =>
      match x with
      | PyFloat.Fin _ _ => Some (PyFloat.Fin 0 0)
      | _ => Some PyFloat.NaN
      end
  | PyFloat.Fin m2 e2 =>
      if m2 =? 0 then None
      else
        match x with
        | PyFloat.NaN => Some PyFloat.NaN
        | PyFloat.Inf nx => Some (PyFloat.Inf (xorb nx (m2 <? 0)))
        | PyFloat.Fin m1 e1 =>
            let neg := xorb (m1 <? 0) (m2 <? 0) in
            let e := e1 - e2 in
            Some (if 0 <=? e
                  then PyFloat.round_ratio neg (Z.abs m1 * 2 ^ e) (Z.abs m2)
                  else PyFloat.round_ratio neg (Z.abs m1) (Z.abs m2 * 2 ^ (- e)))
        end
  end.

(** the integer nearest to [num / den], the even one of two that are
    equally near *)
Definition round_half_even (num den : Z) : Z :=
  let q := num / den in
  let r := num mod den in
  if (den <? 2 * r) || ((2 * r =? den) && Z.odd q) then q + 1 else q.

(** ["%02d"] for a number from 0 to 99 *)
Definition two_digits (d : Z) : string :=
  String (ascii_of_N (Z.to_N (48 + d / 10))) (String (ascii_of_N (Z.to_N (48 + d mod 10))) "").

(** the decimal number of [h] hundredths, with two places *)
Definition two_places (h : Z) : string :=
  py_str (h / 100) +:+ "." +:+ two_digits (h mod 100).

(** ["%.2f" % x]: the decimal number with two places that is nearest to
    the value of the float *)
Definition format_2f (x : PyFloat.t) : string :=
  match x with
  | PyFloat.NaN => "nan"
  | PyFloat.Inf neg => if neg then "-inf" else "inf"
  | PyFloat.Fin m e =>
      let a := Z.abs m in
      let hundredths :=
        if 0 <=? e then a * 2 ^ e * 100 else round_half_even (a * 100) (2 ^ (- e)) in
      (if m <? 0 then "-" else "") +:+ two_places hundredths
  end.

Definition units : list string := ["Kbytes"; "Mbytes"; "Gbytes"; "Tbytes"; "Pbytes"].

(** what [bytecount_to_string] can raise *)
Inductive bytecount_error : Type :=
| LongIntTooLarge     (* the OverflowError of [float(nbytes)] *)
| ZeroDivision
| UnitOutOfRange.     (* the IndexError of [units[unit_idx]] *)

(** the [while] loop of [bytecount_to_string]; [remaining] are the units
    after [units[unit_idx]], so that [(unit_idx + 1) < len(units)] holds
    as long as some remain *)
Fixpoint bytecount_loop (remaining : list string) (fbytes : PyFloat.t) (unit_idx : Z)
    : bytecount_error + PyFloat.t * Z :=
  match remaining with
  | [] => inr (fbytes, unit_idx)
  | _ :: remaining' =>
      if float_ge fbytes (PyFloat.of_Z 1024) then
        match float_div fbytes (PyFloat.of_Z 1024) with
        | None => inl ZeroDivision
        | Some fbytes' => bytecount_loop remaining' fbytes' (unit_idx + 1)
        end
      else inr (fbytes, unit_idx)
  end.

(** [bytecount_to_string(nbytes)] *)
Definition bytecount_to_string (nbytes : Z) : bytecount_error + string :=
  if nbytes <? 1024 then inr (py_str nbytes +:+ " bytes")
  else
    match PyFloat.of_Z nbytes with
    | PyFloat.Inf _ => inl LongIntTooLarge
    | fbytes =>
        match bytecount_loop units fbytes (-1) with
        | inl e => inl e
        | inr (fbytes, unit_idx) =>
            match py_nth units unit_idx with
            | None => inl UnitOutOfRange
            | Some unit =>
                inr (py_str nbytes +:+ " bytes (" +:+ format_2f fbytes +:+ " " +:+ unit +:+ ")")
            end
        end
    end.

(* ===================================================================== *)
(** * Properties *)
(* ===================================================================== *)

(** ** Floats *)

Section FloatFacts.

Import PyFloat.

Lemma bits_double (a : Z) : 0 < a -> bits (2 * a) = bits a + 1.
Proof. intros H. unfold bits. rewrite Z.log2_double by lia. lia. Qed.

Lemma bits_le_iff (a n : Z) : 0 < a -> 0 <= n -> (bits a <= n <-> a < 2 ^ n).
Proof.
  intros Ha Hn. unfold bits. split; intros H.
  - apply Z.log2_lt_pow2; lia.
  - apply Z.log2_lt_pow2 in H; lia.
Qed.

Lemma norm_pos_spec (p : positive) (e : Z) :
  forall q e', norm_pos p e = (q, e') ->
    Z.pos q * 2 ^ (e' - e) = Z.pos p /\ e <= e' /\ Z.odd (Z.pos q) = true /\
    bits (Z.pos q) + e' = bits (Z.pos p) + e.
Proof.
  revert e. induction p as [p IH | p IH |]; intros e q e' H; simpl in H.
  - inversion H; subst. rewrite Z.sub_diag. simpl. repeat split; lia.
  - apply IH in H. destruct H as (Hv & Hle & Hodd & Hb).
    repeat split; try lia; try assumption.
    + replace (e' - e) with (Z.succ (e' - (e + 1))) by lia.
      rewrite Z.pow_succ_r by lia. lia.
    + change (Z.pos p~0) with (2 * Z.pos p). rewrite bits_double by lia. lia.
  - inversion H; subst. rewrite Z.sub_diag. simpl. repeat split; lia.
Qed.

Lemma norm_odd (m e : Z) : Z.odd m = true -> norm m e = Fin m e.
Proof. destruct m as [| [p | p |] | [p | p |]]; simpl; intros H; try discriminate; reflexivity. Qed.

Lemma norm_double (m e : Z) : norm (2 * m) e = norm m (e + 1).
Proof. destruct m; reflexivity. Qed.

Lemma norm_shift (m e k : Z) : 0 <= k -> norm (m * 2 ^ k) e = norm m (e + k).
Proof.
  intros Hk. revert e. pattern k. apply natlike_ind; [| | exact Hk].
  - intros e. rewrite Z.pow_0_r, Z.mul_1_r, Z.add_0_r. reflexivity.
  - intros x Hx IH e. rewrite Z.pow_succ_r by lia.
    replace (m * (2 * 2 ^ x)) with (2 * (m * 2 ^ x)) by lia.
    rewrite norm_double, IH. f_equal. lia.
Qed.


Lemma trunc_shift (m e k : Z) : 0 <= k -> trunc (m * 2 ^ k) e = trunc m (e + k).
Proof.
  intros Hk. unfold trunc.
  destruct (Z.leb_spec 0 e) as [He | He].
  - destruct (Z.leb_spec 0 (e + k)); [| lia].
    rewrite Z.pow_add_r by lia. ring.
  - destruct (Z.leb_spec 0 (e + k)) as [Hek | Hek].
    + replace k with ((e + k) + (- e)) at 1 by lia.
      rewrite Z.pow_add_r by lia. rewrite Z.mul_assoc.
      apply Z.quot_mul. apply Z.pow_nonzero; lia.
    + replace (- e) with ((- (e + k)) + k) by lia.
      rewrite Z.pow_add_r by lia.
      apply Z.quot_mul_cancel_r; apply Z.pow_nonzero; lia.
Qed.

Lemma trunc_zero (e : Z) : trunc 0 e = 0.
Proof.
  unfold trunc. destruct (Z.leb_spec 0 e); [lia |].
  apply Z.quot_0_l, Z.pow_nonzero; lia.
Qed.

(** normalising a float does not change its integer part *)
Lemma to_int_norm (m e : Z) : to_int (norm m e) = Ok (trunc m e).
Proof.
  destruct m as [| p | p]; cbn [norm to_int].
  - rewrite !trunc_zero. reflexivity.
  - destruct (norm_pos p e) as [q e'] eqn:H. apply norm_pos_spec in H.
    destruct H as (Hv & Hle & _ & _). cbn [to_int]. f_equal.
    rewrite <- Hv, trunc_shift by lia. f_equal. lia.
  - destruct (norm_pos p e) as [q e'] eqn:H. apply norm_pos_spec in H.
    destruct H as (Hv & Hle & _ & _). cbn [to_int]. f_equal.
    change (Z.neg p) with (- Z.pos p). rewrite <- Hv.
    replace (- (Z.pos q * 2 ^ (e' - e))) with (Z.neg q * 2 ^ (e' - e)) by lia.
    rewrite trunc_shift by lia. f_equal. lia.
Qed.

Lemma signed_abs (m : Z) : (if m <? 0 then - Z.abs m else Z.abs m) = m.
Proof. destruct (Z.ltb_spec m 0); lia. Qed.

(** a value that fits the format is not changed by rounding *)
Lemma round_exact (m e : Z) :
  bits (Z.abs m) <= prec -> emin <= e -> bits (Z.abs m) + e <= emax ->
  round m e = norm m e.
Proof.
  intros Hb He Ho. unfold round.
  destruct (Z.eqb_spec (Z.abs m) 0) as [H0 | H0].
  - assert (m = 0) by lia. subst. reflexivity.
  - destruct (Z.leb_spec (Z.max (bits (Z.abs m) - prec) (emin - e)) 0); [| lia].
    unfold finish. destruct (Z.eqb_spec (Z.abs m) 0); [lia |].
    destruct (Z.ltb_spec emax (bits (Z.abs m) + e)); [lia |].
    rewrite signed_abs. reflexivity.
Qed.

Lemma wf_norm (m e : Z) :
  Z.abs m <= 2 ^ prec -> emin <= e -> bits (Z.abs m) + e <= emax -> wf (norm m e).
Proof.
  intros Hm He Ho.
  assert (Hgen : forall p, Z.pos p <= 2 ^ prec -> bits (Z.pos p) + e <= emax ->
             forall q e', norm_pos p e = (q, e') ->
             Z.odd (Z.pos q) = true /\ bits (Z.pos q) <= prec /\ emin <= e' /\
             bits (Z.pos q) + e' <= emax).
  { intros p Hp Hpo q e' H. apply norm_pos_spec in H.
    destruct H as (Hv & Hle & Hodd & Hb). repeat split; try lia; try assumption.
    apply bits_le_iff; [lia | unfold prec; lia |].
    assert (Z.pos q <= Z.pos p).
    { rewrite <- Hv. assert (1 <= 2 ^ (e' - e)) by (apply Z.pow_le_mono_r with (b := 0); lia). nia. }
    assert (Z.pos q <> 2 ^ prec).
    { intros Heq. rewrite Heq in Hodd. unfold prec in Hodd. vm_compute in Hodd. discriminate. }
    lia. }
  destruct m as [| p | p]; simpl.
  - left; split; reflexivity.
  - destruct (norm_pos p e) as [q e'] eqn:H.
    right. apply (Hgen p); try assumption; lia.
  - destruct (norm_pos p e) as [q e'] eqn:H.
    right. change (Z.abs (Z.neg q)) with (Z.pos q).
    destruct (Hgen p) with (q := q) (e' := e') as (Hodd & ?); try assumption; try lia.
    split; [| assumption]. exact Hodd.
Qed.

Lemma wf_finish (neg : bool) (a e : Z) :
  0 <= a <= 2 ^ prec -> emin <= e -> wf (finish neg a e).
Proof.
  intros Ha He. unfold finish.
  destruct (Z.eqb_spec a 0); [left; split; reflexivity |].
  destruct (Z.ltb_spec emax (bits a + e)); [exact I |].
  apply wf_norm; destruct neg; try lia; rewrite ?Z.abs_opp, Z.abs_eq; lia.
Qed.

(** rounding always yields a number of the format *)
Lemma wf_round (m e : Z) : wf (round m e).
Proof.
  unfold round.
  destruct (Z.eqb_spec (Z.abs m) 0); [left; split; reflexivity |].
  set (a := Z.abs m) in *. assert (Ha : 0 < a) by (unfold a; lia).
  set (sh := Z.max (bits a - prec) (emin - e)).
  destruct (Z.leb_spec sh 0) as [Hsh | Hsh].
  - apply wf_finish; [| lia]. split; [lia |].
    assert (a < 2 ^ prec); [| lia].
    apply bits_le_iff; unfold prec in *; lia.
  - assert (Hq : Z.shiftr a sh < 2 ^ prec).
    { rewrite Z.shiftr_div_pow2 by lia.
      apply Z.div_lt_upper_bound; [apply Z.pow_pos_nonneg; lia |].
      rewrite <- Z.pow_add_r by (unfold prec; lia).
      assert (Hb : a < 2 ^ (bits a)) by (apply bits_le_iff; unfold bits; try lia; pose proof (Z.log2_nonneg a); lia).
      eapply Z.lt_le_trans; [exact Hb |].
      apply Z.pow_le_mono_r; lia. }
    assert (0 <= Z.shiftr a sh) by (apply Z.shiftr_nonneg; lia).
    apply wf_finish; [| lia].
    destruct (_ || _); lia.
Qed.


Lemma wf_of_string (s : string) (x : t) : of_string s = Some x -> wf x.
Proof.
  unfold of_string, of_chars.
  destruct (sign (PyStr.strip (PyStr.chars s))) as [neg l].
  destruct (_ || _); [intros [= <-]; exact I |].
  destruct (String.eqb _ "nan"); [intros [= <-]; exact I |].
  destruct (digits l 0 0) as [[ip ni] l1].
  destruct (match l1 with "."%char :: r => digits r ip 0 | _ => (ip, 0, l1) end)
    as [[fp nf] l2].
  destruct (ni + nf =? 0); [discriminate |].
  destruct (exponent l2) as [x' |]; [| discriminate].
  intros [= <-]. unfold of_decimal, round_ratio.
  destruct (0 <=? x' - nf); [apply wf_round |].
  destruct (fp =? 0); [left; split; reflexivity | apply wf_round].
Qed.

(** multiplying a non-zero float by [2^k] moves its exponent *)
Lemma mul_pow2 (m e k : Z) :
  Z.odd m = true -> bits (Z.abs m) <= prec -> emin <= e -> 0 <= k ->
  bits (Z.abs m) + e + k <= emax ->
  mul (Fin m e) (Fin 1 k) = Fin m (e + k).
Proof.
  intros Hodd Hb He Hk Ho. cbn [mul]. rewrite Z.mul_1_r.
  rewrite round_exact by lia. apply norm_odd, Hodd.
Qed.

End FloatFacts.

(** ** C1: parsing sizes *)

Lemma mem_bkmg (c : ascii) : PyStr.mem c "bkmg" = match unit_factor c with Some _ => true | None => false end.
Proof.
  unfold PyStr.mem, unit_factor. cbn [PyStr.chars list_ascii_of_string List.existsb].
  destruct (Ascii.eqb c "b"), (Ascii.eqb c "k"), (Ascii.eqb c "m"), (Ascii.eqb c "g"); reflexivity.
Qed.

Lemma scale_size (c : ascii) (f m e : Z) :
  unit_factor c = Some f -> PyFloat.wf (PyFloat.Fin m e) ->
  PyFloat.bits (Z.abs m) + e + Z.log2 f <= PyFloat.emax ->
  PyFloat.to_int (FileSize.scale c (PyFloat.Fin m e)) = Ok (PyFloat.trunc (m * f) e).
Proof.
  intros Hf Hwf Ho. unfold FileSize.scale, unit_factor in *.
  change (PyFloat.of_Z 1024) with (PyFloat.Fin 1 10).
  change (PyFloat.of_Z 512) with (PyFloat.Fin 1 9).
  destruct Hwf as [[-> ->] | (Hodd & Hb & He & Hmax)].
  - destruct (Ascii.eqb c "b"); [injection Hf as <-; reflexivity |].
    destruct (Ascii.eqb c "k"); [injection Hf as <-; reflexivity |].
    destruct (Ascii.eqb c "m"); [injection Hf as <-; reflexivity |].
    destruct (Ascii.eqb c "g"); [injection Hf as <-; reflexivity | discriminate].
  - unfold PyFloat.emin, PyFloat.prec, PyFloat.emax in *.
    destruct (Ascii.eqb c "b").
    { injection Hf as <-. change (Z.log2 512) with 9 in Ho.
      rewrite mul_pow2 by (unfold PyFloat.emin, PyFloat.prec, PyFloat.emax; lia || assumption).
      cbn [PyFloat.to_int]. rewrite <- trunc_shift by lia. reflexivity. }
    destruct (Ascii.eqb c "k").
    { injection Hf as <-. change (Z.log2 1024) with 10 in Ho.
      rewrite mul_pow2 by (unfold PyFloat.emin, PyFloat.prec, PyFloat.emax; lia || assumption).
      cbn [PyFloat.to_int]. rewrite <- trunc_shift by lia. reflexivity. }
    destruct (Ascii.eqb c "m").
    { injection Hf as <-. change (Z.log2 (1024 * 1024)) with 20 in Ho.
      rewrite !mul_pow2 by (unfold PyFloat.emin, PyFloat.prec, PyFloat.emax; lia || assumption).
      cbn [PyFloat.to_int]. replace (e + 10 + 10) with (e + 20) by lia.
      rewrite <- trunc_shift by lia. reflexivity. }
    destruct (Ascii.eqb c "g"); [| discriminate].
    injection Hf as <-. change (Z.log2 (1024 * 1024 * 1024)) with 30 in Ho.
    rewrite !mul_pow2 by (unfold PyFloat.emin, PyFloat.prec, PyFloat.emax; lia || assumption).
    cbn [PyFloat.to_int]. replace (e + 10 + 10 + 10) with (e + 30) by lia.
    rewrite <- trunc_shift by lia. reflexivity.
Qed.

(** C1 as stated does not hold: the suffix of a size is compared with the
    lower case letters [bkmg] only, so ["10K"] is not read as 10 kilobytes
    but rejected, while ["10k"] is 10240. *)
Lemma from_string_upper_case_suffix :
  fst (FileSize.from_string ∅ "10k") = Ok 10240 /\
  fst (FileSize.from_string ∅ "10K") = Raise (ValueError "'10K' is not a valid FILESIZE string") /\
  fst (FileSize.from_string ∅ "10K") <> Ok 10240.
Proof. repeat split; try reflexivity. vm_compute. discriminate. Qed.

(** C1 (amended): for a string that is not in the cache, with last
    character [c]:
    - if [c] is one of the lower case letters b, k, m, g and the text
      before it is the float [m * 2^e], the result is [m * 2^e] times 512,
      1024, 1024^2 or 1024^3, cut to its integer part (as long as the
      product stays below [2^1024]);
    - if [c] is no such letter and the whole string is the float
      [m * 2^e], the result is its integer part: raw bytes;
    - if [c] is no such letter and the whole string is not a float, as
      for an upper case suffix, the call raises the [ValueError] that
      names the string;
    and the result is stored in the cache.  ["10k"] is 10240, ["10.5k"] is
    10752, ["10KB"] and ["10K"] are rejected. *)
Theorem from_string_units (known : gmap string Z) (size_str : string) (c : ascii) (m e : Z)
    (Hmiss : known !! size_str = None)
    (Hlast : PyStr.last_char size_str = Some c) :
  (forall f, unit_factor c = Some f ->
     PyFloat.of_string (PyStr.drop_last size_str) = Some (PyFloat.Fin m e) ->
     PyFloat.bits (Z.abs m) + e + Z.log2 f <= PyFloat.emax ->
     FileSize.from_string known size_str
     = (Ok (PyFloat.trunc (m * f) e), <[size_str := PyFloat.trunc (m * f) e]> known)) /\
  (unit_factor c = None ->
     PyFloat.of_string size_str = Some (PyFloat.Fin m e) ->
     FileSize.from_string known size_str
     = (Ok (PyFloat.trunc m e), <[size_str := PyFloat.trunc m e]> known)) /\
  (unit_factor c = None ->
     PyFloat.of_string size_str = None ->
     FileSize.from_string known size_str
     = (Raise (FileSize.bad_size size_str), known)) /\
  fst (FileSize.from_string ∅ "10k") = Ok 10240 /\
  fst (FileSize.from_string ∅ "10.5k") = Ok 10752 /\
  fst (FileSize.from_string ∅ "10KB") = Raise (ValueError "'10KB' is not a valid FILESIZE string") /\
  fst (FileSize.from_string ∅ "10K") = Raise (ValueError "'10K' is not a valid FILESIZE string").
Proof.
  repeat split; try reflexivity.
  - intros f Hf Hparse Ho. unfold FileSize.from_string.
    rewrite Hmiss, Hlast, mem_bkmg, Hf. cbn [negb]. rewrite Hparse.
    rewrite (scale_size c f m e Hf (wf_of_string _ _ Hparse) Ho). reflexivity.
  - intros Hf Hparse. unfold FileSize.from_string.
    rewrite Hmiss, Hlast, mem_bkmg, Hf. cbn [negb]. rewrite Hparse. reflexivity.
  - intros Hf Hparse. unfold FileSize.from_string.
    rewrite Hmiss, Hlast, mem_bkmg, Hf. cbn [negb]. rewrite Hparse. reflexivity.
Qed.

Lemma from_string_units_witness :
  (∅ : gmap string Z) !! "10.5k" = None /\
  PyStr.last_char "10.5k" = Some "k"%char /\
  PyFloat.of_string "10.5" = Some (PyFloat.Fin 21 (-1)) /\
  FileSize.from_string ∅ "10.5k" = (Ok 10752, <["10.5k" := 10752]> ∅).
Proof.
  split; [reflexivity |]. split; [reflexivity |]. split; [reflexivity |].
  destruct (from_string_units ∅ "10.5k" "k" 21 (-1) (lookup_empty _) eq_refl) as (H & _).
  apply (H 1024); [reflexivity | reflexivity |].
  vm_compute. intros H0. discriminate H0.
Defined.

(** ** C2: parsing times *)

Section IntegerFloats.

Import PyFloat.

Lemma bits_abs_le (a : Z) : Z.abs a < 2 ^ prec -> bits (Z.abs a) <= prec.
Proof.
  intros H. destruct (Z.eq_dec a 0) as [-> | Ha]; [vm_compute; discriminate |].
  apply bits_le_iff; unfold prec in *; lia.
Qed.

(** the canonical form of an integer *)
Lemma norm_int (n : Z) :
  exists m k, norm n 0 = Fin m k /\ 0 <= k /\ n = m * 2 ^ k.
Proof.
  destruct n as [| p | p]; cbn [norm].
  - exists 0, 0. repeat split; lia.
  - destruct (norm_pos p 0) as [q e'] eqn:H. apply norm_pos_spec in H.
    destruct H as (Hv & Hle & _). exists (Z.pos q), e'.
    rewrite Z.sub_0_r in Hv. repeat split; lia.
  - destruct (norm_pos p 0) as [q e'] eqn:H. apply norm_pos_spec in H.
    destruct H as (Hv & Hle & _). exists (Z.neg q), e'.
    rewrite Z.sub_0_r in Hv. repeat split; lia.
Qed.

Lemma of_Z_exact (n : Z) : Z.abs n < 2 ^ prec -> of_Z n = norm n 0.
Proof.
  intros H. unfold of_Z. apply round_exact.
  - apply bits_abs_le, H.
  - unfold emin. lia.
  - pose proof (bits_abs_le n H). unfold prec, emax in *. lia.
Qed.

Lemma pow2_ge_1 (k : Z) : 0 <= k -> 1 <= 2 ^ k.
Proof. intros H. apply Z.pow_le_mono_r with (a := 2) (b := 0) (c := k); lia. Qed.

(** the canonical form of a non-zero value *)
Lemma norm_fin (M e : Z) :
  M <> 0 -> exists m k, norm M e = Fin m (e + k) /\ 0 <= k /\ M = m * 2 ^ k /\ m <> 0.
Proof.
  intros HM. destruct M as [| p | p]; [congruence | |]; cbn [norm];
    destruct (norm_pos p e) as [q e'] eqn:H; apply norm_pos_spec in H;
    destruct H as (Hv & Hle & _).
  - exists (Z.pos q), (e' - e). replace (e + (e' - e)) with e' by lia.
    repeat split; lia.
  - exists (Z.neg q), (e' - e). replace (e + (e' - e)) with e' by lia.
    repeat split; lia.
Qed.

Lemma bits_shift (a k : Z) : 0 < a -> 0 <= k -> bits (a * 2 ^ k) = bits a + k.
Proof. intros Ha Hk. unfold bits. rewrite Z.log2_mul_pow2 by lia. lia. Qed.

Lemma bits_mono (a b : Z) : a <= b -> bits a <= bits b.
Proof. intros H. unfold bits. pose proof (Z.log2_le_mono a b H). lia. Qed.

(** a product that fits the format is not rounded *)
Lemma mul_exact (M e b : Z) :
  Z.abs (M * b) < 2 ^ prec -> emin <= e -> bits (Z.abs (M * b)) + e <= emax ->
  mul (norm M e) (norm b 0) = norm (M * b) e.
Proof.
  intros Hlt He Ho.
  destruct (Z.eq_dec M 0) as [-> | HM].
  { destruct (norm_int b) as (mb & kb & -> & _). reflexivity. }
  destruct (Z.eq_dec b 0) as [-> | Hb].
  { destruct (norm_fin M e HM) as (m & k & -> & _).
    cbn [norm mul]. rewrite !Z.mul_0_r. reflexivity. }
  destruct (norm_fin M e HM) as (m & k & -> & Hk & HvM & Hm).
  destruct (norm_fin b 0 Hb) as (mb & kb & -> & Hkb & Hvb & Hmb).
  cbn [mul].
  assert (Hv : M * b = m * mb * 2 ^ (k + kb)).
  { rewrite Z.pow_add_r by lia. rewrite HvM, Hvb. ring. }
  pose proof (pow2_ge_1 (k + kb) ltac:(lia)) as Hp.
  assert (Hnz : 0 < Z.abs (m * mb)) by (apply Z.abs_pos; nia).
  assert (Habs : Z.abs (M * b) = Z.abs (m * mb) * 2 ^ (k + kb)).
  { rewrite Hv, Z.abs_mul, (Z.abs_eq (2 ^ _)) by lia. reflexivity. }
  rewrite Habs in Hlt, Ho. rewrite bits_shift in Ho by lia.
  rewrite round_exact.
  - rewrite Hv, norm_shift by lia. f_equal. lia.
  - apply bits_abs_le. nia.
  - lia.
  - lia.
Qed.

(** an integer that is not above the clock is subtracted from it without
    rounding *)
Lemma sub_int_exact (m e c : Z) :
  wf (Fin m e) -> 0 <= m -> 0 <= c <= trunc m e -> trunc m e < 2 ^ prec ->
  to_int (sub (Fin m e) (norm c 0)) = Ok (trunc m e - c).
Proof.
  intros Hwf Hm Hc Hnow.
  destruct (norm_int c) as (mc & kc & Hn & Hkc & Hvc). rewrite Hn. cbn [sub].
  pose proof (pow2_ge_1 kc Hkc) as Hpk.
  assert (Hmc : 0 <= mc) by nia.
  assert (Hkc53 : mc = 0 \/ kc < prec).
  { destruct (Z.eq_dec mc 0); [left; assumption | right].
    apply (Z.pow_lt_mono_r_iff 2); [lia | unfold prec; lia |]. nia. }
  assert (Hmb : bits (Z.abs m) <= prec /\ emin <= e /\ bits (Z.abs m) + e <= emax).
  { destruct Hwf as [[-> ->] | (_ & ? & ? & ?)]; [| auto].
    vm_compute. repeat split; discriminate. }
  destruct Hmb as (Hb & He & Ho).
  set (e' := Z.min e kc).
  set (M := m * 2 ^ (e - e') - mc * 2 ^ (kc - e')).
  assert (Hgoal : 0 <= M /\ (M <= m \/ (0 <= e' /\ M * 2 ^ e' < 2 ^ prec)) /\
                  trunc M e' = trunc m e - c).
  { unfold trunc in *. destruct (Z.leb_spec 0 e) as [He0 | He0].
    - (* the clock is an integer *)
      assert (He' : 0 <= e') by (unfold e'; lia).
      destruct (Z.leb_spec 0 e'); [| lia].
      assert (HM : M * 2 ^ e' = m * 2 ^ e - c).
      { unfold M. rewrite Z.mul_sub_distr_r, <- !Z.mul_assoc, <- !Z.pow_add_r by (unfold e'; lia).
        replace (e - e' + e') with e by lia. replace (kc - e' + e') with kc by lia. lia. }
      pose proof (pow2_ge_1 e' He') as Hpe.
      repeat split; [nia | right; split; [lia | lia] | lia].
    - (* the clock has a fraction *)
      assert (He' : e' = e) by (unfold e'; lia).
      destruct (Z.leb_spec 0 e'); [lia |].
      set (d := 2 ^ (- e)) in *.
      assert (Hd : 0 < d) by (apply Z.pow_pos_nonneg; lia).
      rewrite Z.quot_div_nonneg in Hc, Hnow by lia.
      assert (HM : M = m - c * d).
      { unfold M, d. rewrite He', Z.sub_diag, Z.pow_0_r, Hvc.
        replace (kc - e) with (kc + - e) by lia. rewrite Z.pow_add_r by lia. ring. }
      assert (Hcd : c * d <= m).
      { pose proof (Z.mul_div_le m d Hd). nia. }
      rewrite He'. fold d.
      repeat split; [lia | left; nia |].
      rewrite !Z.quot_div_nonneg by lia. rewrite HM.
      replace (m - c * d) with (m + (- c) * d) by ring.
      rewrite Z.div_add by lia. lia. }
  destruct Hgoal as (HM0 & HMb & Htr).
  assert (HbM : bits (Z.abs M) <= prec /\ bits (Z.abs M) + e' <= emax /\ emin <= e').
  { rewrite (Z.abs_eq M) by lia. rewrite (Z.abs_eq m) in Hb, Ho by lia.
    assert (Hlt : M < 2 ^ prec).
    { destruct HMb as [Hle | [He' Hlt]].
      - destruct (Z.eq_dec m 0) as [-> | Hm0]; [unfold prec; lia |].
        apply bits_le_iff in Hb; unfold prec in *; lia.
      - pose proof (pow2_ge_1 e' He'). nia. }
    assert (HbM : bits M <= prec).
    { rewrite <- (Z.abs_eq M) by lia. apply bits_abs_le. rewrite Z.abs_eq by lia. exact Hlt. }
    split; [exact HbM |]. split; [| unfold e', emin in *; lia].
    destruct HMb as [Hle | [He' _]].
    - assert (bits M <= bits m).
      { unfold bits. pose proof (Z.log2_le_mono M m Hle). lia. }
      unfold e'. lia.
    - destruct Hkc53 as [-> | Hk].
      + rewrite Z.mul_0_l in Hvc. subst c.
        assert (Hk0 : kc = 0) by (cbn [norm] in Hn; congruence).
        unfold e', prec, emax in *. lia.
      + unfold e', prec, emax in *. lia. }
  destruct HbM as (H1 & H2 & H3).
  fold e'. fold M. rewrite round_exact by assumption.
  rewrite to_int_norm, Htr. reflexivity.
Qed.

End IntegerFloats.

Lemma mem_mhdwy (c : ascii) :
  PyStr.mem c "mhdwy" = match unit_seconds c with Some _ => true | None => false end.
Proof.
  unfold PyStr.mem, unit_seconds. cbn [PyStr.chars list_ascii_of_string List.existsb].
  destruct (Ascii.eqb c "m"), (Ascii.eqb c "h"), (Ascii.eqb c "d"), (Ascii.eqb c "w"),
    (Ascii.eqb c "y"); reflexivity.
Qed.

Lemma unit_seconds_ge (c : ascii) (u : Z) : unit_seconds c = Some u -> 60 <= u.
Proof.
  unfold unit_seconds.
  destruct (Ascii.eqb c "m"), (Ascii.eqb c "h"), (Ascii.eqb c "d"), (Ascii.eqb c "w"),
    (Ascii.eqb c "y"); intros [= <-]; lia.
Qed.

(** a number of units is turned into seconds without rounding, when
    the products fit the format *)
Lemma scale_time (c : ascii) (u M e : Z) :
  unit_seconds c = Some u -> 0 <= M -> M * u < 2 ^ PyFloat.prec -> PyFloat.emin <= e ->
  PyFloat.bits (M * u) + e <= PyFloat.emax ->
  Unixtime.scale c (PyFloat.norm M e) = PyFloat.norm (M * u) e.
Proof.
  intros Hu HM Hb He Ho. unfold Unixtime.scale, unit_seconds in *.
  change (PyFloat.of_Z 60) with (PyFloat.norm 60 0).
  change (PyFloat.of_Z 24) with (PyFloat.norm 24 0).
  change (PyFloat.of_Z 7) with (PyFloat.norm 7 0).
  change (PyFloat.of_Z 365) with (PyFloat.norm 365 0).
  assert (Hstep : forall x y, 0 <= x -> x * y <= M * u -> 0 <= y ->
            PyFloat.mul (PyFloat.norm x e) (PyFloat.norm y 0) = PyFloat.norm (x * y) e).
  { intros x y Hx Hxy Hy. apply mul_exact; rewrite ?Z.abs_eq by nia; try lia.
    pose proof (bits_mono (x * y) (M * u) Hxy). lia. }
  destruct (Ascii.eqb c "m");
    [| destruct (Ascii.eqb c "h");
       [| destruct (Ascii.eqb c "d");
          [| destruct (Ascii.eqb c "w"); [| destruct (Ascii.eqb c "y"); [| discriminate]]]]];
    injection Hu as <-;
    rewrite !Hstep by lia;
    f_equal; ring.
Qed.

(** [reltime_to_secs] on the number [m * 2^e] of units of [u] seconds *)
Lemma reltime_exact (time_str : string) (c : ascii) (u m e : Z) :
  PyStr.last_char time_str = Some c -> 0 <= m -> m * u < 2 ^ PyFloat.prec ->
  PyFloat.bits (m * u) + e <= PyFloat.emax ->
  (unit_seconds (PyStr.lower c) = Some u /\
   PyFloat.of_string (PyStr.drop_last time_str) = Some (PyFloat.Fin m e)) \/
  (unit_seconds (PyStr.lower c) = None /\ u = 60 * 60 * 24 /\
   PyFloat.of_string time_str = Some (PyFloat.Fin m e)) ->
  Unixtime.reltime_to_secs time_str = Ok (PyFloat.trunc (m * u) e).
Proof.
  intros Hlast Hm Hb Ho Hcase. unfold Unixtime.reltime_to_secs.
  rewrite Hlast, mem_mhdwy.
  assert (Hfin : forall s, PyFloat.of_string s = Some (PyFloat.Fin m e) ->
            PyFloat.Fin m e = PyFloat.norm m e /\ PyFloat.emin <= e).
  { intros s Hs. apply wf_of_string in Hs.
    destruct Hs as [[-> ->] | (Hodd & _ & He & _)].
    - split; [reflexivity | unfold PyFloat.emin; lia].
    - split; [symmetry; apply norm_odd, Hodd | exact He]. }
  destruct Hcase as [(Hu & Hp) | (Hu & -> & Hp)]; rewrite Hu; cbn [negb]; rewrite Hp;
    destruct (Hfin _ Hp) as (-> & He).
  - rewrite (scale_time _ u m e Hu Hm Hb He Ho). apply to_int_norm.
  - rewrite (scale_time "d" _ m e eq_refl Hm Hb He Ho). apply to_int_norm.
Qed.

(** C2 as stated does not hold for every call: the second call with
    ["2w"] returns what the first call stored, although the clock has
    moved on by 100 seconds. *)
Lemma str_to_secs_second_call_is_not_now :
  let first := Unixtime.str_to_secs Posix.world (PyFloat.of_Z 1000000000) ∅ "2w" in
  let second := Unixtime.str_to_secs Posix.world (PyFloat.of_Z 1000000100) (snd first) "2w" in
  fst first = Ok (1000000000 - 14 * 86400) /\
  fst second = Ok (1000000000 - 14 * 86400) /\
  fst second <> Ok (1000000100 - 14 * 86400).
Proof. repeat split; try reflexivity. vm_compute. discriminate. Qed.

(** C2 (amended): a call of [str_to_secs] for a string that is not in
    the cache, made when the clock shows [now = m * 2^e] (a time from 1970
    on, below [2^53] seconds), with [c] the last character of the string:
    - a number [x] followed by one of the letters m, h, d, w, y (in
      either case) gives the integer part of [now] less the integer part
      of [x] times 60, 3600, 86400, 604800 or 31536000 (365 days), when
      that product has no more than 53 significant bits;
    - a number [x] without such a letter gives the same with 86400, the
      seconds of a day;
    - a string that [reltime_to_secs] rejects with a [ValueError] is
      handed to [time.strptime] with the format ["%b %d %Y"] if it has
      three words and ["%b %d %Y %H:%M"] otherwise, and the result is the
      integer part of what [time.mktime] makes of it;
    - if [time.strptime] rejects it too, the call raises the [ValueError]
      that names the string and stores nothing;
    in particular ["2w"] gives [now - 14 * 86400] in whole seconds and
    ["2days"] is rejected.  Every result is stored in the cache (and is
    what later calls return). *)
Theorem str_to_secs_first_call (w : World) (known : gmap string Z) (time_str : string)
    (c : ascii) (m e : Z)
    (Hmiss : known !! time_str = None)
    (Hlast : PyStr.last_char time_str = Some c)
    (Hclock : PyFloat.wf (PyFloat.Fin m e))
    (Hepoch : 0 <= m)
    (Hrange : PyFloat.trunc m e < 2 ^ 53) :
  let now := PyFloat.Fin m e in
  let secs := PyFloat.trunc m e in
  (forall u mx ex,
     unit_seconds (PyStr.lower c) = Some u ->
     PyFloat.of_string (PyStr.drop_last time_str) = Some (PyFloat.Fin mx ex) ->
     0 <= mx -> mx * u < 2 ^ 53 -> PyFloat.trunc (mx * u) ex <= secs ->
     Unixtime.str_to_secs w now known time_str
     = (Ok (secs - PyFloat.trunc (mx * u) ex),
        <[time_str := secs - PyFloat.trunc (mx * u) ex]> known)) /\
  (forall mx ex,
     unit_seconds (PyStr.lower c) = None ->
     PyFloat.of_string time_str = Some (PyFloat.Fin mx ex) ->
     0 <= mx -> mx * 86400 < 2 ^ 53 -> PyFloat.trunc (mx * 86400) ex <= secs ->
     Unixtime.str_to_secs w now known time_str
     = (Ok (secs - PyFloat.trunc (mx * 86400) ex),
        <[time_str := secs - PyFloat.trunc (mx * 86400) ex]> known)) /\
  (forall msg t x v,
     Unixtime.reltime_to_secs time_str = Raise (ValueError msg) ->
     strptime w time_str (time_format time_str) = Some t ->
     mktime w t = Ok x -> PyFloat.to_int x = Ok v ->
     Unixtime.str_to_secs w now known time_str = (Ok v, <[time_str := v]> known)) /\
  (forall msg,
     Unixtime.reltime_to_secs time_str = Raise (ValueError msg) ->
     strptime w time_str (time_format time_str) = None ->
     Unixtime.str_to_secs w now known time_str
     = (Raise (Unixtime.bad_datetime time_str), known)) /\
  time_format "Jul 22 2012" = "%b %d %Y" /\
  time_format "Jul 22 2012 16:37" = "%b %d %Y %H:%M" /\
  (known !! "2w" = None -> 14 * 86400 <= secs ->
   Unixtime.str_to_secs w now known "2w"
   = (Ok (secs - 14 * 86400), <["2w" := secs - 14 * 86400]> known)) /\
  (known !! "2days" = None -> strptime w "2days" "%b %d %Y %H:%M" = None ->
   Unixtime.str_to_secs w now known "2days"
   = (Raise (ValueError "'2days' is not a valid DATETIME"), known)).
Proof.
  intros now secs.
  assert (Hrel : forall s d, known !! s = None ->
            Unixtime.reltime_to_secs s = Ok d -> 0 <= d <= secs ->
            Unixtime.str_to_secs w now known s
            = (Ok (secs - d), <[s := secs - d]> known)).
  { intros s d Hs Hr Hle. unfold Unixtime.str_to_secs, Unixtime.before_now.
    rewrite Hs, Hr. unfold Ok at 1. cbv beta iota.
    rewrite of_Z_exact by (rewrite Z.abs_eq by lia; unfold PyFloat.prec, secs in *; lia).
    unfold now. rewrite sub_int_exact by (assumption || exact Hle).
    reflexivity. }
  assert (Habs : forall s msg, known !! s = None ->
            Unixtime.reltime_to_secs s = Raise (ValueError msg) ->
            Unixtime.str_to_secs w now known s
            = match Unixtime.abstime_to_secs w s with
              | inl e0 => (Raise e0, known)
              | inr utime => (Ok utime, <[s := utime]> known)
              end).
  { intros s msg Hs Hr. unfold Unixtime.str_to_secs, Unixtime.before_now.
    rewrite Hs, Hr. reflexivity. }
  assert (Hexact : forall u mx ex, 60 <= u -> 0 <= mx -> mx * u < 2 ^ 53 ->
            PyFloat.wf (PyFloat.Fin mx ex) -> PyFloat.trunc (mx * u) ex <= secs ->
            PyFloat.bits (mx * u) + ex <= PyFloat.emax /\ 0 <= PyFloat.trunc (mx * u) ex).
  { intros u mx ex Hu Hmx Hb Hwf Hle.
    assert (Hbits : PyFloat.bits (mx * u) <= 53).
    { rewrite <- (Z.abs_eq (mx * u)) by nia. apply bits_abs_le.
      rewrite Z.abs_eq by nia. exact Hb. }
    unfold PyFloat.trunc in *. destruct (Z.leb_spec 0 ex) as [Hex | Hex].
    - split; [| pose proof (pow2_ge_1 ex Hex); nia].
      destruct (Z.eq_dec mx 0) as [-> | Hnz].
      + destruct Hwf as [[_ ->] | (Hodd & _)]; [| discriminate].
        unfold PyFloat.emax. lia.
      + assert (ex < 53); [| unfold PyFloat.emax; lia].
        apply (Z.pow_lt_mono_r_iff 2); [lia | lia |].
        unfold secs, PyFloat.prec in *. nia.
    - split; [unfold PyFloat.emax; lia |].
      apply Z.quot_pos; [nia | apply Z.pow_pos_nonneg; lia]. }
  repeat split.
  - intros u mx ex Hu Hp Hmx Hb Hle. pose proof (unit_seconds_ge _ _ Hu) as Hge.
    destruct (Hexact u mx ex Hge Hmx Hb (wf_of_string _ _ Hp) Hle) as (Ho & H0).
    apply Hrel; [exact Hmiss | | lia].
    apply (reltime_exact time_str c u mx ex Hlast Hmx Hb Ho).
    left. split; assumption.
  - intros mx ex Hu Hp Hmx Hb Hle.
    destruct (Hexact 86400 mx ex ltac:(lia) Hmx Hb (wf_of_string _ _ Hp) Hle) as (Ho & H0).
    apply Hrel; [exact Hmiss | | lia].
    apply (reltime_exact time_str c 86400 mx ex Hlast Hmx Hb Ho).
    right. repeat split; assumption.
  - intros msg t x v Hr Ht Hx Hv. rewrite (Habs _ msg Hmiss Hr).
    unfold Unixtime.abstime_to_secs. fold (time_format time_str). rewrite Ht, Hx.
    unfold Ok at 1. cbv beta iota. rewrite Hv. reflexivity.
  - intros msg Hr Ht. rewrite (Habs _ msg Hmiss Hr).
    unfold Unixtime.abstime_to_secs. fold (time_format time_str). rewrite Ht. reflexivity.
  - intros H2w Hle. apply (Hrel "2w" (14 * 86400) H2w); [reflexivity | lia].
  - intros Hs Ht. rewrite (Habs _ _ Hs eq_refl).
    unfold Unixtime.abstime_to_secs.
    change (if (length (PyStr.split_ws "2days") =? 3)%nat then "%b %d %Y" else "%b %d %Y %H:%M")
      with "%b %d %Y %H:%M".
    rewrite Ht. reflexivity.
Qed.

Lemma str_to_secs_first_call_witness :
  (∅ : gmap string Z) !! "2w" = None /\
  PyStr.last_char "2w" = Some "w"%char /\
  PyFloat.of_Z 1000000000 = PyFloat.Fin 1953125 9 /\
  PyFloat.trunc 1953125 9 = 1000000000 /\
  Unixtime.str_to_secs Posix.world (PyFloat.Fin 1953125 9) ∅ "2w"
  = (Ok 998790400, <["2w" := 998790400]> ∅) /\
  Unixtime.str_to_secs Posix.world (PyFloat.Fin 1953125 9) ∅ "1.5H"
  = (Ok 999994600, <["1.5H" := 999994600]> ∅) /\
  Unixtime.str_to_secs Posix.world (PyFloat.Fin 1953125 9) ∅ "Jul 22 2012 16:37"
  = (Ok 1342975020, <["Jul 22 2012 16:37" := 1342975020]> ∅).
Proof.
  assert (Hclock : PyFloat.wf (PyFloat.Fin 1953125 9)).
  { right. vm_compute. repeat split; try reflexivity; intros H; discriminate H. }
  assert (Hrange : PyFloat.trunc 1953125 9 < 2 ^ 53) by (vm_compute; reflexivity).
  split; [apply lookup_empty |]. split; [reflexivity |]. split; [reflexivity |].
  split; [reflexivity |]. split; [| split].
  - destruct (str_to_secs_first_call Posix.world ∅ "2w" "w" 1953125 9 (lookup_empty _)
                eq_refl Hclock ltac:(lia) Hrange) as (H & _).
    apply (H 604800 1 1);
      [reflexivity | reflexivity | lia | reflexivity | vm_compute; intros H0; discriminate H0].
  - destruct (str_to_secs_first_call Posix.world ∅ "1.5H" "H" 1953125 9 (lookup_empty _)
                eq_refl Hclock ltac:(lia) Hrange) as (H & _).
    apply (H 3600 3 (-1));
      [reflexivity | reflexivity | lia | reflexivity | vm_compute; intros H0; discriminate H0].
  - destruct (str_to_secs_first_call Posix.world ∅ "Jul 22 2012 16:37" "7" 1953125 9
                (lookup_empty _) eq_refl Hclock ltac:(lia) Hrange) as (_ & _ & H & _).
    eapply H; reflexivity.
Defined.

(** ** C3: comparisons against strings *)



(** ** C10: the cache of parsed times *)

Lemma str_to_secs_caches (w : World) (now : PyFloat.t) (known known' : gmap string Z)
    (s : string) (v : Z) :
  Unixtime.str_to_secs w now known s = (Ok v, known') -> known' !! s = Some v.
Proof.
  unfold Unixtime.str_to_secs. destruct (known !! s) as [v0 |] eqn:Hk.
  - intros [= <- <-]. exact Hk.
  - destruct (match Unixtime.before_now now s with
              | inl (ValueError _) => Unixtime.abstime_to_secs w s
              | r => r
              end) as [e | u]; intros [= <- <-].
    apply lookup_insert_eq.
Qed.

Lemma str_to_secs_keeps (w : World) (now : PyFloat.t) (known : gmap string Z)
    (s s' : string) (v : Z) :
  known !! s = Some v -> snd (Unixtime.str_to_secs w now known s') !! s = Some v.
Proof.
  intros Hs. unfold Unixtime.str_to_secs. destruct (known !! s') as [v0 |] eqn:Hk.
  - exact Hs.
  - destruct (match Unixtime.before_now now s' with
              | inl (ValueError _) => Unixtime.abstime_to_secs w s'
              | r => r
              end) as [e | u]; cbn [snd]; [exact Hs |].
    rewrite lookup_insert_ne; [exact Hs |]. intros ->. congruence.
Qed.

Lemma later_calls_keep (w : World) (calls : list (PyFloat.t * string))
    (known : gmap string Z) (s : string) (v : Z) :
  known !! s = Some v -> later_calls w calls known !! s = Some v.
Proof.
  revert known. induction calls as [| [now s'] rest IH]; intros known Hs; cbn [later_calls].
  - exact Hs.
  - apply IH, str_to_secs_keeps, Hs.
Qed.

(** C10: once a call of [str_to_secs] has returned [v] for a string, every
    later call for that string returns [v] and leaves the cache alone,
    whatever the clock shows then and whatever other strings were parsed
    in between; for a relative time the moment "now" is that of the first
    call. *)
Theorem str_to_secs_frozen (w : World) (now1 : PyFloat.t) (known known1 : gmap string Z)
    (s : string) (v : Z)
    (Hfirst : Unixtime.str_to_secs w now1 known s = (Ok v, known1)) :
  forall (calls : list (PyFloat.t * string)) (now2 : PyFloat.t),
    Unixtime.str_to_secs w now2 (later_calls w calls known1) s
    = (Ok v, later_calls w calls known1).
Proof.
  intros calls now2. apply str_to_secs_caches in Hfirst.
  apply (later_calls_keep w calls) in Hfirst.
  unfold Unixtime.str_to_secs. rewrite Hfirst. reflexivity.
Qed.

Lemma str_to_secs_frozen_witness :
  Unixtime.str_to_secs Posix.world (PyFloat.of_Z 1000000000) ∅ "2w"
  = (Ok 998790400, <["2w" := 998790400]> ∅) /\
  fst (Unixtime.str_to_secs Posix.world (PyFloat.of_Z 1000000100)
         (later_calls Posix.world [(PyFloat.of_Z 1000000050, "3d")] (<["2w" := 998790400]> ∅))
         "2w")
  = Ok 998790400.
Proof.
  assert (Hfirst : Unixtime.str_to_secs Posix.world (PyFloat.of_Z 1000000000) ∅ "2w"
                   = (Ok 998790400, <["2w" := 998790400]> ∅)) by reflexivity.
  split; [exact Hfirst |].
  rewrite (str_to_secs_frozen Posix.world (PyFloat.of_Z 1000000000) ∅
             (<["2w" := 998790400]> ∅) "2w" 998790400 Hfirst
             [(PyFloat.of_Z 1000000050, "3d")] (PyFloat.of_Z 1000000100)).
  reflexivity.
Defined.

(** ** C4: the filters are a conjunction, evaluated up to the first failure *)

Lemma first_failing_none (w : World) (filters : list Filter) (self : FileStats) :
  first_failing w filters self = Ok None <->
  Forall (fun f => holds w self f = Ok true) filters.
Proof.
  induction filters as [| f rest IH]; cbn [first_failing].
  - split; [constructor | reflexivity].
  - destruct (holds w self f) as [e | [|]] eqn:Hf.
    + split; [discriminate |]. intros H. inversion H as [| ? ? Hh Ht]. rewrite Hf in Hh. discriminate Hh.
    + rewrite IH. split; intros H.
      * constructor; [exact Hf | exact H].
      * inversion H; assumption.
    + split; [discriminate |]. intros H. inversion H as [| ? ? Hh Ht]. rewrite Hf in Hh. discriminate Hh.
Qed.

Lemma first_failing_stops (w : World) (pre post : list Filter) (f : Filter) (self : FileStats) :
  Forall (fun g => holds w self g = Ok true) pre ->
  holds w self f = Ok false ->
  first_failing w (pre ++ f :: post) self = Ok (Some f).
Proof.
  intros Hpre Hf. induction Hpre as [| g pre Hg _ IH]; cbn [first_failing app].
  - rewrite Hf. reflexivity.
  - rewrite Hg. exact IH.
Qed.

(** C4: a record passes exactly when every registered filter holds for
    it; with no filter every record passes and [apply_all_filters] hands
    the list back as it is; and when the filters before [f] hold and [f]
    fails, the answer is [False] whatever follows [f] in the list, even
    a filter whose evaluation would raise: the loop stops at [f]. *)
Theorem passes_filters_conjunction (w : World) (filters : list Filter) (self : FileStats) :
  (passes_filters w filters self = Ok true <->
   Forall (fun f => holds w self f = Ok true) filters) /\
  passes_filters w [] self = Ok true /\
  (forall statlist, apply_all_filters w [] statlist = Ok statlist) /\
  (forall pre f post,
     filters = (pre ++ f :: post)%list ->
     Forall (fun g => holds w self g = Ok true) pre ->
     holds w self f = Ok false ->
     first_failing w filters self = Ok (Some f) /\
     passes_filters w filters self = Ok false /\
     forall post', passes_filters w (pre ++ f :: post') self = Ok false).
Proof.
  repeat split; try reflexivity.
  - intros H. apply first_failing_none. unfold passes_filters in H.
    destruct (first_failing w filters self) as [e | [g |]]; try discriminate. reflexivity.
  - intros H. apply first_failing_none in H. unfold passes_filters. rewrite H. reflexivity.
  - subst filters. apply first_failing_stops; assumption.
  - subst filters. unfold passes_filters. rewrite first_failing_stops by assumption. reflexivity.
  - intros post'. unfold passes_filters. rewrite first_failing_stops by assumption. reflexivity.
Qed.

Lemma passes_filters_conjunction_witness :
  let small := {| f_field := "size"; f_comparison := FLt; f_value := "1k";
                  f_index := Some 6%nat; f_native := NInt 1024 |} in
  let broken := {| f_field := "python"; f_comparison := FEval; f_value := "size <";
                   f_index := None; f_native := NNone |} in
  holds Posix.world (file "b" 2048 32768) small = Ok false /\
  holds Posix.world (file "b" 2048 32768) broken = Raise EvalError /\
  passes_filters Posix.world [broken] (file "b" 2048 32768) = Raise EvalError /\
  passes_filters Posix.world [small; broken] (file "b" 2048 32768) = Ok false.
Proof.
  intros small broken.
  split; [reflexivity |]. split; [reflexivity |]. split; [reflexivity |].
  destruct (passes_filters_conjunction Posix.world [small; broken] (file "b" 2048 32768))
    as (_ & _ & _ & H).
  apply (H [] small [broken]); [reflexivity | constructor | reflexivity].
Defined.

(** ** C5: the size filter *)

Lemma registered_size_below (w : World) (now : PyFloat.t) :
  add_filter w now "size" "1k" empty_registry
  = (Ok tt, {| size_strings := <["1k" := 1024]> ∅; time_strings := ∅; usernames := ∅;
               groups := ∅;
               filter_list := [ {| f_field := "size"; f_comparison := FLt; f_value := "1k";
                                   f_index := Some 6%nat; f_native := NInt 1024 |} ] |}).
Proof. reflexivity. Qed.

Lemma registered_size_above (w : World) (now : PyFloat.t) :
  add_filter w now "size" "+1k" empty_registry
  = (Ok tt, {| size_strings := <["1k" := 1024]> ∅; time_strings := ∅; usernames := ∅;
               groups := ∅;
               filter_list := [ {| f_field := "size"; f_comparison := FGt; f_value := "1k";
                                   f_index := Some 6%nat; f_native := NInt 1024 |} ] |}).
Proof. reflexivity. Qed.

(** C5: after [add_filter("size", "1k")] a record passes exactly when its
    size is below 1024, after [add_filter("size", "+1k")] exactly when its
    size is above 1024; of the records with sizes 100, 2048 and 10240 the
    first filter keeps the one of 100 bytes and the second keeps the two
    others, which are the records of at least 1024 bytes. *)
Theorem size_filter_1k (w : World) (now : PyFloat.t) (self : FileStats) :
  let records := [file "a" 100 32768; file "b" 2048 32768; file "c" 10240 32768] in
  fst (add_filter w now "size" "1k" empty_registry) = Ok tt /\
  fst (add_filter w now "size" "+1k" empty_registry) = Ok tt /\
  passes_filters w (registered w now "size" "1k") self = Ok (size self <? 1024) /\
  passes_filters w (registered w now "size" "+1k") self = Ok (size self >? 1024) /\
  apply_all_filters w (registered w now "size" "1k") records = Ok [file "a" 100 32768] /\
  apply_all_filters w (registered w now "size" "+1k") records
  = Ok [file "b" 2048 32768; file "c" 10240 32768] /\
  List.filter (fun r => 1024 <=? size r) records = [file "b" 2048 32768; file "c" 10240 32768].
Proof.
  unfold registered. rewrite registered_size_below, registered_size_above.
  cbn [fst snd filter_list]. repeat split.
  - unfold passes_filters, first_failing, holds. cbn.
    destruct (size self <? 1024); reflexivity.
  - unfold passes_filters, first_failing, holds. cbn.
    destruct (size self >? 1024); reflexivity.
Qed.

(** ** C6: a broken link is a link *)

Lemma chars_of_chars (l : list ascii) : PyStr.chars (PyStr.of_chars l) = l.
Proof. apply list_ascii_of_string_of_list_ascii. Qed.

Lemma first_letter_valid (word : string) (c : ascii) (rest : string) (valid_words : list string) :
  mem_string word valid_words = true -> word = String c rest ->
  c ∈ first_letters valid_words.
Proof.
  intros Hmem ->. unfold mem_string in Hmem. apply List.existsb_exists in Hmem.
  destruct Hmem as (v & Hin & Heq). apply String.eqb_eq in Heq. subst v.
  apply list_elem_of_In. unfold first_letters. apply List.in_flat_map.
  exists (String c rest). split; [exact Hin | left; reflexivity].
Qed.

Lemma first_letters_of_valid (words valid_words : list string) (acc : list ascii)
    (letters : string) :
  first_letters_of words valid_words acc = Ok letters ->
  Forall (fun c => c ∈ first_letters valid_words) acc ->
  Forall (fun c => c ∈ first_letters valid_words) (PyStr.chars letters).
Proof.
  revert acc. induction words as [| word rest IH]; intros acc H Hacc; cbn [first_letters_of] in H.
  - injection H as <-. rewrite chars_of_chars. apply Forall_rev. exact Hacc.
  - destruct (mem_string word valid_words) eqn:Hmem; cbn [negb] in H; [| discriminate].
    destruct word as [| c tl]; [discriminate |].
    apply (IH (c :: acc) H). constructor; [| exact Hacc].
    eapply first_letter_valid; [exact Hmem | reflexivity].
Qed.

Lemma parse_value_list_valid (val_list : string) (valid_words : list string) (letters : string) :
  parse_value_list val_list valid_words = Ok letters ->
  Forall (fun c => c ∈ first_letters valid_words) (PyStr.chars letters).
Proof.
  unfold parse_value_list. destruct (String.eqb val_list ""); [discriminate |].
  destruct (_ =? 1)%nat.
  - destruct (List.forallb _ _) eqn:Hall; [| discriminate].
    intros [= <-]. apply Forall_forall. intros c Hc.
    rewrite List.forallb_forall in Hall. apply list_elem_of_In in Hc.
    specialize (Hall c Hc). apply List.existsb_exists in Hall.
    destruct Hall as (c' & Hin & Heq). apply Ascii.eqb_eq in Heq. subst c'.
    apply list_elem_of_In, Hin.
  - intros H. apply first_letters_of_valid in H; [exact H | constructor].
Qed.

Lemma type_set_valid (type_list : string) (tc_set : gset ascii) :
  type_set_from_string type_list = Ok tc_set -> tc_set ⊆ file_type_chars.
Proof.
  unfold type_set_from_string. destruct (arg_has_plus type_list) as [[tl include] |]; [| discriminate].
  destruct (parse_value_list tl file_type_words) as [[] | tstring] eqn:Hp; try discriminate.
  intros [= <-]. apply parse_value_list_valid in Hp.
  destruct include; [intros c Hc; apply elem_of_difference in Hc; exact (proj1 Hc) |].
  intros c Hc. rewrite elem_of_list_to_set in Hc. apply elem_of_list_to_set.
  rewrite Forall_forall in Hp. apply Hp, Hc.
Qed.

Lemma from_char_valid (c : ascii) :
  c ∈ file_type_chars ->
  exists z, FileTypeCode.from_char c = Some z /\ z <> FileTypeCode.broken_link /\
            (z = FileTypeCode.S_IFLNK <-> c = "l"%char).
Proof.
  intros Hc. apply elem_of_list_to_set in Hc.
  change (first_letters file_type_words)
    with ["r"; "d"; "l"; "c"; "b"; "p"; "s"]%char in Hc.
  repeat (apply elem_of_cons in Hc; destruct Hc as [-> | Hc];
          [eexists; split; [reflexivity |]; split; [discriminate |];
           split; intros H; (reflexivity || discriminate H) |]).
  apply elem_of_nil in Hc. destruct Hc.
Qed.

Lemma typecodes_of_spec (l : list ascii) :
  Forall (fun c => c ∈ file_type_chars) l ->
  exists codes, typecodes_of l = Ok codes /\
    ~ FileTypeCode.broken_link ∈ codes /\
    (FileTypeCode.S_IFLNK ∈ codes <-> "l"%char ∈ l).
Proof.
  induction 1 as [| c l Hc _ (codes & Hcodes & Hno & Hlnk)]; cbn [typecodes_of].
  - exists []. split; [reflexivity |]. split; [apply not_elem_of_nil |].
    split; intros H; apply elem_of_nil in H; destruct H.
  - destruct (from_char_valid c Hc) as (z & Hz & Hz0 & Hzl).
    rewrite Hz, Hcodes. exists (z :: codes). split; [reflexivity |]. split.
    + intros H. apply elem_of_cons in H. destruct H as [H | H]; [congruence | exact (Hno H)].
    + rewrite !elem_of_cons, Hlnk.
      split; (intros [H | H]; [left | right; exact H]).
      * symmetry. apply Hzl. symmetry. exact H.
      * symmetry. apply Hzl. symmetry. exact H.
Qed.

(** C6: when an option value resolves to the set [tc_set] of type
    letters, [typecode_list_from_string] returns a list of type codes; if
    the letter [l] is in the set the code 0 of a broken link is in the
    list, and 0 is in the list exactly when the code of a symbolic link
    is.  Of a regular file, a directory and a broken link, the filter of
    [-e d] drops the directory only and the filter of [-e +d] keeps the
    directory only. *)
Theorem broken_link_is_link (w : World) (now : PyFloat.t) (type_list : string)
    (tc_set : gset ascii)
    (Hset : type_set_from_string type_list = Ok tc_set) :
  let entries := [file "f" 0 FileTypeCode.S_IFREG; file "d" 0 FileTypeCode.S_IFDIR;
                  file "x" 0 FileTypeCode.broken_link] in
  (exists typecode_list,
     typecode_list_from_string type_list = Ok typecode_list /\
     ("l"%char ∈ tc_set -> FileTypeCode.broken_link ∈ typecode_list) /\
     (FileTypeCode.broken_link ∈ typecode_list <-> FileTypeCode.S_IFLNK ∈ typecode_list)) /\
  apply_all_filters w (registered w now "Typecode" "d") entries
  = Ok [file "f" 0 FileTypeCode.S_IFREG; file "x" 0 FileTypeCode.broken_link] /\
  apply_all_filters w (registered w now "Typecode" "+d") entries
  = Ok [file "d" 0 FileTypeCode.S_IFDIR].
Proof.
  intros entries. split; [| split; reflexivity].
  unfold typecode_list_from_string. rewrite Hset.
  destruct (typecodes_of_spec (elements tc_set)) as (codes & Hcodes & Hno & Hlnk).
  { apply Forall_forall. intros c Hc. apply elem_of_elements in Hc.
    apply (type_set_valid _ _ Hset), Hc. }
  unfold Ok, Raise in *. cbv beta iota. rewrite Hcodes. rewrite elem_of_elements in Hlnk.
  destruct (bool_decide ("l"%char ∈ tc_set)) eqn:Hl.
  - apply bool_decide_eq_true in Hl. eexists. split; [reflexivity |].
    split; [intros _; apply elem_of_app; right; apply list_elem_of_singleton; reflexivity |].
    split; intros _.
    + apply elem_of_app. left. apply Hlnk, Hl.
    + apply elem_of_app. right. apply list_elem_of_singleton. reflexivity.
  - apply bool_decide_eq_false in Hl. eexists. split; [reflexivity |].
    split; [intros H; destruct (Hl H) |].
    split; intros H; [destruct (Hno H) | destruct (Hl (proj1 Hlnk H))].
Qed.

Lemma broken_link_is_link_witness :
  type_set_from_string "dl" = Ok ({["d"%char; "l"%char]} : gset ascii) /\
  typecode_list_from_string "dl" = Ok [40960; 16384; 0] /\
  exists typecode_list,
    typecode_list_from_string "dl" = Ok typecode_list /\
    ("l"%char ∈ ({["d"%char; "l"%char]} : gset ascii) -> 0 ∈ typecode_list) /\
    (0 ∈ typecode_list <-> 40960 ∈ typecode_list).
Proof.
  assert (Hset : type_set_from_string "dl" = Ok ({["d"%char; "l"%char]} : gset ascii)).
  { vm_compute. reflexivity. }
  split; [exact Hset |]. split; [reflexivity |].
  exact (proj1 (broken_link_is_link Posix.world (PyFloat.of_Z 0) "dl" _ Hset)).
Defined.

(** ** C8: failures of parsing and of [lstat] *)

(** C8 as stated does not hold on Windows: there [Uid.from_str] and
    [Gid.from_str] answer 0 for a string that is neither a number nor a
    known name, instead of raising. *)
Lemma from_str_windows_default :
  py_int "no_such_user" = None /\
  getpwnam Posix.windows "no_such_user" = None /\
  Uid.from_str Posix.windows ∅ "no_such_user" = (Ok 0, ∅) /\
  Gid.from_str Posix.windows ∅ "no_such_user" = (Ok 0, ∅) /\
  fst (add_filter Posix.windows (PyFloat.of_Z 0) "uid" "no_such_user" empty_registry) = Ok tt.
Proof. repeat split; reflexivity. Qed.

Lemma resolve_keeps_filters (w : World) (now : PyFloat.t) (field value : string)
    (op_index : bool) (reg : Registry) :
  filter_list (snd (resolve w now field value op_index reg)) = filter_list reg.
Proof.
  unfold resolve.
  destruct (String.eqb field "Typecode").
  { destruct (typecode_list_from_string value); reflexivity. }
  destruct (String.eqb field "uid").
  { destruct (parse_each _ _ _) as [[|] ?]; reflexivity. }
  destruct (String.eqb field "gid").
  { destruct (parse_each _ _ _) as [[|] ?]; reflexivity. }
  destruct (is_time_field field).
  { destruct (Unixtime.str_to_secs _ _ _ _) as [[|] ?]; reflexivity. }
  destruct (String.eqb field "size").
  { destruct (FileSize.from_string _ _) as [[|] ?]; reflexivity. }
  destruct (is_text_field field); [destruct (re_valid w value) |]; reflexivity.
Qed.

(** a registration that raises registers nothing *)
Lemma add_filter_failure (w : World) (now : PyFloat.t) (field value : string)
    (reg reg' : Registry) (e : exn) :
  add_filter w now field value reg = (Raise e, reg') -> filter_list reg' = filter_list reg.
Proof.
  unfold add_filter. destruct (arg_has_plus value) as [[v op_index] |]; [| intros [= _ <-]; reflexivity].
  destruct (op_index && String.eqb v ""); [intros [= _ <-]; reflexivity |].
  destruct (String.eqb field "python").
  - destruct (init w (argv0 w)); [intros [= _ <-]; reflexivity |].
    destruct (py_eval w v _); [intros [= _ <-]; reflexivity | discriminate].
  - pose proof (resolve_keeps_filters w now field v op_index reg) as Hk.
    destruct (resolve w now field v op_index reg) as [[e0 | [comparison native_value]] r].
    + intros [= _ <-]. exact Hk.
    + destruct (index_of String.eqb field field_words); [| intros [= _ <-]; exact Hk].
      destruct comparison; [discriminate | intros [= _ <-]; exact Hk].
Qed.

Lemma nonempty_of_last (s : string) (c : ascii) :
  PyStr.last_char s = Some c -> String.eqb s "" = false.
Proof. destruct s; [discriminate | reflexivity]. Qed.

Lemma stat_files_spec (w : World) (filepaths : list string) (run : Run) :
  fst (stat_files w filepaths run)
  = List.flat_map (fun p => match init w p with inr r => [r] | inl _ => [] end) filepaths /\
  output (snd (stat_files w filepaths run))
  = (output run
     ++ List.flat_map (fun p => match init w p with inl msg => [ErrLine msg] | inr _ => [] end)
          filepaths)%list /\
  TOTFILES (snd (stat_files w filepaths run)) = TOTFILES run /\
  TOTSIZE (snd (stat_files w filepaths run)) = TOTSIZE run /\
  GTOTFILES (snd (stat_files w filepaths run)) = GTOTFILES run /\
  GTOTSIZE (snd (stat_files w filepaths run)) = GTOTSIZE run.
Proof.
  revert run. induction filepaths as [| p rest IH]; intros run; cbn [stat_files List.flat_map].
  - rewrite List.app_nil_r. repeat split.
  - destruct (init w p) as [msg | r].
    + destruct (IH (emit (ErrLine msg) run)) as (H1 & H2 & H3 & H4 & H5 & H6).
      rewrite H1, H2, H3, H4, H5, H6. cbn [emit output TOTFILES TOTSIZE GTOTFILES GTOTSIZE].
      rewrite <- List.app_assoc. repeat split.
    + destruct (IH run) as (H1 & H2 & H3 & H4 & H5 & H6).
      destruct (stat_files w rest run) as [l run']. cbn [fst snd] in *.
      rewrite H1, H2. repeat split; assumption.
Qed.

Lemma add_filter_resolve_error (w : World) (now : PyFloat.t) (field value operand : string)
    (plus : bool) (reg : Registry) (e : exn) :
  arg_has_plus value = Some (operand, plus) -> String.eqb operand "" = false ->
  String.eqb field "python" = false ->
  resolve w now field operand plus reg = (Raise e, reg) ->
  add_filter w now field value reg = (Raise e, reg).
Proof.
  intros Hplus Hne Hpy Hres. unfold add_filter.
  rewrite Hplus, Hne, andb_false_r, Hpy, Hres. reflexivity.
Qed.

Lemma from_string_rejects (known : gmap string Z) (s : string) (c : ascii) :
  known !! s = None -> PyStr.last_char s = Some c ->
  PyFloat.of_string (if PyStr.mem c "bkmg" then PyStr.drop_last s else s) = None ->
  FileSize.from_string known s = (Raise (FileSize.bad_size s), known).
Proof.
  intros Hmiss Hlast Hp. unfold FileSize.from_string. rewrite Hmiss, Hlast.
  destruct (PyStr.mem c "bkmg"); cbn [negb]; rewrite Hp; reflexivity.
Qed.

Lemma str_to_secs_rejects (w : World) (now : PyFloat.t) (known : gmap string Z)
    (s : string) (c : ascii) :
  known !! s = None -> PyStr.last_char s = Some c ->
  PyFloat.of_string (if PyStr.mem (PyStr.lower c) "mhdwy" then PyStr.drop_last s else s) = None ->
  strptime w s (time_format s) = None ->
  Unixtime.str_to_secs w now known s = (Raise (Unixtime.bad_datetime s), known).
Proof.
  intros Hmiss Hlast Hp Ht.
  unfold Unixtime.str_to_secs, Unixtime.before_now, Unixtime.reltime_to_secs.
  rewrite Hmiss, Hlast.
  destruct (PyStr.mem (PyStr.lower c) "mhdwy"); cbn [negb]; rewrite Hp;
    unfold Raise at 1, Unixtime.bad_reltime at 1; cbv beta iota;
    unfold Unixtime.abstime_to_secs; fold (time_format s); rewrite Ht; reflexivity.
Qed.

Lemma time_field_cases (field : string) :
  is_time_field field = true -> field = "mtime" \/ field = "atime" \/ field = "ctime".
Proof.
  unfold is_time_field, mem_string. cbn [List.existsb].
  rewrite !orb_true_iff, !String.eqb_eq. intuition discriminate.
Qed.

(** C8 (amended): let [operand] be a non-empty option value with its
    leading [+], if any, taken off.
    - If [operand] is not a number with an optional suffix b, k, m or g,
      [FileSize.from_string] raises the [ValueError] that names it as no
      valid FILESIZE, and so does the registration of a size filter.
    - If it is not a number with an optional suffix m, h, d, w or y and
      [time.strptime] rejects it, [Unixtime.str_to_secs] raises the
      [ValueError] that names it as no valid DATETIME, and so does the
      registration of a filter on one of the three times.
    - On a system other than Windows, if it is no integer and no known
      user (group), [Uid.from_str] ([Gid.from_str]) raises the
      [ValueError] that names it as no valid username or UID (group name
      or GID), and so does the registration of a uid (gid) filter.
    In all these cases nothing is stored and no default is used.  A
    registration that raises leaves the list of filters as it was, so
    the failure comes before any traversal.  During the traversal a file
    that [os.lstat] cannot examine gives a line on [sys.stderr] and no
    record, and [stat_files] goes on to the next file. *)
Theorem operand_failures_are_reported (w : World) (now : PyFloat.t) (reg : Registry)
    (value operand : string) (plus : bool) (c : ascii)
    (Hplus : arg_has_plus value = Some (operand, plus))
    (Hlast : PyStr.last_char operand = Some c) :
  (size_strings reg !! operand = None ->
   PyFloat.of_string (if PyStr.mem c "bkmg" then PyStr.drop_last operand else operand) = None ->
   let err := ValueError (("'" +:+ operand +:+ "'") +:+ " is not a valid FILESIZE string") in
   FileSize.from_string (size_strings reg) operand = (Raise err, size_strings reg) /\
   add_filter w now "size" value reg = (Raise err, reg)) /\
  (time_strings reg !! operand = None ->
   PyFloat.of_string (if PyStr.mem (PyStr.lower c) "mhdwy"
                      then PyStr.drop_last operand else operand) = None ->
   strptime w operand (time_format operand) = None ->
   let err := ValueError (("'" +:+ operand +:+ "'") +:+ " is not a valid DATETIME") in
   Unixtime.str_to_secs w now (time_strings reg) operand = (Raise err, time_strings reg) /\
   forall field, is_time_field field = true ->
     add_filter w now field value reg = (Raise err, reg)) /\
  (os_is_windows w = false -> usernames reg !! operand = None ->
   py_int operand = None -> getpwnam w operand = None ->
   let err := ValueError (("'" +:+ operand +:+ "'") +:+ " is not a valid username or UID") in
   Uid.from_str w (usernames reg) operand = (Raise err, usernames reg) /\
   (PyStr.split_on "," operand = [operand] ->
    add_filter w now "uid" value reg = (Raise err, reg))) /\
  (os_is_windows w = false -> groups reg !! operand = None ->
   py_int operand = None -> getgrnam w operand = None ->
   let err := ValueError (("'" +:+ operand +:+ "'") +:+ " is not a valid group name or GID") in
   Gid.from_str w (groups reg) operand = (Raise err, groups reg) /\
   (PyStr.split_on "," operand = [operand] ->
    add_filter w now "gid" value reg = (Raise err, reg))) /\
  (forall field e reg',
     add_filter w now field value reg = (Raise e, reg') -> filter_list reg' = filter_list reg) /\
  (forall filepath msg,
     lstat w filepath = inl msg ->
     init w filepath = inl ("Cannot stat file " +:+ filepath +:+ ": " +:+ msg)) /\
  (forall filepaths run,
     fst (stat_files w filepaths run)
     = List.flat_map (fun p => match init w p with inr r => [r] | inl _ => [] end) filepaths /\
     output (snd (stat_files w filepaths run))
     = (output run
        ++ List.flat_map (fun p => match init w p with inl msg => [ErrLine msg] | inr _ => [] end)
             filepaths)%list).
Proof.
  pose proof (nonempty_of_last _ _ Hlast) as Hne.
  split; [| split; [| split; [| split; [| split; [| split]]]]].
  - intros Hmiss Hp err.
    pose proof (from_string_rejects _ _ _ Hmiss Hlast Hp) as Hr.
    split; [exact Hr |].
    apply (add_filter_resolve_error w now "size" value operand plus reg _ Hplus Hne eq_refl).
    unfold resolve. rewrite Hr. destruct reg; reflexivity.
  - intros Hmiss Hp Ht err.
    pose proof (str_to_secs_rejects w now _ _ _ Hmiss Hlast Hp Ht) as Hr.
    split; [exact Hr |]. intros field Hf.
    destruct (time_field_cases field Hf) as [-> | [-> | ->]];
      (eapply add_filter_resolve_error; [exact Hplus | exact Hne | reflexivity |]);
      unfold resolve; rewrite Hr; destruct reg; reflexivity.
  - intros Hwin Hmiss Hint Hpw err.
    assert (Hr : Uid.from_str w (usernames reg) operand = (Raise err, usernames reg)).
    { unfold Uid.from_str. rewrite Hmiss, Hwin, Hint, Hpw. reflexivity. }
    split; [exact Hr |]. intros Hsplit.
    apply (add_filter_resolve_error w now "uid" value operand plus reg _ Hplus Hne eq_refl).
    unfold resolve. rewrite Hsplit. cbn [parse_each]. rewrite Hr. destruct reg; reflexivity.
  - intros Hwin Hmiss Hint Hgr err.
    assert (Hr : Gid.from_str w (groups reg) operand = (Raise err, groups reg)).
    { unfold Gid.from_str. rewrite Hmiss, Hwin, Hint, Hgr. reflexivity. }
    split; [exact Hr |]. intros Hsplit.
    apply (add_filter_resolve_error w now "gid" value operand plus reg _ Hplus Hne eq_refl).
    unfold resolve. rewrite Hsplit. cbn [parse_each]. rewrite Hr. destruct reg; reflexivity.
  - intros field e reg'. apply add_filter_failure.
  - intros filepath msg Hl. unfold init. rewrite Hl. reflexivity.
  - intros filepaths run. destruct (stat_files_spec w filepaths run) as (H1 & H2 & _).
    split; assumption.
Qed.

Lemma operand_failures_are_reported_witness :
  arg_has_plus "+10KB" = Some ("10KB", true) /\
  PyStr.last_char "10KB" = Some "B"%char /\
  add_filter Posix.world (PyFloat.of_Z 0) "size" "+10KB" empty_registry
  = (Raise (ValueError "'10KB' is not a valid FILESIZE string"), empty_registry) /\
  add_filter Posix.world (PyFloat.of_Z 0) "mtime" "+10KB" empty_registry
  = (Raise (ValueError "'10KB' is not a valid DATETIME"), empty_registry) /\
  add_filter Posix.world (PyFloat.of_Z 0) "uid" "+10KB" empty_registry
  = (Raise (ValueError "'10KB' is not a valid username or UID"), empty_registry) /\
  fst (stat_files Posix.world ["proj/gone"; "proj/a.txt"] start)
  = [ {| Mode := 33188; inode := 7; dev := 1; Nlink := 1; uid := 0; gid := 0; size := 100;
         atime := 1400000000; mtime := 1400000000; ctime := 1400000000; path := "proj";
         name := "a.txt"; filepath := "proj/a.txt"; target := ""; Typecode := 32768 |} ] /\
  output (snd (stat_files Posix.world ["proj/gone"; "proj/a.txt"] start))
  = [ErrLine "Cannot stat file proj/gone: No such file or directory"].
Proof.
  destruct (operand_failures_are_reported Posix.world (PyFloat.of_Z 0) empty_registry
              "+10KB" "10KB" true "B" eq_refl eq_refl)
    as (Hsize & Htime & Huid & _ & _ & _ & Hstat).
  split; [reflexivity |]. split; [reflexivity |].
  split; [apply Hsize; [apply lookup_empty | reflexivity] |].
  split; [apply Htime; [apply lookup_empty | reflexivity | reflexivity | reflexivity] |].
  split; [apply Huid; [reflexivity | apply lookup_empty | reflexivity | reflexivity | reflexivity] |].
  destruct (Hstat ["proj/gone"; "proj/a.txt"] start) as (H1 & H2).
  split; [rewrite H1; reflexivity | rewrite H2; reflexivity].
Defined.

(** ** C9: merge mode and default mode on one flat directory *)

Lemma shown_records_emit (e : event) (run : Run) :
  shown_records (emit e run)
  = (shown_records run ++ match e with OutLine stats _ => [stats] | _ => [] end)%list.
Proof.
  unfold shown_records, emit. cbn [output]. rewrite List.flat_map_app. cbn [List.flat_map].
  rewrite List.app_nil_r. reflexivity.
Qed.

Lemma shown_records_display_one (opts : Options) (run : Run) (stats : FileStats) :
  shown_records (display_one opts run stats) = (shown_records run ++ [stats])%list.
Proof.
  unfold display_one. destruct (opt_os_command opts).
  - rewrite shown_records_emit. unfold shown_records at 1. cbn [output].
    fold (shown_records (emit (OutLine stats (opt_fields opts)) run)).
    rewrite shown_records_emit, List.app_nil_r. reflexivity.
  - unfold shown_records at 1. cbn [output].
    fold (shown_records (emit (OutLine stats (opt_fields opts)) run)).
    rewrite shown_records_emit. reflexivity.
Qed.

Lemma shown_records_display_loop (opts : Options) (statlist : list FileStats) (run : Run) :
  shown_records (List.fold_left (display_one opts) statlist run)
  = (shown_records run ++ statlist)%list.
Proof.
  revert run. induction statlist as [| stats rest IH]; intros run; cbn [List.fold_left].
  - rewrite List.app_nil_r. reflexivity.
  - rewrite IH, shown_records_display_one, <- List.app_assoc. reflexivity.
Qed.

(** what a group display returns and which records it prints *)
Lemma display_statlist_shown (opts : Options) (w : World) (filters : list Filter)
    (statlist : list FileStats) (run : Run) :
  match group_content opts w filters statlist with
  | inl e =>
      fst (display_statlist opts w filters statlist run) = Raise e /\
      shown_records (snd (display_statlist opts w filters statlist run)) = shown_records run
  | inr content =>
      fst (display_statlist opts w filters statlist run) = Ok tt /\
      shown_records (snd (display_statlist opts w filters statlist run))
      = (shown_records run ++ content)%list
  end.
Proof.
  unfold group_content, display_statlist.
  destruct (apply_all_filters w filters statlist) as [e | l]; [split; reflexivity |].
  destruct (sort_stats (opt_sort opts) l) as [e | content]; [split; reflexivity |].
  split; [reflexivity |]. cbn [snd].
  set (run0 := {| TOTFILES := 0; TOTSIZE := 0; GTOTFILES := GTOTFILES run;
                  GTOTSIZE := GTOTSIZE run; output := output run |}).
  set (run1 := match content with
               | [] => run0
               | first :: _ =>
                   if negb (opt_quiet opts) && negb (opt_merge opts)
                   then emit (OutDirectory (if String.eqb (path first) "" then "." else path first)) run0
                   else run0
               end).
  assert (H1 : shown_records run1 = shown_records run).
  { unfold run1. destruct content as [| first rest]; [reflexivity |].
    destruct (negb (opt_quiet opts) && negb (opt_merge opts)); [| reflexivity].
    rewrite shown_records_emit, List.app_nil_r. reflexivity. }
  destruct (nonempty content && negb (opt_quiet opts)).
  - unfold shown_records at 1. cbn [output].
    fold (shown_records (emit (OutTotal (TOTFILES (List.fold_left (display_one opts) content run1))
                                 (TOTSIZE (List.fold_left (display_one opts) content run1)))
                           (List.fold_left (display_one opts) content run1))).
    rewrite shown_records_emit, List.app_nil_r, shown_records_display_loop, H1. reflexivity.
  - rewrite shown_records_display_loop, H1. reflexivity.
Qed.

Lemma sort_stats_nil (sort : string) : sort <> "" -> sort_stats sort [] = Ok [].
Proof.
  intros Hne. unfold sort_stats, arg_has_plus.
  destruct sort as [| c rest]; [congruence |].
  destruct (Ascii.eqb c "+"); generalize (List.rev (PyStr.chars rest)),
    (List.rev (PyStr.chars (String c rest))); intros l1 l2.
  - induction l1 as [| x l IH]; [reflexivity | exact IH].
  - induction l2 as [| x l IH]; [reflexivity | exact IH].
Qed.

Lemma group_content_nil (opts : Options) (w : World) (filters : list Filter) :
  opt_sort opts <> "" -> group_content opts w filters [] = Ok [].
Proof.
  intros Hne. unfold group_content.
  assert (H : apply_all_filters w filters [] = Ok []) by (destruct filters; reflexivity).
  rewrite H. apply sort_stats_nil, Hne.
Qed.

(** the end of [show_paths]: the last group and the grand total *)
Lemma show_paths_end (opts : Options) (w : World) (filters : list Filter)
    (statlist : list FileStats) (run : Run) :
  opt_sort opts <> "" ->
  exists run',
    match (let '(shown, run1) :=
             if nonempty statlist then display_statlist opts w filters statlist run
             else (Ok tt, run) in
           match shown with
           | inl e => Some (Raise e, run1)
           | inr _ =>
               if negb (TOTFILES run1 =? GTOTFILES run1) && negb (opt_quiet opts) then
                 Some (Ok tt, emit (OutGrandTotal (GTOTFILES run1) (GTOTSIZE run1)) run1)
               else Some (Ok tt, run1)
           end) with
    | Some (r, run2) =>
        run2 = run' /\
        match group_content opts w filters statlist with
        | inl e => r = Raise e /\ shown_records run' = shown_records run
        | inr content => r = Ok tt /\ shown_records run' = (shown_records run ++ content)%list
        end
    | None => False
    end.
Proof.
  intros Hsort.
  destruct statlist as [| first rest].
  - cbn [nonempty]. rewrite group_content_nil by exact Hsort.
    destruct (negb (TOTFILES run =? GTOTFILES run) && negb (opt_quiet opts));
      eexists; (split; [reflexivity |]); (split; [reflexivity |]).
    + rewrite shown_records_emit, !List.app_nil_r. reflexivity.
    + rewrite List.app_nil_r. reflexivity.
  - cbn [nonempty].
    pose proof (display_statlist_shown opts w filters (first :: rest) run) as Hd.
    destruct (display_statlist opts w filters (first :: rest) run) as [shown run1].
    cbn [fst snd] in Hd.
    destruct (group_content opts w filters (first :: rest)) as [e | content];
      destruct Hd as (-> & Hrec).
    + eexists. split; [reflexivity |]. split; [reflexivity | exact Hrec].
    + unfold Ok at 1. cbv beta iota.
      destruct (negb (TOTFILES run1 =? GTOTFILES run1) && negb (opt_quiet opts));
        eexists; (split; [reflexivity |]); (split; [reflexivity |]).
      * rewrite shown_records_emit, List.app_nil_r. exact Hrec.
      * exact Hrec.
Qed.

(** C9: for one starting path, without recursion, the run in merge mode
    and the run in default mode both finish, with the same outcome, and
    print the same records in the same order; this holds for every
    world, every list of filters and every (non-empty) sort option. *)
Theorem merge_shows_same_records (fuel : nat) (opts : Options) (w : World)
    (filters : list Filter) (path : string) (run : Run)
    (Hflat : opt_recursive opts = false)
    (Hsort : opt_sort opts <> "") :
  exists r run_merge run_default,
    show_paths (S fuel) (with_merge true opts) w filters [path] run = Some (r, run_merge) /\
    show_paths (S fuel) (with_merge false opts) w filters [path] run = Some (r, run_default) /\
    shown_records run_merge = shown_records run_default.
Proof.
  assert (HsortM : forall b, opt_sort (with_merge b opts) <> "") by (intros b; exact Hsort).
  assert (Hgc : forall b l, group_content (with_merge b opts) w filters l
                            = group_content opts w filters l) by reflexivity.
  (* one group [statlist], gathered with output [run1]: shown at the end
     in merge mode, or shown at once by [stat_directory] in default mode *)
  assert (Hgroup : forall statlist run1 (at_once : bool),
            exists r runM runD,
              (let '(shown, run2) :=
                 if nonempty statlist
                 then display_statlist (with_merge true opts) w filters statlist run1
                 else (Ok tt, run1) in
               match shown with
               | inl e => Some (Raise e, run2)
               | inr _ =>
                   if negb (TOTFILES run2 =? GTOTFILES run2) && negb (opt_quiet opts) then
                     Some (Ok tt, emit (OutGrandTotal (GTOTFILES run2) (GTOTSIZE run2)) run2)
                   else Some (Ok tt, run2)
               end) = Some (r, runM) /\
              (if at_once then
                 match display_statlist (with_merge false opts) w filters statlist run1 with
                 | (inl e, run2) => Some (Raise e, run2)
                 | (inr _, run2) =>
                     if negb (TOTFILES run2 =? GTOTFILES run2) && negb (opt_quiet opts) then
                       Some (Ok tt, emit (OutGrandTotal (GTOTFILES run2) (GTOTSIZE run2)) run2)
                     else Some (Ok tt, run2)
                 end
               else
                 let '(shown, run2) :=
                   if nonempty statlist
                   then display_statlist (with_merge false opts) w filters statlist run1
                   else (Ok tt, run1) in
                 match shown with
                 | inl e => Some (Raise e, run2)
                 | inr _ =>
                     if negb (TOTFILES run2 =? GTOTFILES run2) && negb (opt_quiet opts) then
                       Some (Ok tt, emit (OutGrandTotal (GTOTFILES run2) (GTOTSIZE run2)) run2)
                     else Some (Ok tt, run2)
                 end) = Some (r, runD) /\
              shown_records runM = shown_records runD).
  { intros statlist run1 at_once.
    destruct (show_paths_end (with_merge true opts) w filters statlist run1 (HsortM true))
      as (runM & HM).
    change (opt_quiet (with_merge true opts)) with (opt_quiet opts) in HM.
    destruct (let '(shown, run2) :=
                if nonempty statlist
                then display_statlist (with_merge true opts) w filters statlist run1
                else (Ok tt, run1) in _) as [[rM runM'] |]; [| destruct HM].
    destruct HM as (-> & HM). rewrite Hgc in HM.
    destruct at_once.
    - pose proof (display_statlist_shown (with_merge false opts) w filters statlist run1) as Hd.
      rewrite Hgc in Hd.
      destruct (display_statlist (with_merge false opts) w filters statlist run1) as [shown run2].
      cbn [fst snd] in Hd.
      destruct (group_content opts w filters statlist) as [e | content];
        destruct HM as (-> & HrM); destruct Hd as (-> & HrD).
      + do 3 eexists. split; [reflexivity |]. split; [reflexivity |]. congruence.
      + unfold Ok at 2. cbv beta iota.
        destruct (negb (TOTFILES run2 =? GTOTFILES run2) && negb (opt_quiet opts));
          do 3 eexists; (split; [reflexivity |]); (split; [reflexivity |]).
        * rewrite shown_records_emit, List.app_nil_r. congruence.
        * congruence.
    - destruct (show_paths_end (with_merge false opts) w filters statlist run1 (HsortM false))
        as (runD & HD).
      change (opt_quiet (with_merge false opts)) with (opt_quiet opts) in HD.
      destruct (let '(shown, run2) :=
                  if nonempty statlist
                  then display_statlist (with_merge false opts) w filters statlist run1
                  else (Ok tt, run1) in _) as [[rD runD'] |]; [| destruct HD].
      destruct HD as (-> & HD). rewrite Hgc in HD.
      destruct (group_content opts w filters statlist) as [e | content];
        destruct HM as (-> & HrM); destruct HD as (-> & HrD);
        do 3 eexists; (split; [reflexivity |]); (split; [reflexivity |]); congruence. }
  (* nothing gathered *)
  assert (Hnone : forall run1,
            (if negb (TOTFILES run1 =? GTOTFILES run1) && negb (opt_quiet opts) then
               Some (Ok tt, emit (OutGrandTotal (GTOTFILES run1) (GTOTSIZE run1)) run1)
             else Some (@Ok unit tt, run1))
            = Some (Ok tt, if negb (TOTFILES run1 =? GTOTFILES run1) && negb (opt_quiet opts)
                           then emit (OutGrandTotal (GTOTFILES run1) (GTOTSIZE run1)) run1
                           else run1)).
  { intros run1. destruct (_ && _); reflexivity. }
  unfold show_paths. cbn [show_loop]. unfold Ok, Raise in *.
  change (opt_directory (with_merge true opts)) with (opt_directory opts).
  change (opt_directory (with_merge false opts)) with (opt_directory opts).
  change (opt_quiet (with_merge true opts)) with (opt_quiet opts).
  change (opt_quiet (with_merge false opts)) with (opt_quiet opts).
  destruct (isdir w path && negb (opt_directory opts)).
  - (* a directory: [stat_directory] *)
    cbn [stat_directory].
    change (opt_all (with_merge true opts)) with (opt_all opts).
    change (opt_all (with_merge false opts)) with (opt_all opts).
    change (opt_recursive (with_merge true opts)) with (opt_recursive opts).
    change (opt_recursive (with_merge false opts)) with (opt_recursive opts).
    change (opt_merge (with_merge true opts)) with true.
    change (opt_merge (with_merge false opts)) with false.
    rewrite Hflat. cbn [negb]. unfold Ok, Raise.
    destruct (listdir w path) as [msg | files].
    { cbn [app nonempty]. rewrite Hnone. do 3 eexists; (split; [reflexivity |]); split; reflexivity. }
    destruct (if opt_all opts then _ else visible files) as [e | [| f files']].
    { do 3 eexists; (split; [reflexivity |]); split; reflexivity. }
    { cbn [app nonempty]. rewrite Hnone. do 3 eexists; (split; [reflexivity |]); split; reflexivity. }
    destruct (stat_files w (List.map (path_join w path) (f :: files')) run) as [statlist run1].
    cbn [app].
    destruct (Hgroup statlist run1 true) as (r & runM & runD & HM & HD & Hrec).
    exists r, runM, runD. split; [exact HM |]. split; [| exact Hrec].
    destruct (display_statlist (with_merge false opts) w filters statlist run1) as [[e | u] run2];
      exact HD.
  - (* not a directory, or [--directory]: the path itself *)
    destruct (stat_files w [path] run) as [statlist run1]. cbn [app].
    destruct (Hgroup statlist run1 false) as (r & runM & runD & HM & HD & Hrec).
    exists r, runM, runD. split; [exact HM |]. split; [exact HD | exact Hrec].
Qed.

Lemma merge_shows_same_records_witness :
  let filters := registered Posix.world (PyFloat.of_Z 0) "size" "1k" in
  opt_recursive example_opts = false /\
  opt_sort example_opts <> "" /\
  exists r run_merge run_default,
    show_paths 1 (with_merge true example_opts) Posix.world filters ["proj"] start
    = Some (r, run_merge) /\
    show_paths 1 (with_merge false example_opts) Posix.world filters ["proj"] start
    = Some (r, run_default) /\
    shown_records run_merge = shown_records run_default /\
    List.map name (shown_records run_default) = ["dangling"; "a.txt"].
Proof.
  intros filters.
  assert (Hsort : opt_sort example_opts <> "") by discriminate.
  split; [reflexivity |]. split; [exact Hsort |].
  destruct (merge_shows_same_records 0 example_opts Posix.world filters "proj" start
              eq_refl Hsort) as (r & run_merge & run_default & HM & HD & Hrec).
  exists r, run_merge, run_default.
  split; [exact HM |]. split; [exact HD |]. split; [exact Hrec |].
  vm_compute in HD. injection HD as _ <-. reflexivity.
Defined.

(** ** C7: sorting *)

Section KeySortFacts.

Context {A K : Type} (lt : K -> K -> bool) (key : A -> K).

Hypothesis lt_asym : forall a b, lt a b = true -> lt b a = false.
Hypothesis lt_cotrans : forall a b c, lt a c = true -> lt a b = true \/ lt b c = true.

(** the decorated sort of [list_sort] is the sort on the items *)
Lemma insert_by_decorated (x : A) (l : list A) :
  insert_by lt (key x, x) (List.map (fun y => (key y, y)) l)
  = List.map (fun y => (key y, y)) (insert_key lt key x l).
Proof.
  induction l as [| y r IH]; cbn [insert_by insert_key List.map fst]; [reflexivity |].
  destruct (lt (key y) (key x)); cbn [List.map]; [rewrite IH |]; reflexivity.
Qed.

Lemma stable_sort_decorated (l : list A) :
  List.map snd (stable_sort lt (List.map (fun y => (key y, y)) l)) = sort_by_key lt key l.
Proof.
  assert (H : stable_sort lt (List.map (fun y => (key y, y)) l)
              = List.map (fun y => (key y, y)) (sort_by_key lt key l)).
  { induction l as [| x r IH]; [reflexivity |].
    cbn [List.map]. unfold stable_sort, sort_by_key in *. cbn [List.fold_right].
    rewrite IH. apply insert_by_decorated. }
  rewrite H, List.map_map. cbn [snd]. apply List.map_id.
Qed.

Lemma insert_key_perm (x : A) (l : list A) : Permutation (x :: l) (insert_key lt key x l).
Proof.
  induction l as [| y r IH]; cbn [insert_key]; [reflexivity |].
  destruct (lt (key y) (key x)); [| reflexivity].
  rewrite perm_swap. apply perm_skip, IH.
Qed.

Lemma sort_by_key_perm (l : list A) : Permutation l (sort_by_key lt key l).
Proof.
  induction l as [| x r IH]; [reflexivity |].
  unfold sort_by_key in *. cbn [List.fold_right].
  rewrite <- insert_key_perm. apply perm_skip, IH.
Qed.

Lemma insert_key_sorted (R : A -> A -> Prop) (x : A) (l : list A) :
  StronglySorted (refined lt key R) l -> Forall (R x) l ->
  StronglySorted (refined lt key R) (insert_key lt key x l).
Proof.
  induction l as [| y r IH]; intros Hs Hx; cbn [insert_key].
  - constructor; constructor.
  - inversion Hs as [| ? ? Hsr Hy]; subst. inversion Hx as [| ? ? Hxy Hxr]; subst.
    destruct (lt (key y) (key x)) eqn:Hlt.
    + constructor; [apply IH; assumption |].
      rewrite <- insert_key_perm. constructor; [left; exact Hlt | exact Hy].
    + constructor; [exact Hs |].
      constructor; [right; split; assumption |].
      rewrite Forall_forall in Hy, Hxr |- *. intros z Hz.
      right. split; [| apply Hxr, Hz].
      destruct (lt (key z) (key x)) eqn:Hzx; [| reflexivity].
      destruct (lt_cotrans _ (key y) _ Hzx) as [Hzy | Hyx]; [| congruence].
      destruct (Hy z Hz) as [Hyz | [Hzy' _]]; [| congruence].
      apply lt_asym in Hyz. congruence.
Qed.

Lemma sort_by_key_sorted (R : A -> A -> Prop) (l : list A) :
  StronglySorted R l -> StronglySorted (refined lt key R) (sort_by_key lt key l).
Proof.
  induction 1 as [| x r Hs IH Hx]; [constructor |].
  unfold sort_by_key in *. cbn [List.fold_right].
  apply insert_key_sorted; [exact IH |].
  fold (sort_by_key lt key r). rewrite <- sort_by_key_perm. exact Hx.
Qed.

(** the sort is stable: items that do not differ in the key keep their
    order *)
Lemma insert_key_stable (P : A -> bool) (x : A) (l : list A) :
  (forall a b, P a = true -> P b = true -> lt (key a) (key b) = false) ->
  List.filter P (insert_key lt key x l) = List.filter P (x :: l).
Proof.
  intros HP. induction l as [| y r IH]; cbn [insert_key]; [reflexivity |].
  destruct (lt (key y) (key x)) eqn:Hlt; [| reflexivity].
  cbn [List.filter] in *. rewrite IH.
  destruct (P y) eqn:Hy, (P x) eqn:Hx; try reflexivity.
  rewrite (HP y x Hy Hx) in Hlt. discriminate.
Qed.

Lemma sort_by_key_stable (P : A -> bool) (l : list A) :
  (forall a b, P a = true -> P b = true -> lt (key a) (key b) = false) ->
  List.filter P (sort_by_key lt key l) = List.filter P l.
Proof.
  intros HP. induction l as [| x r IH]; [reflexivity |].
  unfold sort_by_key in *. cbn [List.fold_right].
  rewrite insert_key_stable by exact HP. cbn [List.filter]. rewrite IH. reflexivity.
Qed.

End KeySortFacts.

(** *** The order of field values *)

Lemma ascii_compare_N (x y : ascii) :
  Ascii.compare x y = (N_of_ascii x ?= N_of_ascii y)%N.
Proof. reflexivity. Qed.

Lemma string_compare_trans (a b c : string) :
  String.compare a b = Lt -> String.compare b c = Lt -> String.compare a c = Lt.
Proof.
  revert b c. induction a as [| x a IH]; intros [| y b] [| z c]; cbn [String.compare];
    try discriminate; try reflexivity.
  rewrite !ascii_compare_N.
  destruct (N.compare_spec (N_of_ascii x) (N_of_ascii y)) as [Hxy | Hxy | Hxy];
    destruct (N.compare_spec (N_of_ascii y) (N_of_ascii z)) as [Hyz | Hyz | Hyz];
    destruct (N.compare_spec (N_of_ascii x) (N_of_ascii z)) as [Hxz | Hxz | Hxz];
    try discriminate; try reflexivity; try lia.
  intros H1 H2. exact (IH _ _ H1 H2).
Qed.

Lemma string_ltb_lt (a b : string) : String.ltb a b = true <-> String.compare a b = Lt.
Proof. unfold String.ltb. destruct (String.compare a b); split; congruence. Qed.

Lemma py_lt_asym (a b : pyval) : py_lt a b = true -> py_lt b a = false.
Proof.
  destruct a as [x | x], b as [y | y]; cbn [py_lt]; try congruence.
  - intros H. apply Z.ltb_lt in H. apply Z.ltb_ge. lia.
  - rewrite string_ltb_lt. intros H. unfold String.ltb.
    rewrite String.compare_antisym, H. reflexivity.
Qed.

Lemma py_lt_total (a b : pyval) : py_lt a b = false -> py_lt b a = false -> a = b.
Proof.
  destruct a as [x | x], b as [y | y]; cbn [py_lt]; try congruence.
  - intros H1 H2. apply Z.ltb_ge in H1, H2. f_equal. lia.
  - unfold String.ltb. rewrite (String.compare_antisym y x).
    destruct (String.compare x y) eqn:Hc; cbn [CompOpp]; try discriminate.
    intros _ _. f_equal. apply String.compare_eq_iff, Hc.
Qed.

Lemma py_lt_irrefl (a : pyval) : py_lt a a = false.
Proof.
  destruct (py_lt a a) eqn:H; [| reflexivity].
  pose proof (py_lt_asym _ _ H). congruence.
Qed.

Lemma py_lt_trans (a b c : pyval) : py_lt a b = true -> py_lt b c = true -> py_lt a c = true.
Proof.
  destruct a as [x | x], b as [y | y], c as [z | z]; cbn [py_lt]; try congruence.
  - rewrite !Z.ltb_lt. lia.
  - rewrite !string_ltb_lt. apply string_compare_trans.
Qed.

Lemma py_lt_cotrans (a b c : pyval) : py_lt a c = true -> py_lt a b = true \/ py_lt b c = true.
Proof.
  intros Hac. destruct (py_lt a b) eqn:Hab; [left; reflexivity | right].
  destruct (py_lt b a) eqn:Hba.
  - exact (py_lt_trans _ _ _ Hba Hac).
  - rewrite <- (py_lt_total _ _ Hab Hba). exact Hac.
Qed.

Lemma pass_lt_asym (reverse : bool) (a b : pyval) :
  pass_lt reverse a b = true -> pass_lt reverse b a = false.
Proof. destruct reverse; apply py_lt_asym. Qed.

Lemma pass_lt_cotrans (reverse : bool) (a b c : pyval) :
  pass_lt reverse a c = true -> pass_lt reverse a b = true \/ pass_lt reverse b c = true.
Proof.
  destruct reverse; cbn [pass_lt]; intros H.
  - destruct (py_lt_cotrans _ b _ H); [right | left]; assumption.
  - apply py_lt_cotrans, H.
Qed.

Lemma pass_lt_total (reverse : bool) (a b : pyval) :
  pass_lt reverse a b = false -> pass_lt reverse b a = false -> a = b.
Proof.
  destruct reverse; cbn [pass_lt]; intros H1 H2;
    [symmetry |]; apply py_lt_total; assumption.
Qed.

Lemma pass_lt_irrefl (reverse : bool) (a : pyval) : pass_lt reverse a a = false.
Proof. destruct reverse; apply py_lt_irrefl. Qed.

(** *** One pass and all passes *)

Lemma getitem_valid (r : FileStats) (c : ascii) :
  c ∈ field_letters -> getitem r c = Ok (field_of c r).
Proof.
  intros Hc. change field_letters with
    ["M"; "i"; "d"; "N"; "u"; "g"; "s"; "a"; "m"; "c"; "p"; "n"; "f"; "t"; "T"]%char in Hc.
  repeat (apply elem_of_cons in Hc; destruct Hc as [-> | Hc]; [reflexivity |]).
  apply elem_of_nil in Hc. destruct Hc.
Qed.

Lemma decorate_valid (c : ascii) (l : list FileStats) :
  c ∈ field_letters ->
  decorate (fun r => getitem r c) l = Ok (List.map (fun r => (field_of c r, r)) l).
Proof.
  intros Hc. induction l as [| r rest IH]; cbn [decorate List.map]; [reflexivity |].
  rewrite (getitem_valid r c Hc), IH. reflexivity.
Qed.

(** one pass of [sort_stats] is the stable sort by the field of its letter *)
Lemma list_sort_pass (c : ascii) (reverse : bool) (l : list FileStats) :
  c ∈ field_letters ->
  list_sort py_lt (fun r => getitem r c) reverse l
  = Ok (sort_by_key (pass_lt reverse) (field_of c) l).
Proof.
  intros Hc. unfold list_sort. rewrite (decorate_valid c l Hc).
  unfold Ok at 1. cbv beta iota. f_equal.
  rewrite <- (stable_sort_decorated (pass_lt reverse) (field_of c) l).
  destruct reverse; reflexivity.
Qed.

Lemma strongly_sorted_weaken {A : Type} (R R' : A -> A -> Prop) (l : list A) :
  (forall a b, R a b -> R' a b) -> StronglySorted R l -> StronglySorted R' l.
Proof.
  intros HR. induction 1 as [| x r Hs IH Hx]; constructor; [exact IH |].
  eapply Forall_impl; [exact Hx |]. intros b. apply HR.
Qed.

Lemma strongly_sorted_any {A : Type} (l : list A) : StronglySorted (fun _ _ => True) l.
Proof.
  induction l as [| x r IH]; constructor; [exact IH |].
  apply Forall_forall. intros; exact I.
Qed.

Lemma sort_passes_spec (reverse : bool) (todo done : list ascii) (l : list FileStats) :
  Forall (fun c => c ∈ field_letters) todo ->
  StronglySorted (lex_le reverse done) l ->
  exists l',
    sort_passes todo reverse l = Ok l' /\
    Permutation l l' /\
    StronglySorted (lex_le reverse (List.rev todo ++ done)) l' /\
    (forall P : FileStats -> bool,
       (forall a b, P a = true -> P b = true -> same_keys todo a b) ->
       List.filter P l' = List.filter P l).
Proof.
  intros Hvalid. revert done l.
  induction Hvalid as [| c rest Hc _ IH]; intros done l Hs.
  - exists l. repeat split; [reflexivity | exact Hs].
  - cbn [sort_passes]. rewrite (list_sort_pass c reverse l Hc).
    unfold Ok at 1. cbv beta iota.
    set (l1 := sort_by_key (pass_lt reverse) (field_of c) l).
    assert (Hs1 : StronglySorted (lex_le reverse (c :: done)) l1).
    { apply (strongly_sorted_weaken
               (refined (pass_lt reverse) (field_of c) (lex_le reverse done))).
      - intros a b [Hlt | [Hge Hr]]; cbn [lex_le]; [left; exact Hlt |].
        destruct (pass_lt reverse (field_of c a) (field_of c b)) eqn:Hab;
          [left; reflexivity | right].
        split; [apply (pass_lt_total reverse); assumption | exact Hr].
      - apply sort_by_key_sorted;
          [apply pass_lt_asym | apply pass_lt_cotrans | exact Hs]. }
    destruct (IH (c :: done) l1 Hs1) as (l' & Hl' & Hperm & Hsorted & Hstable).
    exists l'. split; [exact Hl' |]. split; [| split].
    + rewrite <- Hperm. apply sort_by_key_perm.
    + cbn [List.rev]. rewrite <- List.app_assoc. exact Hsorted.
    + intros P HP. rewrite Hstable.
      * apply sort_by_key_stable. intros a b Ha Hb.
        specialize (HP a b Ha Hb). inversion HP as [| ? ? Heq _]; subst.
        rewrite Heq. apply pass_lt_irrefl.
      * intros a b Ha Hb. specialize (HP a b Ha Hb). inversion HP; assumption.
Qed.




Lemma chars_append (a b : string) :
  PyStr.chars (a +:+ b) = (PyStr.chars a ++ PyStr.chars b)%list.
Proof.
  unfold PyStr.chars. induction a as [| x a IH]; [reflexivity |].
  simpl. f_equal. exact IH.
Qed.



Lemma arg_has_plus_sort (sort_fields : string) (reverse : bool) :
  Forall (fun c => c ∈ field_letters) (PyStr.chars sort_fields) -> sort_fields <> "" ->
  arg_has_plus ((if reverse then "+" else "") +:+ sort_fields) = Some (sort_fields, reverse).
Proof.
  intros Hvalid Hne. destruct reverse; [reflexivity |].
  destruct sort_fields as [| c rest]; [congruence |].
  simpl.
  destruct (Ascii.eqb_spec c "+") as [-> | _]; [| reflexivity].
  inversion Hvalid as [| ? ? Hc _]; subst.
  apply list_elem_of_In in Hc. cbn in Hc. intuition discriminate.
Qed.



(* ===================================================================== *)
(** * Further properties of the program *)
(* ===================================================================== *)

(** ** Printing and reading numbers *)

Lemma digit_cases (c : ascii) :
  PyStr.is_digit c = true ->
  List.In c ["0"; "1"; "2"; "3"; "4"; "5"; "6"; "7"; "8"; "9"]%char.
Proof.
  destruct c as [[] [] [] [] [] [] [] []]; intros H; try discriminate H; cbn; tauto.
Qed.

Lemma digit_char (d : Z) :
  0 <= d < 10 ->
  PyStr.is_digit (ascii_of_N (Z.to_N (48 + d))) = true /\
  PyStr.digit_val (ascii_of_N (Z.to_N (48 + d))) = d.
Proof.
  intros H.
  assert (Hd : d = 0 \/ d = 1 \/ d = 2 \/ d = 3 \/ d = 4 \/ d = 5 \/ d = 6 \/ d = 7 \/
               d = 8 \/ d = 9) by lia.
  repeat (destruct Hd as [-> | Hd]; [split; reflexivity |]). subst d. split; reflexivity.
Qed.

(** reading back the digits that were printed *)
Lemma digits_decimal (fuel : nat) (n : Z) (acc : list ascii) :
  0 <= n < 2 ^ Z.of_nat fuel -> (0 < fuel)%nat ->
  exists j, 0 < j /\
    (forall a k, PyFloat.digits (decimal_digits fuel n acc) a k
                 = PyFloat.digits acc (a * 10 ^ j + n) (k + j)) /\
    (exists c r, decimal_digits fuel n acc = c :: r /\ PyStr.is_digit c = true).
Proof.
  revert n acc. induction fuel as [| fuel IH]; intros n acc Hn Hf; [lia |].
  cbn [decimal_digits].
  assert (Hmod : 0 <= n mod 10 < 10) by (apply Z.mod_pos_bound; lia).
  destruct (digit_char (n mod 10) Hmod) as (Hdig & Hval).
  destruct (Z.ltb_spec n 10) as [Hlt | Hge].
  - exists 1. split; [lia |]. split.
    + intros a k. cbn [PyFloat.digits]. rewrite Hdig, Hval.
      rewrite Z.mod_small by lia. f_equal. f_equal. lia.
    + eexists _, _. split; [reflexivity | exact Hdig].
  - assert (Hdiv : 0 <= n / 10 < 2 ^ Z.of_nat fuel).
    { split; [apply Z.div_pos; lia |].
      apply Z.div_lt_upper_bound; [lia |].
      rewrite Nat2Z.inj_succ, Z.pow_succ_r in Hn by lia. lia. }
    assert (Hfuel : (0 < fuel)%nat).
    { destruct fuel; [| lia]. cbn in Hdiv. assert (n / 10 = 0) by lia.
      pose proof (Z.div_le_lower_bound n 10 1 ltac:(lia) ltac:(lia)). lia. }
    destruct (IH (n / 10) (ascii_of_N (Z.to_N (48 + n mod 10)) :: acc) Hdiv Hfuel)
      as (j & Hj & Hparse & Hhead).
    exists (j + 1). split; [lia |]. split; [| exact Hhead].
    intros a k. rewrite Hparse. cbn [PyFloat.digits]. rewrite Hdig, Hval.
    f_equal; [| lia]. rewrite Z.pow_add_r, Z.pow_1_r by lia.
    replace (a * (10 ^ j * 10)) with (10 * (a * 10 ^ j)) by ring.
    pose proof (Z.div_mod n 10 ltac:(lia)). lia.
Qed.

Lemma decimal_digits_all (fuel : nat) (n : Z) (acc : list ascii) :
  0 <= n -> Forall (fun c => PyStr.is_digit c = true) acc ->
  Forall (fun c => PyStr.is_digit c = true) (decimal_digits fuel n acc).
Proof.
  revert n acc. induction fuel as [| fuel IH]; intros n acc Hn Hacc; [exact Hacc |].
  cbn [decimal_digits].
  assert (Hmod : 0 <= n mod 10 < 10) by (apply Z.mod_pos_bound; lia).
  destruct (digit_char (n mod 10) Hmod) as (Hdig & _).
  destruct (n <? 10); [constructor; assumption |].
  apply IH; [apply Z.div_pos; lia | constructor; assumption].
Qed.

Lemma log2_fuel (a : Z) : 0 <= a -> 0 <= a < 2 ^ Z.of_nat (S (Z.to_nat (Z.log2 a))).
Proof.
  intros Ha. split; [exact Ha |].
  rewrite Nat2Z.inj_succ, Z2Nat.id by apply Z.log2_nonneg.
  destruct (Z.eq_dec a 0) as [-> | Hnz]; [reflexivity |].
  apply Z.log2_spec. lia.
Qed.

Lemma digit_not_space (c : ascii) : PyStr.is_digit c = true -> PyStr.is_space c = false.
Proof.
  intros H. apply digit_cases in H. cbn in H.
  repeat (destruct H as [<- | H]; [reflexivity |]). destruct H.
Qed.

(** white space is only taken off the ends *)
Lemma lstrip_nospace (l : list ascii) :
  Forall (fun c => PyStr.is_space c = false) l -> PyStr.lstrip l = l.
Proof.
  intros H. destruct H as [| c r Hc _]; [reflexivity |]. cbn [PyStr.lstrip]. rewrite Hc. reflexivity.
Qed.

Lemma strip_nospace (l : list ascii) :
  Forall (fun c => PyStr.is_space c = false) l -> PyStr.strip l = l.
Proof.
  intros H. unfold PyStr.strip. rewrite (lstrip_nospace l H).
  rewrite lstrip_nospace; [apply List.rev_involutive |].
  apply List.Forall_rev. exact H.
Qed.

Lemma strip_blanks (k : nat) (l : list ascii) :
  PyStr.strip (List.repeat " "%char k ++ l) = PyStr.strip l.
Proof.
  unfold PyStr.strip. f_equal. f_equal. f_equal.
  induction k as [| k IH]; [reflexivity | exact IH].
Qed.

Lemma digits_nospace (l : list ascii) :
  Forall (fun c => PyStr.is_digit c = true) l -> Forall (fun c => PyStr.is_space c = false) l.
Proof.
  intros H. eapply List.Forall_impl; [| exact H]. exact digit_not_space.
Qed.

(** the characters of [str(v)]: a minus sign for a negative number, then
    the decimal digits of the magnitude *)
Lemma py_str_chars (v : Z) :
  exists D j,
    PyStr.chars (py_str v) = (if v <? 0 then "-"%char :: D else D) /\
    Forall (fun c => PyStr.is_digit c = true) D /\
    0 < j /\
    (forall a k, PyFloat.digits D a k = (a * 10 ^ j + Z.abs v, k + j, [])) /\
    (exists c r, D = c :: r /\ PyStr.is_digit c = true).
Proof.
  set (a := Z.abs v).
  assert (Ha : 0 <= a) by (unfold a; lia).
  destruct (digits_decimal (S (Z.to_nat (Z.log2 a))) a [] (log2_fuel a Ha) ltac:(lia))
    as (j & Hj & Hparse & Hhead).
  exists (decimal_digits (S (Z.to_nat (Z.log2 a))) a []), j.
  split; [| split; [| split; [exact Hj | split; [| exact Hhead]]]].
  - unfold py_str. fold a. destruct (v <? 0).
    + unfold PyStr.chars. cbn [list_ascii_of_string]. f_equal. apply chars_of_chars.
    + apply chars_of_chars.
  - apply decimal_digits_all; [exact Ha | constructor].
  - intros a0 k. rewrite Hparse. reflexivity.
Qed.

Lemma sign_digit (c : ascii) (r : list ascii) :
  PyStr.is_digit c = true -> PyFloat.sign (c :: r) = (false, c :: r).
Proof.
  intros H. apply digit_cases in H. cbn in H.
  repeat (destruct H as [<- | H]; [reflexivity |]). destruct H.
Qed.

(** [int(str(v)) == v] *)
Lemma py_int_py_str (v : Z) : py_int (py_str v) = Some v.
Proof.
  destruct (py_str_chars v) as (D & j & Hchars & Hall & Hj & Hparse & c & r & HD & Hc).
  unfold py_int. rewrite Hchars.
  assert (Hns : Forall (fun c => PyStr.is_space c = false) D) by (apply digits_nospace, Hall).
  destruct (Z.ltb_spec v 0) as [Hneg | Hpos].
  - rewrite strip_nospace by (constructor; [reflexivity | exact Hns]).
    cbn [PyFloat.sign]. rewrite Hparse.
    destruct (Z.ltb_spec 0 (0 + j)); [| lia]. f_equal. lia.
  - rewrite strip_nospace by exact Hns. rewrite HD, (sign_digit c r Hc), <- HD, Hparse.
    destruct (Z.ltb_spec 0 (0 + j)); [| lia]. f_equal. lia.
Qed.

Lemma digit_word (c : ascii) (r : list ascii) (w : string) (i : ascii) :
  PyStr.is_digit c = true -> PyStr.is_digit i = false ->
  String.eqb (PyStr.of_chars (List.map PyStr.lower (c :: r))) (String i w) = false.
Proof.
  intros Hc Hi. cbn [List.map PyStr.of_chars string_of_list_ascii String.eqb].
  assert (Hlow : PyStr.lower c = c).
  { apply digit_cases in Hc. cbn in Hc.
    repeat (destruct Hc as [<- | Hc]; [reflexivity |]). destruct Hc. }
  rewrite Hlow. destruct (Ascii.eqb_spec c i) as [-> | _]; [congruence | reflexivity].
Qed.

(** the float a decimal integer literal stands for: blanks in front are
    skipped, and the digits are read as the number they print *)
Lemma of_string_decimal (k : nat) (v : Z) :
  PyFloat.of_chars (List.repeat " "%char k ++ PyStr.chars (py_str v)) = Some (PyFloat.of_Z v).
Proof.
  destruct (py_str_chars v) as (D & j & Hchars & Hall & Hj & Hparse & c & r & HD & Hc).
  unfold PyFloat.of_chars. rewrite strip_blanks, Hchars.
  assert (Hns : Forall (fun c => PyStr.is_space c = false) D) by (apply digits_nospace, Hall).
  assert (Hsign : PyFloat.sign (PyStr.strip (if v <? 0 then "-"%char :: D else D))
                  = (v <? 0, D)).
  { destruct (v <? 0).
    - rewrite strip_nospace by (constructor; [reflexivity | exact Hns]). reflexivity.
    - rewrite strip_nospace by exact Hns. rewrite HD. apply sign_digit, Hc. }
  assert (Hw : forall i w, PyStr.is_digit i = false ->
               String.eqb (PyStr.of_chars (List.map PyStr.lower D)) (String i w) = false).
  { intros i w Hi. rewrite HD. apply digit_word; assumption. }
  rewrite Hsign. cbv beta iota.
  rewrite !Hw by reflexivity. cbn [orb].
  rewrite Hparse. cbv beta iota. cbn [PyFloat.exponent].
  destruct (Z.eqb_spec (0 + j + 0) 0) as [Hz | _]; [lia |].
  unfold PyFloat.of_decimal. cbn [Z.sub Z.opp Z.add Z.leb Z.compare].
  change (0 <=? 0 - 0) with true. cbv iota.
  unfold PyFloat.of_Z. f_equal. f_equal.
  rewrite Z.mul_0_l, Z.add_0_l. change (10 ^ (0 - 0)) with 1. rewrite Z.mul_1_r.
  apply signed_abs.
Qed.

(** a number below [2^53] is a float, and [int] gives it back *)
Lemma to_int_of_Z (v : Z) : Z.abs v < 2 ^ 53 -> PyFloat.to_int (PyFloat.of_Z v) = Ok v.
Proof.
  intros H. rewrite of_Z_exact by exact H. rewrite to_int_norm.
  unfold PyFloat.trunc. cbn. rewrite Z.mul_1_r. reflexivity.
Qed.

Lemma last_char_digits (pre D : list ascii) (s : string) :
  PyStr.chars s = (pre ++ D)%list -> D <> [] ->
  Forall (fun c => PyStr.is_digit c = true) D ->
  exists d, PyStr.last_char s = Some d /\ PyStr.is_digit d = true.
Proof.
  intros Hs Hne Hall. destruct (List.exists_last Hne) as (l' & d & ->).
  exists d. split.
  - unfold PyStr.last_char. rewrite Hs, List.app_assoc, List.map_app. cbn [List.map].
    apply List.last_last.
  - apply Forall_app in Hall. destruct Hall as [_ Hd]. inversion Hd; assumption.
Qed.

Lemma digit_not_letter (d : ascii) (letters : string) :
  PyStr.is_digit d = true ->
  List.forallb (fun c => negb (PyStr.is_digit c)) (PyStr.chars letters) = true ->
  PyStr.mem d letters = false.
Proof.
  intros Hd. unfold PyStr.mem. induction (PyStr.chars letters) as [| c r IH]; [reflexivity |].
  cbn [List.forallb List.existsb]. intros H. apply andb_true_iff in H. destruct H as [Hc Hr].
  rewrite (IH Hr), orb_false_r. destruct (Ascii.eqb_spec d c) as [-> | _]; [| reflexivity].
  rewrite Hd in Hc. discriminate Hc.
Qed.

(* ===================================================================== *)
(** ** Typed scalars: display and parsing together *)
(* ===================================================================== *)

Lemma filesize_str_chars (v : Z) :
  exists k, PyStr.chars (FileSize_str v) = (List.repeat " "%char k ++ PyStr.chars (py_str v))%list.
Proof.
  exists (10 - String.length (py_str v))%nat. unfold FileSize_str, rjust.
  rewrite chars_append, chars_of_chars. reflexivity.
Qed.

(** X1: a size below [2^53] in magnitude that [FileSize.__str__] printed
    is read back by [FileSize.from_string] as the same number, which is
    then cached under the printed string; so [FileSize(v) == str(FileSize(v))]. *)
Theorem filesize_str_round_trip (known : gmap string Z) (v : Z)
    (Hrange : Z.abs v < 2 ^ 53)
    (Hmiss : known !! FileSize_str v = None) :
  FileSize.from_string known (FileSize_str v) = (Ok v, <[FileSize_str v := v]> known) /\
  fst (FileSize.compare OpEq v (OStr (FileSize_str v)) known) = Ok true.
Proof.
  assert (Hfrom : FileSize.from_string known (FileSize_str v)
                  = (Ok v, <[FileSize_str v := v]> known)).
  { destruct (filesize_str_chars v) as (k & Hk).
    destruct (py_str_chars v) as (D & j & Hchars & Hall & _ & _ & c & r & HD & _).
    assert (Hlast : exists d, PyStr.last_char (FileSize_str v) = Some d /\
                              PyStr.is_digit d = true).
    { destruct (v <? 0).
      - apply (last_char_digits (List.repeat " "%char k ++ ["-"%char]) D).
        + rewrite Hk, Hchars, <- List.app_assoc. reflexivity.
        + rewrite HD. discriminate.
        + exact Hall.
      - apply (last_char_digits (List.repeat " "%char k) D).
        + rewrite Hk, Hchars. reflexivity.
        + rewrite HD. discriminate.
        + exact Hall. }
    destruct Hlast as (d & Hlast & Hd).
    unfold FileSize.from_string. rewrite Hmiss, Hlast.
    rewrite (digit_not_letter d "bkmg" Hd) by reflexivity. cbn [negb].
    unfold PyFloat.of_string. rewrite Hk, of_string_decimal.
    rewrite (to_int_of_Z v Hrange). reflexivity. }
  split; [exact Hfrom |].
  unfold FileSize.compare, wrapper. rewrite Hfrom. unfold Ok. cbn [fst int_cmp].
  rewrite Z.eqb_refl. reflexivity.
Qed.

Lemma filesize_str_round_trip_witness :
  FileSize_str 1234 = "      1234" /\
  FileSize.from_string ∅ (FileSize_str 1234) = (Ok 1234, <[FileSize_str 1234 := 1234]> ∅).
Proof.
  split; [reflexivity |].
  apply (filesize_str_round_trip ∅ 1234); [reflexivity | apply lookup_empty].
Defined.

(** X2: on a system that is not Windows, the name [Uid.__str__] (or
    [Gid.__str__]) gives for an id is turned back into that id by
    [Uid.from_str] (or [Gid.from_str]): either the id has no name and is
    printed as a number, or its name must not read as a number and the
    database must map it back to the id. *)
Theorem owner_str_round_trip (w : World) (getpwuid getgrgid : Z -> option string)
    (known_ids : gmap Z string) (known : gmap string Z) (v : Z)
    (Hposix : os_is_windows w = false)
    (Hfresh : known_ids !! v = None)
    (Hpw : forall name, getpwuid v = Some name ->
             py_int name = None /\ getpwnam w name = Some v)
    (Hgr : forall name, getgrgid v = Some name ->
             py_int name = None /\ getgrnam w name = Some v) :
  (known !! fst (Uid_str w getpwuid known_ids v) = None ->
   fst (Uid.from_str w known (fst (Uid_str w getpwuid known_ids v))) = Ok v) /\
  (known !! fst (Gid_str w getgrgid known_ids v) = None ->
   fst (Gid.from_str w known (fst (Gid_str w getgrgid known_ids v))) = Ok v).
Proof.
  split; intros Hmiss.
  - revert Hmiss. unfold Uid_str. rewrite Hfresh, Hposix. cbn [fst]. intros Hmiss.
    unfold Uid.from_str. rewrite Hmiss, Hposix.
    destruct (getpwuid v) as [name |] eqn:Hname.
    + destruct (Hpw name eq_refl) as [Hint Hnam]. rewrite Hint, Hnam. reflexivity.
    + rewrite py_int_py_str. reflexivity.
  - revert Hmiss. unfold Gid_str. rewrite Hfresh, Hposix. cbn [fst]. intros Hmiss.
    unfold Gid.from_str. rewrite Hmiss, Hposix.
    destruct (getgrgid v) as [name |] eqn:Hname.
    + destruct (Hgr name eq_refl) as [Hint Hnam]. rewrite Hint, Hnam. reflexivity.
    + rewrite py_int_py_str. reflexivity.
Qed.

Lemma owner_str_round_trip_witness :
  let getpwuid := fun id : Z => if id =? 0 then Some "root" else None in
  fst (Uid_str Posix.world getpwuid ∅ 0) = "root" /\
  fst (Uid.from_str Posix.world ∅ (fst (Uid_str Posix.world getpwuid ∅ 0))) = Ok 0 /\
  fst (Gid_str Posix.world (fun _ => None) ∅ 0) = "0".
Proof.
  cbv zeta. split; [reflexivity |]. split; [| reflexivity].
  refine (proj1 (owner_str_round_trip Posix.world
                   (fun id : Z => if id =? 0 then Some "root" else None) (fun _ => None)
                   ∅ ∅ 0 _ _ _ _) _).
  - reflexivity.
  - apply lookup_empty.
  - intros name H. injection H as <-. split; reflexivity.
  - intros name H. discriminate H.
  - apply lookup_empty.
Defined.

(** a parser that looks its argument up in the cache first, and caches
    only what it has just computed, cannot be told from the parser
    without a cache as long as the cache is coherent *)
Lemma memo_transparent (parse : gmap string Z -> string -> result Z * gmap string Z)
    (body : string -> result Z) :
  (forall known s,
     fst (parse known s) = match known !! s with Some v => Ok v | None => body s end /\
     (snd (parse known s) = known \/
      exists n, known !! s = None /\ body s = Ok n /\ snd (parse known s) = <[s := n]> known)) ->
  forall known s,
    coherent parse known ->
    fst (parse known s) = fst (parse ∅ s) /\
    coherent parse (snd (parse known s)) /\
    known ⊆ snd (parse known s).
Proof.
  intros Hshape known s Hcoh.
  assert (Hbody : forall s, fst (parse ∅ s) = body s).
  { intros s0. destruct (Hshape ∅ s0) as [H _]. rewrite H, lookup_empty. reflexivity. }
  destruct (Hshape known s) as [Hres Hcache]. split; [| split].
  - rewrite Hres, Hbody. destruct (known !! s) as [v |] eqn:Hs; [| reflexivity].
    rewrite <- Hbody. symmetry. apply Hcoh, Hs.
  - destruct Hcache as [-> | (n & Hs & Hn & ->)]; [exact Hcoh |].
    intros s' v'. destruct (decide (s = s')) as [<- | Hne].
    + rewrite lookup_insert_eq. intros [= <-]. rewrite Hbody. exact Hn.
    + rewrite lookup_insert_ne by exact Hne. apply Hcoh.
  - destruct Hcache as [-> | (n & Hs & _ & ->)]; [reflexivity |].
    apply insert_subseteq, Hs.
Qed.

Lemma from_string_shape (known : gmap string Z) (s : string) :
  fst (FileSize.from_string known s)
  = match known !! s with Some v => Ok v | None => fst (FileSize.from_string ∅ s) end /\
  (snd (FileSize.from_string known s) = known \/
   exists n, known !! s = None /\ fst (FileSize.from_string ∅ s) = Ok n /\
             snd (FileSize.from_string known s) = <[s := n]> known).
Proof.
  unfold FileSize.from_string. rewrite lookup_empty.
  destruct (known !! s) as [v |]; [split; [reflexivity | left; reflexivity] |].
  destruct (PyStr.last_char s) as [c |]; [| split; [reflexivity | left; reflexivity]].
  destruct (if negb (PyStr.mem c "bkmg") then _ else _) as [modifier size].
  destruct (PyFloat.of_string size) as [x |]; [| split; [reflexivity | left; reflexivity]].
  destruct (PyFloat.to_int _) as [e | n]; [split; [reflexivity | left; reflexivity] |].
  split; [reflexivity |]. right. exists n. repeat split; reflexivity.
Qed.

Lemma uid_from_str_shape (w : World) (known : gmap string Z) (s : string) :
  fst (Uid.from_str w known s)
  = match known !! s with Some v => Ok v | None => fst (Uid.from_str w ∅ s) end /\
  (snd (Uid.from_str w known s) = known \/
   exists n, known !! s = None /\ fst (Uid.from_str w ∅ s) = Ok n /\
             snd (Uid.from_str w known s) = <[s := n]> known).
Proof.
  unfold Uid.from_str. rewrite lookup_empty.
  destruct (known !! s) as [v |]; [split; [reflexivity | left; reflexivity] |].
  destruct (os_is_windows w); [split; [reflexivity | left; reflexivity] |].
  destruct (py_int s) as [n |].
  - split; [reflexivity |]. right. exists n. repeat split; reflexivity.
  - destruct (getpwnam w s) as [n |]; [| split; [reflexivity | left; reflexivity]].
    split; [reflexivity |]. right. exists n. repeat split; reflexivity.
Qed.

Lemma gid_from_str_shape (w : World) (known : gmap string Z) (s : string) :
  fst (Gid.from_str w known s)
  = match known !! s with Some v => Ok v | None => fst (Gid.from_str w ∅ s) end /\
  (snd (Gid.from_str w known s) = known \/
   exists n, known !! s = None /\ fst (Gid.from_str w ∅ s) = Ok n /\
             snd (Gid.from_str w known s) = <[s := n]> known).
Proof.
  unfold Gid.from_str. rewrite lookup_empty.
  destruct (known !! s) as [v |]; [split; [reflexivity | left; reflexivity] |].
  destruct (os_is_windows w); [split; [reflexivity | left; reflexivity] |].
  destruct (py_int s) as [n |].
  - split; [reflexivity |]. right. exists n. repeat split; reflexivity.
  - destruct (getgrnam w s) as [n |]; [| split; [reflexivity | left; reflexivity]].
    split; [reflexivity |]. right. exists n. repeat split; reflexivity.
Qed.

(** X3: the caches of [FileSize.from_string], [Uid.from_str] and
    [Gid.from_str] cannot be observed: called with a coherent cache (one
    that earlier calls have filled) each returns what it returns with an
    empty cache, leaves the cache coherent, and only adds to it.  (The
    cache of [Unixtime.str_to_secs] is different: it freezes the clock.) *)
Theorem scalar_cache_is_transparent (w : World) (now : PyFloat.t) (k : kind)
    (known : gmap string Z) (s : string)
    (Hkind : k <> KUnixtime)
    (Hcoh : coherent (parse_kind w now k) known) :
  fst (parse_kind w now k known s) = fst (parse_kind w now k ∅ s) /\
  coherent (parse_kind w now k) (snd (parse_kind w now k known s)) /\
  known ⊆ snd (parse_kind w now k known s).
Proof.
  destruct k; [congruence | | |]; cbn [parse_kind] in *.
  - apply (memo_transparent _ (fun s => fst (Uid.from_str w ∅ s))); [| exact Hcoh].
    intros known0 s0. apply uid_from_str_shape.
  - apply (memo_transparent _ (fun s => fst (Gid.from_str w ∅ s))); [| exact Hcoh].
    intros known0 s0. apply gid_from_str_shape.
  - apply (memo_transparent _ (fun s => fst (FileSize.from_string ∅ s))); [| exact Hcoh].
    intros known0 s0. apply from_string_shape.
Qed.

Lemma scalar_cache_is_transparent_witness :
  fst (FileSize.from_string (<["10k" := 10240]> ∅) "2k") = fst (FileSize.from_string ∅ "2k") /\
  fst (FileSize.from_string ∅ "2k") = Ok 2048.
Proof.
  split; [| reflexivity].
  refine (proj1 (scalar_cache_is_transparent Posix.world (PyFloat.of_Z 0) KFileSize
                   (<["10k" := 10240]> ∅) "2k" _ _)).
  - discriminate.
  - intros s v. cbn [parse_kind]. destruct (decide ("10k" = s)) as [<- | Hne].
    + rewrite lookup_insert_eq. intros [= <-]. reflexivity.
    + rewrite lookup_insert_ne by exact Hne. rewrite lookup_empty. discriminate.
Defined.

(** ** Relative times *)

Lemma of_chars_chars (s : string) : PyStr.of_chars (PyStr.chars s) = s.
Proof. apply string_of_list_ascii_of_string. Qed.

Lemma last_char_snoc (s : string) (c : ascii) : PyStr.last_char (s +:+ String c "") = Some c.
Proof.
  unfold PyStr.last_char. rewrite chars_append. cbn [PyStr.chars list_ascii_of_string].
  rewrite List.map_app. cbn [List.map]. apply List.last_last.
Qed.

Lemma drop_last_snoc (s : string) (c : ascii) : PyStr.drop_last (s +:+ String c "") = s.
Proof.
  unfold PyStr.drop_last. rewrite chars_append. cbn [PyStr.chars list_ascii_of_string].
  rewrite List.removelast_last. apply of_chars_chars.
Qed.

Lemma lower_unit (c : ascii) :
  PyStr.mem (PyStr.lower c) "mhdwy" = true -> PyStr.lower (PyStr.lower c) = PyStr.lower c.
Proof.
  unfold PyStr.mem. cbn [PyStr.chars list_ascii_of_string List.existsb].
  intros H. repeat (apply orb_true_iff in H; destruct H as [H | H]);
    try (apply Ascii.eqb_eq in H; rewrite H; reflexivity).
  discriminate H.
Qed.

(** X4: in a relative time the unit letter may be written in upper
    case, and a number without a unit letter counts days: the string
    gives the same number of seconds as the one with the lower-case
    letter, or with [d] added, whenever it gives a number at all (the
    messages of the errors name the string as it was written). *)
Theorem reltime_unit_letters (s : string) (c : ascii) (n : Z) :
  (PyStr.mem (PyStr.lower c) "mhdwy" = true ->
   (Unixtime.reltime_to_secs (s +:+ String c "") = Ok n <->
    Unixtime.reltime_to_secs (s +:+ String (PyStr.lower c) "") = Ok n)) /\
  (PyStr.last_char s = Some c -> PyStr.mem (PyStr.lower c) "mhdwy" = false ->
   (Unixtime.reltime_to_secs s = Ok n <-> Unixtime.reltime_to_secs (s +:+ "d") = Ok n)).
Proof.
  split.
  - intros Hunit. unfold Unixtime.reltime_to_secs.
    rewrite !last_char_snoc, (lower_unit c Hunit), Hunit. cbn [negb].
    rewrite !drop_last_snoc.
    destruct (PyFloat.of_string s) as [x |]; [reflexivity |].
    unfold Raise. split; intros H; discriminate H.
  - intros Hlast Hunit. unfold Unixtime.reltime_to_secs.
    rewrite last_char_snoc, Hlast, Hunit. cbn [negb].
    change (PyStr.mem (PyStr.lower "d") "mhdwy") with true. cbn [negb].
    rewrite drop_last_snoc. change (PyStr.lower "d") with "d"%char.
    destruct (PyFloat.of_string s) as [x |]; [reflexivity |].
    unfold Raise. split; intros H; discriminate H.
Qed.

Lemma reltime_unit_letters_witness :
  Unixtime.reltime_to_secs "10H" = Ok 36000 /\
  Unixtime.reltime_to_secs "2" = Ok 172800.
Proof.
  split.
  - apply (proj1 (reltime_unit_letters "10" "H" 36000)); reflexivity.
  - apply (proj2 (reltime_unit_letters "2" "2" 172800)); reflexivity.
Defined.

(* ===================================================================== *)
(** ** File records: the mode string and the fields *)
(* ===================================================================== *)

Lemma land_pow2 (m k : Z) :
  0 <= k -> Z.land m (2 ^ k) = if Z.testbit m k then 2 ^ k else 0.
Proof.
  intros Hk. apply Z.bits_inj'. intros n Hn.
  rewrite Z.land_spec, Z.pow2_bits_eqb by exact Hk.
  destruct (Z.eqb_spec k n) as [<- | Hne].
  - rewrite andb_true_r. destruct (Z.testbit m k) eqn:Hb.
    + rewrite Z.pow2_bits_true by exact Hk. reflexivity.
    + rewrite Z.bits_0. reflexivity.
  - rewrite andb_false_r. destruct (Z.testbit m k).
    + rewrite Z.pow2_bits_false by lia. reflexivity.
    + rewrite Z.bits_0. reflexivity.
Qed.

Lemma land_bit_zero (m k : Z) :
  0 <= k -> (Z.land m (2 ^ k) =? 0) = negb (Z.testbit m k).
Proof.
  intros Hk. rewrite land_pow2 by exact Hk. destruct (Z.testbit m k); [| reflexivity].
  apply Z.eqb_neq. pose proof (Z.pow_pos_nonneg 2 k ltac:(lia) Hk). lia.
Qed.

(** one turn of the loop of [mode_string] *)
Lemma mode_loop_step (fuel : nat) (mode k : Z) (i : nat) :
  0 <= k -> (i < 9)%nat -> k = 8 - Z.of_nat i ->
  mode_loop (S fuel) mode (2 ^ k) i
  = match mode_loop fuel mode (Z.shiftr (2 ^ k) 1) (S i) with
    | inl e => Raise e
    | inr rest => Ok (perm_char mode i :: rest)
    end.
Proof.
  intros Hk Hi Hki. cbn [mode_loop].
  destruct (Z.eqb_spec (2 ^ k) 0) as [Hz | _].
  { pose proof (Z.pow_pos_nonneg 2 k ltac:(lia) Hk). lia. }
  rewrite land_bit_zero by exact Hk. unfold perm_char. rewrite <- Hki.
  destruct (Z.testbit mode k); cbn [negb]; [| reflexivity].
  do 9 (destruct i as [| i]; [reflexivity |]). lia.
Qed.

Lemma mode_loop_spec (mode : Z) :
  mode_loop 9 mode 256 0 = Ok (List.map (perm_char mode) (List.seq 0 9)).
Proof.
  change 256 with (2 ^ 8).
  rewrite (mode_loop_step 8 mode 8 0) by lia. change (Z.shiftr (2 ^ 8) 1) with (2 ^ 7).
  rewrite (mode_loop_step 7 mode 7 1) by lia. change (Z.shiftr (2 ^ 7) 1) with (2 ^ 6).
  rewrite (mode_loop_step 6 mode 6 2) by lia. change (Z.shiftr (2 ^ 6) 1) with (2 ^ 5).
  rewrite (mode_loop_step 5 mode 5 3) by lia. change (Z.shiftr (2 ^ 5) 1) with (2 ^ 4).
  rewrite (mode_loop_step 4 mode 4 4) by lia. change (Z.shiftr (2 ^ 4) 1) with (2 ^ 3).
  rewrite (mode_loop_step 3 mode 3 5) by lia. change (Z.shiftr (2 ^ 3) 1) with (2 ^ 2).
  rewrite (mode_loop_step 2 mode 2 6) by lia. change (Z.shiftr (2 ^ 2) 1) with (2 ^ 1).
  rewrite (mode_loop_step 1 mode 1 7) by lia. change (Z.shiftr (2 ^ 1) 1) with (2 ^ 0).
  rewrite (mode_loop_step 0 mode 0 8) by lia. reflexivity.
Qed.

Lemma perm_char_bit (m1 m2 : Z) (i : nat) :
  (i < 9)%nat ->
  (perm_char m1 i = perm_char m2 i <->
   Z.testbit m1 (8 - Z.of_nat i) = Z.testbit m2 (8 - Z.of_nat i)).
Proof.
  intros Hi. unfold perm_char.
  destruct (Z.testbit m1 _), (Z.testbit m2 _); split; intros H; try reflexivity;
    exfalso; do 9 (destruct i as [| i]; [discriminate H |]); lia.
Qed.

Lemma low_bits_equal (m1 m2 : Z) :
  Z.land m1 511 = Z.land m2 511 <->
  forall i, (i < 9)%nat -> Z.testbit m1 (8 - Z.of_nat i) = Z.testbit m2 (8 - Z.of_nat i).
Proof.
  change 511 with (Z.ones 9). split.
  - intros H i Hi.
    assert (Hb : Z.testbit (Z.land m1 (Z.ones 9)) (8 - Z.of_nat i)
                 = Z.testbit (Z.land m2 (Z.ones 9)) (8 - Z.of_nat i)) by (rewrite H; reflexivity).
    rewrite !Z.land_spec, Z.ones_spec_low, !andb_true_r in Hb by lia. exact Hb.
  - intros H. apply Z.bits_inj'. intros n Hn. rewrite !Z.land_spec.
    destruct (Z.lt_ge_cases n 9) as [Hlt | Hge].
    + rewrite Z.ones_spec_low, !andb_true_r by lia.
      specialize (H (Z.to_nat (8 - n)) ltac:(lia)).
      rewrite Z2Nat.id in H by lia. replace (8 - (8 - n)) with n in H by lia. exact H.
    + rewrite Z.ones_spec_high, !andb_false_r by lia. reflexivity.
Qed.

Lemma map_seq_ext {A : Type} (f g : nat -> A) (n : nat) :
  List.map f (List.seq 0 n) = List.map g (List.seq 0 n) <->
  forall i, (i < n)%nat -> f i = g i.
Proof.
  split.
  - intros H i Hi.
    assert (Hn : List.nth_error (List.map f (List.seq 0 n)) i
                 = List.nth_error (List.map g (List.seq 0 n)) i) by (rewrite H; reflexivity).
    rewrite !List.nth_error_map, List.nth_error_seq in Hn.
    destruct (Nat.ltb_spec i n); [| lia]. cbn in Hn. congruence.
  - intros H. apply List.map_ext_in. intros i Hi. apply List.in_seq in Hi. apply H. lia.
Qed.

(** X5: [mode_string] shows the type character of the record's type
    code and then, for each of the nine permission bits from [0o400]
    down to [0o001], the letter of [rwxrwxrwx] when the bit is set and a
    dash when it is not; a type code that [FileTypeCode.to_char] does not
    list raises [KeyError].  Two records are shown alike exactly when
    their type characters and the low nine bits of their modes agree:
    the set-uid, set-gid and sticky bits never show. *)
Theorem mode_string_shows_permissions (self : FileStats) :
  (to_char (Typecode self) = None -> mode_string self = Raise KeyError) /\
  (forall type_char,
     to_char (Typecode self) = Some type_char ->
     mode_string self
     = Ok (PyStr.of_chars (type_char :: List.map (perm_char (Mode self)) (List.seq 0 9))) /\
     (forall s, mode_string self = Ok s -> String.length s = 10%nat) /\
     (forall other type_char',
        to_char (Typecode other) = Some type_char' ->
        (mode_string self = mode_string other <->
         type_char = type_char' /\ Z.land (Mode self) 511 = Z.land (Mode other) 511))).
Proof.
  split.
  - intros H. unfold mode_string. rewrite H. reflexivity.
  - intros type_char Htype.
    assert (Hshape : forall r c, to_char (Typecode r) = Some c ->
              mode_string r = Ok (PyStr.of_chars (c :: List.map (perm_char (Mode r)) (List.seq 0 9)))).
    { intros r c Hc. unfold mode_string. rewrite Hc, mode_loop_spec. reflexivity. }
    split; [apply Hshape, Htype |]. split.
    + intros s Hs. rewrite (Hshape self type_char Htype) in Hs. injection Hs as <-. reflexivity.
    + intros other type_char' Htype'.
      rewrite (Hshape self type_char Htype), (Hshape other type_char' Htype').
      rewrite low_bits_equal. split.
      * intros H. unfold Ok in H.
        assert (H' := f_equal (fun r : result string =>
                                 match r with inr s => PyStr.chars s | inl _ => [] end) H).
        cbv beta iota in H'. rewrite !chars_of_chars in H'. injection H' as Hc E0 E1 E2 E3 E4 E5 E6 E7 E8.
        split; [exact Hc |]. intros i Hi. apply perm_char_bit; [exact Hi |].
        do 9 (destruct i as [| i]; [assumption |]). lia.
      * intros [-> Hbits]. do 3 f_equal. apply map_seq_ext. intros i Hi.
        apply perm_char_bit; [exact Hi | apply Hbits, Hi].
Qed.

Lemma mode_string_shows_permissions_witness :
  let su := {| Mode := 35309; inode := 1; dev := 1; Nlink := 1; uid := 0; gid := 0;
               size := 0; atime := 0; mtime := 0; ctime := 0; path := ""; name := "su";
               filepath := "su"; target := ""; Typecode := 32768 |} in
  mode_string (file "a" 0 FileTypeCode.S_IFDIR) = Ok "drw-r--r--" /\
  mode_string su = Ok "-rwxr-xr-x".
Proof.
  intros su. split.
  - exact (proj1 (proj2 (mode_string_shows_permissions (file "a" 0 FileTypeCode.S_IFDIR))
                    "d"%char eq_refl)).
  - exact (proj1 (proj2 (mode_string_shows_permissions su) "-"%char eq_refl)).
Defined.

(** X6: a field of a record can be addressed by its word, by the first
    letter of the word, and by its position counted from the front or
    from the back; all of them give the same value, the one the sort
    keys read.  A position outside the fifteen fields raises
    [IndexError]. *)
Theorem getitem_word_letter_position (self : FileStats) (i : nat) (word : string)
    (Hword : List.nth_error field_words i = Some word) :
  (exists c v,
     PyStr.first_char word = Some c /\
     List.nth_error (stats self) i = Some v /\
     getitem_any self (OStr word) = Ok v /\
     getitem_any self (OStr (String c "")) = Ok v /\
     getitem_any self (OInt (Z.of_nat i)) = Ok v /\
     getitem_any self (OInt (Z.of_nat i - 15)) = Ok v /\
     getitem self c = Ok v) /\
  (forall j, j < -15 \/ 15 <= j -> getitem_any self (OInt j) = Raise IndexError).
Proof.
  split.
  - do 15 (destruct i as [| i];
           [injection Hword as <-; eexists _, _; repeat split; reflexivity |]).
    destruct i; discriminate Hword.
  - intros j Hj. unfold getitem_any, py_nth. unfold Ok at 1. cbv beta iota.
    change (Z.of_nat (List.length (stats self))) with 15.
    destruct (Z.ltb_spec j 0).
    + destruct (Z.leb_spec 0 (j + 15)); [lia |]. reflexivity.
    + destruct (Z.leb_spec 0 j); [| lia]. destruct (Z.ltb_spec j 15); [lia |]. reflexivity.
Qed.

Lemma getitem_word_letter_position_witness :
  getitem_any (file "a" 7 32768) (OStr "size") = Ok (VInt 7) /\
  getitem_any (file "a" 7 32768) (OStr "s") = Ok (VInt 7) /\
  getitem_any (file "a" 7 32768) (OInt (-9)) = Ok (VInt 7).
Proof.
  destruct (proj1 (getitem_word_letter_position (file "a" 7 32768) 6 "size" eq_refl))
    as (c & v & Hc & Hv & Hw & Hl & Hp & Hn & Hg).
  injection Hc as <-. injection Hv as <-. repeat split; assumption.
Defined.

(* ===================================================================== *)
(** ** Option values: word lists and letter strings *)
(* ===================================================================== *)

Lemma split_on_aux_plain (sep : ascii) (l cur : list ascii) :
  Forall (fun c => Ascii.eqb c sep = false) l ->
  PyStr.split_on_aux sep l cur = [PyStr.of_chars (List.rev cur ++ l)].
Proof.
  intros H. revert cur. induction H as [| c r Hc _ IH]; intros cur.
  - cbn [PyStr.split_on_aux]. rewrite List.app_nil_r. reflexivity.
  - cbn [PyStr.split_on_aux]. rewrite Hc, IH. cbn [List.rev].
    rewrite <- List.app_assoc. reflexivity.
Qed.

Lemma split_on_aux_word (sep : ascii) (l rest cur : list ascii) :
  Forall (fun c => Ascii.eqb c sep = false) l ->
  PyStr.split_on_aux sep (l ++ sep :: rest) cur
  = PyStr.of_chars (List.rev cur ++ l) :: PyStr.split_on_aux sep rest [].
Proof.
  intros H. revert cur. induction H as [| c r Hc _ IH]; intros cur.
  - cbn [app PyStr.split_on_aux]. rewrite Ascii.eqb_refl, List.app_nil_r. reflexivity.
  - cbn [app PyStr.split_on_aux]. rewrite Hc, IH. cbn [List.rev].
    rewrite <- List.app_assoc. reflexivity.
Qed.

Lemma split_on_aux_cons (sep : ascii) (l cur : list ascii) :
  exists x r, PyStr.split_on_aux sep l cur = x :: r.
Proof.
  revert cur. induction l as [| c l IH]; intros cur; cbn [PyStr.split_on_aux].
  - eexists _, _. reflexivity.
  - destruct (Ascii.eqb c sep); [eexists _, _; reflexivity | apply IH].
Qed.

Lemma no_comma_chars (w : string) :
  PyStr.mem "," w = false -> Forall (fun c => Ascii.eqb c "," = false) (PyStr.chars w).
Proof.
  unfold PyStr.mem. induction (PyStr.chars w) as [| c r IH]; intros H; [constructor |].
  cbn [List.existsb] in H. apply orb_false_iff in H. destruct H as [Hc Hr].
  constructor; [rewrite Ascii.eqb_sym; exact Hc | apply IH, Hr].
Qed.

Lemma chars_concat_cons (w w' : string) (ws : list string) :
  PyStr.chars (String.concat "," (w :: w' :: ws))
  = (PyStr.chars w ++ ","%char :: PyStr.chars (String.concat "," (w' :: ws)))%list.
Proof.
  change (String.concat "," (w :: w' :: ws))
    with (w +:+ "," +:+ String.concat "," (w' :: ws)).
  rewrite !chars_append. reflexivity.
Qed.

(** splitting at the commas gives back the words that were joined *)
Lemma split_on_concat (ws : list string) :
  ws <> [] -> Forall (fun w => PyStr.mem "," w = false) ws ->
  PyStr.split_on "," (String.concat "," ws) = ws.
Proof.
  unfold PyStr.split_on. intros Hne Hall. induction Hall as [| w ws Hw Hws IH]; [congruence |].
  destruct ws as [| w' ws].
  - cbn [String.concat]. rewrite split_on_aux_plain by (apply no_comma_chars, Hw).
    cbn [List.rev app]. rewrite of_chars_chars. reflexivity.
  - rewrite chars_concat_cons, split_on_aux_word by (apply no_comma_chars, Hw).
    cbn [List.rev app]. rewrite of_chars_chars, IH by discriminate. reflexivity.
Qed.

Lemma split_on_concat_comma (ws : list string) :
  ws <> [] -> Forall (fun w => PyStr.mem "," w = false) ws ->
  PyStr.split_on "," (String.concat "," ws +:+ ",") = (ws ++ [""])%list.
Proof.
  unfold PyStr.split_on. intros Hne Hall. induction Hall as [| w ws Hw Hws IH]; [congruence |].
  destruct ws as [| w' ws].
  - cbn [String.concat]. rewrite chars_append.
    change (PyStr.chars ",") with [","%char].
    rewrite split_on_aux_word by (apply no_comma_chars, Hw).
    cbn [List.rev app]. rewrite of_chars_chars. reflexivity.
  - rewrite chars_append, chars_concat_cons, <- List.app_assoc. cbn [app].
    rewrite split_on_aux_word by (apply no_comma_chars, Hw).
    cbn [List.rev app]. rewrite of_chars_chars, <- chars_append, IH by discriminate.
    reflexivity.
Qed.

Lemma first_letters_of_ok (ws valid_words : list string) (acc : list ascii) :
  Forall (fun w => mem_string w valid_words = true) ws ->
  Forall (fun w => w <> "") ws ->
  first_letters_of ws valid_words acc
  = Ok (PyStr.of_chars (List.rev acc ++ first_letters ws)).
Proof.
  intros Hvalid. revert acc. induction Hvalid as [| w ws Hw _ IH]; intros acc Hne.
  - cbn [first_letters_of first_letters List.flat_map]. rewrite List.app_nil_r. reflexivity.
  - inversion Hne as [| ? ? Hw0 Hws]; subst. cbn [first_letters_of]. rewrite Hw. cbn [negb].
    destruct w as [| c w]; [congruence |]. rewrite IH by exact Hws.
    cbn [List.rev first_letters List.flat_map app]. rewrite <- List.app_assoc. reflexivity.
Qed.

Lemma first_letters_of_length (ws valid_words : list string) (acc : list ascii)
    (letters : string) :
  first_letters_of ws valid_words acc = Ok letters ->
  List.length (PyStr.chars letters) = (List.length acc + List.length ws)%nat.
Proof.
  revert acc. induction ws as [| w ws IH]; intros acc; cbn [first_letters_of].
  - intros [= <-]. rewrite chars_of_chars, List.length_rev. cbn. lia.
  - destruct (negb (mem_string w valid_words)); [discriminate |].
    destruct w as [| c w]; [discriminate |]. intros H. rewrite (IH _ H). cbn. lia.
Qed.

Lemma valid_letter_exists (c : ascii) (letters : list ascii) :
  c ∈ letters -> List.existsb (Ascii.eqb c) letters = true.
Proof.
  intros H. apply List.existsb_exists. exists c. split.
  - apply list_elem_of_In, H.
  - apply Ascii.eqb_refl.
Qed.

(** a string of valid letters is taken as it is *)
Lemma parse_letters (letters : string) (valid_words : list string) :
  letters <> "" ->
  Forall (fun c => c ∈ first_letters valid_words /\ Ascii.eqb c "," = false)
    (PyStr.chars letters) ->
  parse_value_list letters valid_words = Ok letters.
Proof.
  intros Hne Hall. unfold parse_value_list.
  destruct (String.eqb_spec letters "") as [-> | _]; [congruence |].
  unfold PyStr.split_on. rewrite split_on_aux_plain.
  - cbn [List.length Nat.eqb].
    assert (Hf : List.forallb (fun c => List.existsb (Ascii.eqb c) (first_letters valid_words))
                   (PyStr.chars letters) = true).
    { apply List.forallb_forall. intros c Hc. rewrite List.Forall_forall in Hall.
      apply valid_letter_exists, (Hall c Hc). }
    rewrite Hf. reflexivity.
  - eapply List.Forall_impl; [| exact Hall]. intros c [_ Hc]. exact Hc.
Qed.

Lemma first_letters_in (c : ascii) (words : list string) :
  c ∈ first_letters words <-> exists w, List.In w words /\ PyStr.first_char w = Some c.
Proof.
  rewrite list_elem_of_In. unfold first_letters. rewrite List.in_flat_map. split.
  - intros (w & Hw & Hc). exists w. split; [exact Hw |].
    destruct w as [| c' w]; [destruct Hc |]. destruct Hc as [-> | []]. reflexivity.
  - intros (w & Hw & Hc). exists w. split; [exact Hw |].
    destruct w as [| c' w]; [discriminate Hc |]. injection Hc as ->. left. reflexivity.
Qed.

Lemma mem_string_in (w : string) (words : list string) :
  mem_string w words = true <-> List.In w words.
Proof.
  unfold mem_string. rewrite List.existsb_exists. split.
  - intros (x & Hx & He). apply String.eqb_eq in He. subst. exact Hx.
  - intros H. exists w. split; [exact H | apply String.eqb_refl].
Qed.

(** X7: an option value may be given as words with commas between them
    or as the string of their first letters, and both mean the same: a
    list of valid words, none empty or with a comma inside, is turned
    into the first letters of the words, in their order; a single word
    needs the comma after it; and the letter string is accepted as it
    is ([-f Mode,size,name] is [-f Msn]). *)
Theorem parse_value_list_words (valid_words ws : list string)
    (Hne : ws <> [])
    (Hvalid : Forall (fun w => mem_string w valid_words = true) ws)
    (Hplain : Forall (fun w => w <> "" /\ PyStr.mem "," w = false) ws) :
  let letters := PyStr.of_chars (first_letters ws) in
  parse_value_list (String.concat "," ws +:+ ",") valid_words = Ok letters /\
  ((2 <= List.length ws)%nat ->
   parse_value_list (String.concat "," ws) valid_words = Ok letters) /\
  parse_value_list letters valid_words = Ok letters.
Proof.
  intros letters.
  assert (Hcomma : Forall (fun w => PyStr.mem "," w = false) ws).
  { eapply List.Forall_impl; [| exact Hplain]. intros w [_ H]. exact H. }
  assert (Hfull : Forall (fun w => w <> "") ws).
  { eapply List.Forall_impl; [| exact Hplain]. intros w [H _]. exact H. }
  assert (Hloop : first_letters_of ws valid_words [] = Ok letters)
    by (apply first_letters_of_ok; assumption).
  split; [| split].
  - unfold parse_value_list.
    destruct (String.eqb_spec (String.concat "," ws +:+ ",") "") as [He | _].
    { apply (f_equal PyStr.chars) in He. rewrite chars_append in He.
      apply List.app_eq_nil in He. destruct He as [_ He]. discriminate He. }
    rewrite split_on_concat_comma by assumption.
    rewrite List.length_app, List.last_last, List.removelast_last. cbn [List.length].
    destruct (Nat.eqb_spec (List.length ws + 1) 1) as [Hlen | _].
    { destruct ws; [congruence | cbn in Hlen; lia]. }
    rewrite String.eqb_refl. exact Hloop.
  - intros Hlen. unfold parse_value_list.
    destruct ws as [| w [| w' ws']]; [cbn in Hlen; lia | cbn in Hlen; lia |].
    destruct (String.eqb_spec (String.concat "," (w :: w' :: ws')) "") as [He | _].
    { apply (f_equal PyStr.chars) in He. rewrite chars_concat_cons in He.
      apply List.app_eq_nil in He. destruct He as [_ He]. discriminate He. }
    rewrite split_on_concat by assumption. cbn [List.length Nat.eqb].
    assert (Hlast : List.last (w :: w' :: ws') "x" <> "").
    { destruct (List.exists_last (l := w :: w' :: ws') ltac:(discriminate)) as (l' & a & Hl).
      rewrite Hl, List.last_last. rewrite Hl in Hfull.
      apply Forall_app in Hfull. destruct Hfull as [_ Ha]. inversion Ha; assumption. }
    destruct (String.eqb_spec (List.last (w :: w' :: ws') "x") ""); [congruence |].
    exact Hloop.
  - apply parse_letters.
    + unfold letters. destruct ws as [| w ws']; [congruence |].
      inversion Hfull as [| ? ? Hw _]; subst. destruct w as [| c w]; [congruence |].
      cbn. discriminate.
    + unfold letters. rewrite chars_of_chars. apply List.Forall_forall. intros c Hc.
      apply list_elem_of_In, first_letters_in in Hc. destruct Hc as (w & Hw & Hc).
      rewrite List.Forall_forall in Hvalid, Hplain. split.
      * apply first_letters_in. exists w. split; [| exact Hc].
        apply mem_string_in, Hvalid, Hw.
      * destruct (Hplain w Hw) as [_ Hno]. apply no_comma_chars in Hno.
        destruct w as [| c' w]; [discriminate Hc |]. injection Hc as ->.
        inversion Hno; assumption.
Qed.

Lemma parse_value_list_words_witness :
  parse_value_list "Mode,size,name" field_words = Ok "Msn" /\
  parse_value_list "Msn" field_words = Ok "Msn" /\
  parse_value_list "size," field_words = Ok "s".
Proof.
  split; [| split].
  - apply (proj1 (proj2 (parse_value_list_words field_words ["Mode"; "size"; "name"]
                           ltac:(discriminate)
                           ltac:(repeat constructor)
                           ltac:(repeat constructor; discriminate)))).
    cbn. lia.
  - exact (proj2 (proj2 (parse_value_list_words field_words ["Mode"; "size"; "name"]
                           ltac:(discriminate)
                           ltac:(repeat constructor)
                           ltac:(repeat constructor; discriminate)))).
  - exact (proj1 (parse_value_list_words field_words ["size"]
                    ltac:(discriminate)
                    ltac:(repeat constructor)
                    ltac:(repeat constructor; discriminate))).
Defined.

Lemma parse_value_list_nonempty (val_list : string) (valid_words : list string)
    (letters : string) :
  parse_value_list val_list valid_words = Ok letters -> letters <> "".
Proof.
  unfold parse_value_list.
  destruct (String.eqb_spec val_list "") as [| Hne]; [discriminate |].
  unfold PyStr.split_on.
  destruct (split_on_aux_cons "," (PyStr.chars val_list) []) as (x & r & ->).
  destruct r as [| y r].
  - cbn [List.length Nat.eqb]. destruct (List.forallb _ _); [| discriminate].
    intros [= <-]. exact Hne.
  - cbn [List.length Nat.eqb]. intros H. apply first_letters_of_length in H.
    intros ->. revert H. cbn [PyStr.chars list_ascii_of_string List.length].
    destruct (String.eqb _ _).
    + change (List.removelast (x :: y :: r)) with (x :: List.removelast (y :: r)).
      cbn [List.length]. lia.
    + cbn [List.length]. lia.
Qed.

(** X8: what [parse_value_list] returns is never empty, consists of
    first letters of the valid words, and is in final form: given again
    as the option value it is returned unchanged (no valid word may start
    with a comma for that, which holds for the word lists of the
    program). *)
Theorem parse_value_list_canonical (valid_words : list string) (val_list letters : string)
    (Hwords : Forall (fun w => PyStr.first_char w <> Some ","%char) valid_words)
    (Hparse : parse_value_list val_list valid_words = Ok letters) :
  letters <> "" /\
  Forall (fun c => c ∈ first_letters valid_words) (PyStr.chars letters) /\
  parse_value_list letters valid_words = Ok letters.
Proof.
  pose proof (parse_value_list_nonempty _ _ _ Hparse) as Hne.
  pose proof (parse_value_list_valid _ _ _ Hparse) as Hvalid.
  split; [exact Hne |]. split; [exact Hvalid |].
  apply parse_letters; [exact Hne |].
  eapply List.Forall_impl; [| exact Hvalid]. intros c Hc. split; [exact Hc |].
  apply first_letters_in in Hc. destruct Hc as (w & Hw & Hc).
  rewrite List.Forall_forall in Hwords. specialize (Hwords w Hw).
  destruct (Ascii.eqb_spec c ",") as [-> | _]; [congruence | reflexivity].
Qed.

Lemma parse_value_list_canonical_witness :
  parse_value_list "dir,link" file_type_words = Ok "dl" /\
  parse_value_list "dl" file_type_words = Ok "dl".
Proof.
  split; [reflexivity |].
  refine (proj2 (proj2 (parse_value_list_canonical file_type_words "dir,link" "dl" _ _))).
  - repeat constructor; discriminate.
  - reflexivity.
Defined.

(* ===================================================================== *)
(** ** The fields that are printed *)
(* ===================================================================== *)

Lemma field_list_arg_ok (arg fields : string) :
  field_list_arg arg = Ok fields -> parse_value_list arg field_words = Ok fields.
Proof.
  unfold field_list_arg, as_argument_error.
  destruct (parse_value_list arg field_words) as [[] | letters]; try discriminate.
  intros H. exact H.
Qed.

Lemma printout_step (objects : list pyobj) (c : ascii) (rest : list ascii)
    (printed : list pyobj) :
  List.length objects = 14%nat -> c ∈ field_letters -> c <> "T"%char ->
  printout_loop objects (c :: rest) printed
  = printout_loop objects rest (printed ++ shown_object objects c)%list.
Proof.
  intros Hlen Hc HT.
  do 14 (destruct objects as [| ? objects]; [discriminate Hlen |]).
  destruct objects; [| discriminate Hlen].
  apply list_elem_of_In in Hc. cbn in Hc.
  repeat (destruct Hc as [<- | Hc];
          [try congruence; unfold shown_object;
           cbn [printout_loop index_of field_letters field_words first_letters List.flat_map
                app Ascii.eqb Bool.eqb option_map List.nth_error];
           match goal with
           | |- context [truthy ?o] => destruct (truthy o)
           end; rewrite ?List.app_nil_r; reflexivity |]).
  destruct Hc.
Qed.

Lemma printout_typecode (objects : list pyobj) (rest : list ascii) (printed : list pyobj) :
  List.length objects = 14%nat ->
  printout_loop objects ("T"%char :: rest) printed = (printed, Some IndexError).
Proof.
  intros Hlen.
  do 14 (destruct objects as [| ? objects]; [discriminate Hlen |]).
  destruct objects; [| discriminate Hlen]. reflexivity.
Qed.

Lemma printout_loop_valid (objects : list pyobj) (l : list ascii) (printed : list pyobj) :
  List.length objects = 14%nat ->
  Forall (fun c => c ∈ field_letters) l -> Forall (fun c => c <> "T"%char) l ->
  printout_loop objects l printed
  = ((printed ++ List.flat_map (shown_object objects) l)%list, None).
Proof.
  intros Hlen Hall. revert printed. induction Hall as [| c r Hc _ IH]; intros printed HT.
  - cbn [printout_loop List.flat_map]. rewrite List.app_nil_r. reflexivity.
  - inversion HT as [| ? ? Hc' Hr]; subst.
    rewrite printout_step by assumption. rewrite IH by exact Hr.
    cbn [List.flat_map]. rewrite <- List.app_assoc. reflexivity.
Qed.

Lemma to_objects_length (self : FileStats) (objects : list pyobj) :
  to_objects self = Ok objects -> List.length objects = 14%nat.
Proof.
  unfold to_objects. destruct (mode_string self); [discriminate |].
  intros [= <-]. reflexivity.
Qed.

(** X9: with a field string that [field_list_arg] accepted, [printout]
    goes through the letters in their order and prints the object of
    each, leaving out those that are false (an empty path or target, a
    number 0); no letter fails to be found.  The one exception is the
    letter [T] of [Typecode], which is a valid letter but has no object:
    the objects before it are printed and then [IndexError] is raised. *)
Theorem printout_of_validated_fields (self : FileStats) (arg fields : string)
    (objects : list pyobj)
    (Hfields : field_list_arg arg = Ok fields)
    (Hobjects : to_objects self = Ok objects) :
  (PyStr.mem "T" fields = false ->
   printout self fields = (List.flat_map (shown_object objects) (PyStr.chars fields), None)) /\
  (forall before after,
     PyStr.chars fields = (before ++ "T"%char :: after)%list ->
     Forall (fun c => c <> "T"%char) before ->
     printout self fields = (List.flat_map (shown_object objects) before, Some IndexError)).
Proof.
  pose proof (parse_value_list_valid _ _ _ (field_list_arg_ok _ _ Hfields)) as Hvalid.
  pose proof (to_objects_length _ _ Hobjects) as Hlen.
  unfold printout. rewrite Hobjects. unfold Ok. cbv beta iota. split.
  - intros HT. apply (printout_loop_valid objects _ [] Hlen Hvalid).
    revert HT. unfold PyStr.mem. clear.
    induction (PyStr.chars fields) as [| c r IH]; intros H; [constructor |].
    cbn [List.existsb] in H. apply orb_false_iff in H. destruct H as [Hc Hr].
    constructor; [| apply IH, Hr].
    intros ->. discriminate Hc.
  - intros before after Hsplit HT. rewrite Hsplit in *.
    apply Forall_app in Hvalid. destruct Hvalid as [Hbefore _].
    assert (Hgen : forall printed,
              Forall (fun c => c <> "T"%char) before ->
              Forall (fun c => c ∈ field_letters) before ->
              printout_loop objects (before ++ "T"%char :: after) printed
              = ((printed ++ List.flat_map (shown_object objects) before)%list,
                 Some IndexError)).
    { clear Hsplit HT Hbefore. induction before as [| c r IH]; intros printed HT Hb.
      - cbn [app List.flat_map]. rewrite List.app_nil_r. apply printout_typecode, Hlen.
      - inversion HT; subst. inversion Hb; subst. cbn [app].
        rewrite printout_step by assumption. rewrite IH by assumption.
        cbn [List.flat_map]. rewrite <- List.app_assoc. reflexivity. }
    rewrite (Hgen []) by assumption. reflexivity.
Qed.

Lemma printout_of_validated_fields_witness :
  let objects := [ObjStr "-rw-r--r--"; ObjInt 1; ObjInt 1; ObjInt 1; ObjUid 0; ObjGid 0;
                  ObjFileSize 7; ObjUnixtime 0; ObjUnixtime 0; ObjUnixtime 0;
                  ObjStr "proj"; ObjStr "a"; ObjStr "proj/a"; ObjStr ""] in
  field_list_arg "size,name,target" = Ok "snt" /\
  printout (file "a" 7 32768) "snt" = ([ObjFileSize 7; ObjStr "a"], None) /\
  printout (file "a" 7 32768) "sTn" = ([ObjFileSize 7], Some IndexError).
Proof.
  intros objects. split; [reflexivity |]. split.
  - exact (proj1 (printout_of_validated_fields (file "a" 7 32768) "size,name,target" "snt"
                    objects eq_refl eq_refl) eq_refl).
  - refine (proj2 (printout_of_validated_fields (file "a" 7 32768) "sTn" "sTn"
                     objects eq_refl eq_refl) ["s"%char] ["n"%char] eq_refl _).
    repeat constructor. discriminate.
Defined.

(* ===================================================================== *)
(** ** The sort option, from the command line to the sort *)
(* ===================================================================== *)

Lemma sort_field_arg_ok (arg s : string) :
  sort_field_arg arg = Ok s ->
  exists fields has_plus letters,
    arg_has_plus arg = Some (fields, has_plus) /\
    parse_value_list fields field_words = Ok letters /\
    s = (if has_plus then "+" else "") +:+ letters.
Proof.
  unfold sort_field_arg. destruct (arg_has_plus arg) as [[fields has_plus] |]; [| discriminate].
  destruct (field_list_arg fields) as [e | letters] eqn:Hf; [discriminate |].
  intros [= <-]. exists fields, has_plus, letters.
  split; [reflexivity |]. split; [apply field_list_arg_ok, Hf | reflexivity].
Qed.

Lemma main_sort_given (s : string) :
  s <> "" -> main_sort (Some s) = if negb (PyStr.mem "n" s) then s +:+ "n" else s.
Proof. intros H. destruct s; [congruence | reflexivity]. Qed.

(** X10: a [--sort] value that [sort_field_arg] accepted never makes
    the sort fail: after [main] has added the name as the last key,
    [sort_stats] returns a rearrangement of the list it is given, for
    every list of records. *)
Theorem validated_sort_never_fails (arg s : string) (statlist : list FileStats)
    (Hsort : sort_field_arg arg = Ok s) :
  exists sorted,
    sort_stats (main_sort (Some s)) statlist = Ok sorted /\
    Permutation statlist sorted /\
    List.length sorted = List.length statlist.
Proof.
  destruct (sort_field_arg_ok arg s Hsort) as (fields & has_plus & letters & _ & Hparse & ->).
  pose proof (parse_value_list_nonempty _ _ _ Hparse) as Hne.
  pose proof (parse_value_list_valid _ _ _ Hparse) as Hvalid.
  set (plus := if has_plus then "+" else "").
  assert (Hkeys : exists keys,
            main_sort (Some (plus +:+ letters)) = plus +:+ keys /\ keys <> "" /\
            Forall (fun c => c ∈ field_letters) (PyStr.chars keys)).
  { rewrite main_sort_given by (unfold plus; destruct has_plus, letters; cbn; try discriminate; congruence).
    destruct (negb (PyStr.mem "n" (plus +:+ letters))).
    - exists (letters +:+ "n"). split; [| split].
      + unfold plus. destruct has_plus; cbn; reflexivity.
      + destruct letters; cbn; discriminate.
      + rewrite chars_append. apply Forall_app. split; [exact Hvalid |].
        constructor; [| constructor]. apply list_elem_of_In. cbn. tauto.
    - exists letters. split; [reflexivity | split; assumption]. }
  destruct Hkeys as (keys & -> & Hkne & Hkvalid).
  unfold sort_stats, plus. rewrite (arg_has_plus_sort keys has_plus Hkvalid Hkne).
  destruct (sort_passes_spec has_plus (List.rev (PyStr.chars keys)) [] statlist)
    as (sorted & Hs & Hperm & _).
  - apply List.Forall_rev. exact Hkvalid.
  - eapply strongly_sorted_weaken; [| apply strongly_sorted_any]. intros a b _. exact I.
  - exists sorted. split; [exact Hs |]. split; [exact Hperm |].
    symmetry. apply Permutation_length, Hperm.
Qed.

Lemma validated_sort_never_fails_witness :
  sort_field_arg "+size,mtime" = Ok "+sm" /\
  main_sort (Some "+sm") = "+smn" /\
  exists sorted,
    sort_stats (main_sort (Some "+sm")) [file "a" 1 32768; file "b" 2 32768] = Ok sorted /\
    Permutation [file "a" 1 32768; file "b" 2 32768] sorted /\
    List.length sorted = 2%nat.
Proof.
  split; [reflexivity |]. split; [reflexivity |].
  exact (validated_sort_never_fails "+size,mtime" "+sm"
           [file "a" 1 32768; file "b" 2 32768] eq_refl).
Defined.

(* ===================================================================== *)
(** ** The fields shown when [--fields] is not given *)
(* ===================================================================== *)

Lemma replace_char_forall (Q : ascii -> Prop) (old : ascii) (new s : string) :
  Forall Q (PyStr.chars new) -> Forall Q (PyStr.chars s) ->
  Forall Q (PyStr.chars (replace_char old new s)).
Proof.
  intros Hnew Hs. unfold replace_char. rewrite chars_of_chars.
  induction Hs as [| c r Hc _ IH]; [constructor |].
  cbn [List.flat_map]. apply Forall_app. split; [| exact IH].
  destruct (Ascii.eqb c old); [exact Hnew | constructor; [exact Hc | constructor]].
Qed.

Lemma time_field_list_arg_ok (arg letters : string) :
  time_field_list_arg arg = Ok letters ->
  Forall (fun c => c ∈ first_letters time_field_words) (PyStr.chars letters).
Proof.
  unfold time_field_list_arg, as_argument_error.
  destruct (parse_value_list arg time_field_words) as [[] | l] eqn:Hp; try discriminate.
  intros [= <-]. apply (parse_value_list_valid _ _ _ Hp).
Qed.

Lemma replace_char_keeps (c old : ascii) (new s : string) :
  c <> old -> PyStr.mem c s = true -> PyStr.mem c (replace_char old new s) = true.
Proof.
  intros Hne. unfold PyStr.mem, replace_char. rewrite chars_of_chars.
  induction (PyStr.chars s) as [| x r IH]; [discriminate |].
  cbn [List.existsb List.flat_map]. rewrite List.existsb_app. intros H.
  apply orb_true_iff in H. destruct H as [H | H].
  - apply Ascii.eqb_eq in H. subst x. destruct (Ascii.eqb_spec c old); [contradiction |].
    cbn [List.existsb]. rewrite Ascii.eqb_refl. reflexivity.
  - rewrite (IH H). apply orb_true_r.
Qed.

Lemma not_mem_forall (c : ascii) (s : string) :
  Forall (fun x => x <> c) (PyStr.chars s) -> PyStr.mem c s = false.
Proof.
  unfold PyStr.mem. induction 1 as [| x r Hx _ IH]; [reflexivity |].
  cbn [List.existsb]. rewrite IH, orb_false_r.
  destruct (Ascii.eqb_spec c x); [congruence | reflexivity].
Qed.

(** the field string [main] chooses when [--fields] is not given: the
    default string, with the name replaced or not, and then the
    modification time replaced by time field letters or not *)
Lemma main_fields_shape (w : World) (time sort : option string)
    (directory quiet merge : bool) :
  (forall t, time = Some t -> exists arg, time_field_list_arg arg = Ok t) ->
  let base := if directory || quiet || merge
              then replace_char "n" "f" (DEFAULT_FIELD_STRING w)
              else DEFAULT_FIELD_STRING w in
  exists new,
    Forall (fun c => c ∈ first_letters time_field_words) (PyStr.chars new) /\
    (main_fields w None time sort directory quiet merge = replace_char "m" new base \/
     main_fields w None time sort directory quiet merge = base).
Proof.
  intros Htime base. unfold main_fields. fold base.
  destruct time as [[| c t] |].
  2: { destruct (Htime _ eq_refl) as (arg & Harg). exists (String c t).
       split; [apply (time_field_list_arg_ok _ _ Harg) | left; reflexivity]. }
  all: set (key := match sort with
                   | None | Some EmptyString => "n"
                   | Some s => s
                   end);
    destruct (negb (String.eqb key "") && in_ac key) eqn:Hkey;
    [| exists ""; split; [constructor | right; reflexivity]];
    exists key; (split; [| left; reflexivity]);
    apply andb_true_iff in Hkey; destruct Hkey as [_ Hkey];
    unfold in_ac in Hkey; apply mem_string_in in Hkey; cbn in Hkey;
    destruct Hkey as [<- | [<- | [<- | [<- | []]]]]; repeat constructor.
Qed.

(** X25: when [--fields] is not given, the fields [main] chooses can
    always be printed.  The default field string, with the name replaced
    by the full path under [--quiet], [--directory] or [--merge], and the
    modification time replaced by the fields of a checked [--time] value
    or by the sort key when that is [a], [c] or [ac], consists of field
    letters that have an object: [printout] never fails on it for a
    record whose objects can be built.  Under [--quiet], [--directory] or
    [--merge] it shows the full path and not the name. *)
Theorem default_fields_always_print (w : World) (time sort : option string)
    (directory quiet merge : bool) (self : FileStats) (objects : list pyobj)
    (Htime : forall t, time = Some t -> exists arg, time_field_list_arg arg = Ok t)
    (Hobjects : to_objects self = Ok objects) :
  let fields := main_fields w None time sort directory quiet merge in
  printout self fields = (List.flat_map (shown_object objects) (PyStr.chars fields), None) /\
  (directory || quiet || merge = true ->
   PyStr.mem "n" fields = false /\ PyStr.mem "f" fields = true).
Proof.
  intros fields.
  destruct (main_fields_shape w time sort directory quiet merge Htime) as (new & Hnew & Hshape).
  fold fields in Hshape.
  set (base := if directory || quiet || merge
               then replace_char "n" "f" (DEFAULT_FIELD_STRING w)
               else DEFAULT_FIELD_STRING w) in *.
  assert (Hprop : forall Q : ascii -> Prop,
            Q "a"%char -> Q "m"%char -> Q "c"%char ->
            Forall Q (PyStr.chars base) -> Forall Q (PyStr.chars fields)).
  { intros Q Qa Qm Qc Hbase.
    assert (HnewQ : Forall Q (PyStr.chars new)).
    { eapply List.Forall_impl; [| exact Hnew]. intros c Hc.
      apply list_elem_of_In in Hc. cbn in Hc.
      destruct Hc as [<- | [<- | [<- | []]]]; assumption. }
    destruct Hshape as [-> | ->]; [apply replace_char_forall; assumption | exact Hbase]. }
  split.
  - unfold printout. rewrite Hobjects. unfold Ok. cbv beta iota.
    assert (Hvalid : Forall (fun c => c ∈ field_letters /\ c <> "T"%char) (PyStr.chars fields)).
    { apply Hprop; try (split; [apply list_elem_of_In; cbn; tauto | discriminate]).
      unfold base, DEFAULT_FIELD_STRING.
      destruct (directory || quiet || merge), (os_is_windows w); cbn;
        repeat constructor; try discriminate; apply list_elem_of_In; cbn; tauto. }
    apply (printout_loop_valid objects _ [] (to_objects_length _ _ Hobjects)).
    + eapply List.Forall_impl; [| exact Hvalid]. intros c [H _]. exact H.
    + eapply List.Forall_impl; [| exact Hvalid]. intros c [_ H]. exact H.
  - intros Hq. split.
    + apply not_mem_forall. apply Hprop; try discriminate.
      unfold base, DEFAULT_FIELD_STRING. rewrite Hq.
      destruct (os_is_windows w); cbn; repeat constructor; discriminate.
    + assert (Hbase : PyStr.mem "f" base = true).
      { unfold base, DEFAULT_FIELD_STRING. rewrite Hq. destruct (os_is_windows w); reflexivity. }
      destruct Hshape as [-> | ->]; [| exact Hbase].
      apply replace_char_keeps; [discriminate | exact Hbase].
Qed.

Lemma default_fields_always_print_witness :
  main_fields Posix.world None (Some "ca") None false true false = "MNugscaft" /\
  snd (printout (file "a" 7 32768)
         (main_fields Posix.world None (Some "ca") None false true false)) = None.
Proof.
  split; [reflexivity |].
  destruct (to_objects (file "a" 7 32768)) as [e | objects] eqn:Hobjects;
    [discriminate Hobjects |].
  assert (Htime : forall t, Some "ca" = Some t -> exists arg, time_field_list_arg arg = Ok t).
  { intros t [= <-]. exists "ctime,atime". reflexivity. }
  destruct (default_fields_always_print Posix.world (Some "ca") None false true false
              (file "a" 7 32768) objects Htime Hobjects) as [Hprint _].
  rewrite Hprint. reflexivity.
Defined.

(* ===================================================================== *)
(** ** Registering filters *)
(* ===================================================================== *)

Lemma from_string_grows (known : gmap string Z) (s : string) :
  known ⊆ snd (FileSize.from_string known s).
Proof.
  destruct (from_string_shape known s) as [_ [-> | (n & Hs & _ & ->)]];
    [reflexivity | apply insert_subseteq, Hs].
Qed.

Lemma uid_from_str_grows (w : World) (known : gmap string Z) (s : string) :
  known ⊆ snd (Uid.from_str w known s).
Proof.
  destruct (uid_from_str_shape w known s) as [_ [-> | (n & Hs & _ & ->)]];
    [reflexivity | apply insert_subseteq, Hs].
Qed.

Lemma gid_from_str_grows (w : World) (known : gmap string Z) (s : string) :
  known ⊆ snd (Gid.from_str w known s).
Proof.
  destruct (gid_from_str_shape w known s) as [_ [-> | (n & Hs & _ & ->)]];
    [reflexivity | apply insert_subseteq, Hs].
Qed.

Lemma str_to_secs_grows (w : World) (now : PyFloat.t) (known : gmap string Z) (s : string) :
  known ⊆ snd (Unixtime.str_to_secs w now known s).
Proof.
  unfold Unixtime.str_to_secs. destruct (known !! s) as [v |] eqn:Hs; [reflexivity |].
  destruct (Unixtime.before_now now s) as [e | n]; [| apply insert_subseteq, Hs].
  destruct e; cbv beta iota; try reflexivity.
  destruct (Unixtime.abstime_to_secs w s); [reflexivity | apply insert_subseteq, Hs].
Qed.

Lemma parse_each_grows (parse : gmap string Z -> string -> result Z * gmap string Z)
    (value_list : list string) :
  (forall known s, known ⊆ snd (parse known s)) ->
  forall known, known ⊆ snd (parse_each parse known value_list).
Proof.
  intros Hparse. induction value_list as [| x rest IH]; intros known; [reflexivity |].
  cbn [parse_each]. specialize (Hparse known x).
  destruct (parse known x) as [[e | n] known'] eqn:Hx; cbn [snd] in *; [exact Hparse |].
  specialize (IH known').
  destruct (parse_each parse known' rest) as [[e | ns] known'']; cbn [snd] in *;
    (etransitivity; [exact Hparse | exact IH]).
Qed.

(** the caches of a registry only grow while a filter is resolved *)
Lemma resolve_grows (w : World) (now : PyFloat.t) (field value : string) (op_index : bool)
    (reg : Registry) :
  let reg' := snd (resolve w now field value op_index reg) in
  size_strings reg ⊆ size_strings reg' /\ time_strings reg ⊆ time_strings reg' /\
  usernames reg ⊆ usernames reg' /\ groups reg ⊆ groups reg'.
Proof.
  unfold resolve.
  destruct (String.eqb field "Typecode").
  { destruct (typecode_list_from_string value); cbn; repeat split; reflexivity. }
  destruct (String.eqb field "uid").
  { pose proof (parse_each_grows (Uid.from_str w) (PyStr.split_on "," value)
                  (uid_from_str_grows w) (usernames reg)) as H.
    destruct (parse_each _ _ _) as [[e | l] known]; cbn in *; repeat split;
      try reflexivity; exact H. }
  destruct (String.eqb field "gid").
  { pose proof (parse_each_grows (Gid.from_str w) (PyStr.split_on "," value)
                  (gid_from_str_grows w) (groups reg)) as H.
    destruct (parse_each _ _ _) as [[e | l] known]; cbn in *; repeat split;
      try reflexivity; exact H. }
  destruct (is_time_field field).
  { pose proof (str_to_secs_grows w now (time_strings reg) value) as H.
    destruct (Unixtime.str_to_secs _ _ _ _) as [[e | n] known]; cbn in *; repeat split;
      try reflexivity; exact H. }
  destruct (String.eqb field "size").
  { pose proof (from_string_grows (size_strings reg) value) as H.
    destruct (FileSize.from_string _ _) as [[e | n] known]; cbn in *; repeat split;
      try reflexivity; exact H. }
  destruct (is_text_field field); [destruct (re_valid w value) |];
    cbn; repeat split; reflexivity.
Qed.

(** X11: registering a filter adds exactly one entry at the end of
    [FileStats.filter_list] when it succeeds, with the field it was
    called for, the value without its plus sign and (but for a python
    expression) the position of the field; it adds nothing when it
    raises.  The earlier entries stay as they are and the caches of the
    typed scalars only grow.  An empty value raises [IndexError] and a
    lone plus sign a [ValueError] without a message. *)
Theorem add_filter_registers_one (w : World) (now : PyFloat.t) (field value : string)
    (reg reg' : Registry) (r : result unit)
    (Hadd : add_filter w now field value reg = (r, reg')) :
  (size_strings reg ⊆ size_strings reg' /\ time_strings reg ⊆ time_strings reg' /\
   usernames reg ⊆ usernames reg' /\ groups reg ⊆ groups reg') /\
  match r with
  | inr _ =>
      exists f plus,
        filter_list reg' = (filter_list reg ++ [f])%list /\
        f_field f = field /\
        arg_has_plus value = Some (f_value f, plus) /\ f_value f <> "" /\
        (if String.eqb field "python" then f_index f = None /\ f_comparison f = FEval
         else f_index f = index_of String.eqb field field_words /\ f_index f <> None)
  | inl _ => filter_list reg' = filter_list reg
  end /\
  add_filter w now field "" reg = (Raise IndexError, reg) /\
  add_filter w now field "+" reg = (Raise (ValueError ""), reg).
Proof.
  split; [| split; [| split; reflexivity]].
  - revert Hadd. unfold add_filter.
    destruct (arg_has_plus value) as [[operand plus] |];
      [| intros [= <- <-]; repeat split; reflexivity].
    destruct (plus && String.eqb operand ""); [intros [= <- <-]; repeat split; reflexivity |].
    destruct (String.eqb field "python").
    + destruct (init w (argv0 w)); [intros [= <- <-]; repeat split; reflexivity |].
      destruct (py_eval w operand _); intros [= <- <-]; repeat split; reflexivity.
    + pose proof (resolve_grows w now field operand plus reg) as Hgrow. cbv zeta in Hgrow.
      destruct (resolve w now field operand plus reg) as [[e | [comparison nat]] reg1];
        cbn [snd] in Hgrow; [intros [= <- <-]; exact Hgrow |].
      destruct (index_of String.eqb field field_words); [| intros [= <- <-]; exact Hgrow].
      destruct comparison; intros [= <- <-]; exact Hgrow.
  - destruct r as [e | []]; [apply (add_filter_failure w now field value reg reg' e Hadd) |].
    revert Hadd. unfold add_filter.
    destruct (arg_has_plus value) as [[operand plus] |] eqn:Hplus; [| discriminate].
    destruct (plus && String.eqb operand "") eqn:Hempty; [discriminate |].
    assert (Hne : operand <> "").
    { intros ->. destruct plus; [discriminate Hempty |].
      destruct value as [| c v]; [discriminate Hplus |]. cbn in Hplus.
      destruct (Ascii.eqb c "+"); discriminate Hplus. }
    destruct (String.eqb field "python") eqn:Hpy.
    + destruct (init w (argv0 w)); [discriminate |].
      destruct (py_eval w operand _); [discriminate |]. intros [= <-].
      eexists _, plus. cbn. repeat split. exact Hne.
    + pose proof (resolve_keeps_filters w now field operand plus reg) as Hkeep.
      destruct (resolve w now field operand plus reg) as [[e | [comparison nat]] reg1];
        [discriminate |]. cbn [snd] in Hkeep.
      destruct (index_of String.eqb field field_words) eqn:Hidx; [| discriminate].
      destruct comparison; [| discriminate]. intros [= <-].
      eexists _, plus. cbn. rewrite Hkeep. repeat split; [exact Hne | discriminate].
Qed.

Lemma add_filter_registers_one_witness :
  let reg' := {| size_strings := <["1k" := 1024]> ∅; time_strings := ∅; usernames := ∅;
                 groups := ∅;
                 filter_list := [ {| f_field := "size"; f_comparison := FGt; f_value := "1k";
                                     f_index := Some 6%nat; f_native := NInt 1024 |} ] |} in
  add_filter Posix.world (PyFloat.of_Z 0) "size" "+1k" empty_registry = (Ok tt, reg') /\
  exists f plus,
    filter_list reg' = (filter_list empty_registry ++ [f])%list /\
    f_field f = "size" /\
    arg_has_plus "+1k" = Some (f_value f, plus) /\ f_value f <> "" /\
    f_index f = Some 6%nat /\ f_index f <> None.
Proof.
  intros reg'.
  assert (Hadd : add_filter Posix.world (PyFloat.of_Z 0) "size" "+1k" empty_registry
                 = (Ok tt, reg')) by reflexivity.
  split; [exact Hadd |].
  exact (proj1 (proj2 (add_filter_registers_one _ _ _ _ _ _ _ Hadd))).
Defined.

(** what a successful call of [add_filter] for a field other than
    [python] did *)
Lemma add_filter_resolved (w : World) (now : PyFloat.t) (field value : string)
    (reg reg' : Registry) :
  add_filter w now field value reg = (Ok tt, reg') -> String.eqb field "python" = false ->
  exists operand plus comparison native_value reg1 i,
    arg_has_plus value = Some (operand, plus) /\
    resolve w now field operand plus reg = (Ok (Some comparison, native_value), reg1) /\
    index_of String.eqb field field_words = Some i /\
    reg' = append_filter {| f_field := field; f_comparison := comparison; f_value := operand;
                            f_index := Some i; f_native := native_value |} reg1.
Proof.
  unfold add_filter. intros Hadd Hpy.
  destruct (arg_has_plus value) as [[operand plus] |]; [| discriminate].
  destruct (plus && String.eqb operand ""); [discriminate |]. rewrite Hpy in Hadd.
  destruct (resolve w now field operand plus reg) as [[e | [comparison nat]] reg1] eqn:Hres;
    [discriminate |].
  destruct (index_of String.eqb field field_words) as [i |]; [| discriminate].
  destruct comparison as [comparison |]; [| discriminate].
  injection Hadd as <-. exists operand, plus, comparison, nat, reg1, i.
  split; [reflexivity |]. split; [exact Hres |]. split; reflexivity.
Qed.

Lemma text_field_cases (field : string) :
  is_text_field field = true -> field = "name" \/ field = "path" \/ field = "filepath".
Proof.
  unfold is_text_field, mem_string. cbn [List.existsb]. intros H.
  repeat (apply orb_true_iff in H; destruct H as [H | H]);
    try (apply String.eqb_eq in H; subst; tauto).
  discriminate H.
Qed.

(** the table of [add_filter]: for each kind of field the comparison and
    the native value of the filter *)
Lemma resolve_ok (w : World) (now : PyFloat.t) (field operand : string) (plus : bool)
    (reg reg1 : Registry) (comparison : filter_op) (native_value : native) :
  resolve w now field operand plus reg = (Ok (Some comparison, native_value), reg1) ->
  (field = "Typecode" /\ comparison = (if plus then FIn else FNotIn) /\
   exists l, typecode_list_from_string operand = Ok l /\ native_value = NList l) \/
  (field = "uid" /\ comparison = (if plus then FNotIn else FIn) /\
   exists l, fst (parse_each (Uid.from_str w) (usernames reg) (PyStr.split_on "," operand))
             = Ok l /\ native_value = NList l) \/
  (field = "gid" /\ comparison = (if plus then FNotIn else FIn) /\
   exists l, fst (parse_each (Gid.from_str w) (groups reg) (PyStr.split_on "," operand))
             = Ok l /\ native_value = NList l) \/
  (is_time_field field = true /\ comparison = (if plus then FLt else FGt) /\
   exists n, fst (Unixtime.str_to_secs w now (time_strings reg) operand) = Ok n /\
             native_value = NInt n) \/
  (field = "size" /\ comparison = (if plus then FGt else FLt) /\
   exists n, fst (FileSize.from_string (size_strings reg) operand) = Ok n /\
             native_value = NInt n) \/
  (is_text_field field = true /\ comparison = (if plus then FNotMatch else FMatch) /\
   re_valid w operand = true /\ native_value = NRegex operand).
Proof.
  unfold resolve.
  destruct (String.eqb_spec field "Typecode") as [-> | _].
  { destruct (typecode_list_from_string operand) as [e | l]; [discriminate |].
    intros [= <- <- <-]. left. repeat split. exists l. split; reflexivity. }
  destruct (String.eqb_spec field "uid") as [-> | _].
  { destruct (parse_each _ _ _) as [[e | l] known]; [discriminate |].
    cbn [orb String.eqb Ascii.eqb Bool.eqb]. intros [= <- <- <-]. right; left.
    repeat split. exists l. split; reflexivity. }
  destruct (String.eqb_spec field "gid") as [-> | _].
  { destruct (parse_each _ _ _) as [[e | l] known]; [discriminate |].
    cbn [orb String.eqb Ascii.eqb Bool.eqb]. intros [= <- <- <-]. right; right; left.
    repeat split. exists l. split; reflexivity. }
  destruct (is_time_field field) eqn:Htime.
  { destruct (Unixtime.str_to_secs _ _ _ _) as [[e | n] known]; [discriminate |].
    intros [= <- <- <-]. right; right; right; left.
    repeat split. exists n. split; reflexivity. }
  destruct (String.eqb_spec field "size") as [-> | _].
  { destruct (FileSize.from_string _ _) as [[e | n] known]; [discriminate |].
    intros [= <- <- <-]. right; right; right; right; left.
    repeat split. exists n. split; reflexivity. }
  destruct (is_text_field field) eqn:Htext; [| cbn [orb]; discriminate].
  destruct (re_valid w operand) eqn:Hre; [| discriminate].
  intros [= <- <- <-]. right; right; right; right; right. repeat split.
Qed.

Lemma registered_filter (w : World) (now : PyFloat.t) (field value : string)
    (reg reg' : Registry) :
  add_filter w now field value reg = (Ok tt, reg') -> String.eqb field "python" = false ->
  exists operand plus comparison native_value i,
    arg_has_plus value = Some (operand, plus) /\
    index_of String.eqb field field_words = Some i /\
    filter_list reg'
    = (filter_list reg ++ [ {| f_field := field; f_comparison := comparison;
                               f_value := operand; f_index := Some i;
                               f_native := native_value |} ])%list /\
    ((field = "Typecode" /\ comparison = (if plus then FIn else FNotIn) /\
      exists l, typecode_list_from_string operand = Ok l /\ native_value = NList l) \/
     (field = "uid" /\ comparison = (if plus then FNotIn else FIn) /\
      exists l, fst (parse_each (Uid.from_str w) (usernames reg) (PyStr.split_on "," operand))
                = Ok l /\ native_value = NList l) \/
     (field = "gid" /\ comparison = (if plus then FNotIn else FIn) /\
      exists l, fst (parse_each (Gid.from_str w) (groups reg) (PyStr.split_on "," operand))
                = Ok l /\ native_value = NList l) \/
     (is_time_field field = true /\ comparison = (if plus then FLt else FGt) /\
      exists n, fst (Unixtime.str_to_secs w now (time_strings reg) operand) = Ok n /\
                native_value = NInt n) \/
     (field = "size" /\ comparison = (if plus then FGt else FLt) /\
      exists n, fst (FileSize.from_string (size_strings reg) operand) = Ok n /\
                native_value = NInt n) \/
     (is_text_field field = true /\ comparison = (if plus then FNotMatch else FMatch) /\
      re_valid w operand = true /\ native_value = NRegex operand)).
Proof.
  intros Hadd Hpy.
  destruct (add_filter_resolved w now field value reg reg' Hadd Hpy)
    as (operand & plus & comparison & nat & reg1 & i & Hplus & Hres & Hidx & ->).
  exists operand, plus, comparison, nat, i.
  split; [exact Hplus |]. split; [exact Hidx |]. split.
  - cbn [append_filter filter_list].
    pose proof (resolve_keeps_filters w now field operand plus reg) as Hkeep.
    rewrite Hres in Hkeep. cbn [snd] in Hkeep. rewrite Hkeep. reflexivity.
  - apply (resolve_ok w now field operand plus reg reg1), Hres.
Qed.

Ltac other_field H :=
  let Hf := fresh "Hf" in
  destruct H as (Hf & _); exfalso; vm_compute in Hf; discriminate Hf.

(** X12: a size filter and a time filter compare strictly.  [-s VALUE]
    keeps the records that are smaller than the value and [-s +VALUE]
    those that are larger; for a time field the filter keeps the records
    with a later time, and with a plus sign those with an earlier one.
    The number compared with is what [FileSize.from_string] or
    [Unixtime.str_to_secs] made of the value when the filter was
    registered.  A record that has exactly that number passes neither
    the filter nor the one with the plus sign. *)
Theorem threshold_filters_are_strict (w : World) (now : PyFloat.t) (field value : string)
    (reg reg' : Registry) (self : FileStats)
    (Hfield : field = "size" \/ is_time_field field = true)
    (Hadd : add_filter w now field value reg = (Ok tt, reg')) :
  exists operand plus n f v,
    arg_has_plus value = Some (operand, plus) /\
    fst (if String.eqb field "size" then FileSize.from_string (size_strings reg) operand
         else Unixtime.str_to_secs w now (time_strings reg) operand) = Ok n /\
    filter_list reg' = (filter_list reg ++ [f])%list /\
    getitem_any self (OStr field) = Ok (VInt v) /\
    holds w self f
    = Ok (if Bool.eqb plus (String.eqb field "size") then v >? n else v <? n) /\
    (v = n -> holds w self f = Ok false).
Proof.
  assert (Hpy : String.eqb field "python" = false).
  { destruct Hfield as [-> | H]; [reflexivity |].
    apply time_field_cases in H. destruct H as [-> | [-> | ->]]; reflexivity. }
  destruct (registered_filter w now field value reg reg' Hadd Hpy)
    as (operand & plus & comparison & nat & i & Hplus & Hidx & Hlist & Hcase).
  assert (Hfields : field = "size" \/ field = "mtime" \/ field = "atime" \/ field = "ctime").
  { destruct Hfield as [-> | H]; [tauto |]. apply time_field_cases in H. tauto. }
  assert (Hstrict : forall v n : Z, v = n -> (v >? n) = false /\ (v <? n) = false).
  { intros v n ->. split; [rewrite Z.gtb_ltb |]; apply Z.ltb_irrefl. }
  destruct Hfields as [-> | [-> | [-> | ->]]];
    vm_compute in Hidx; injection Hidx as <-;
    (destruct Hcase as [H | [H | [H | [H | [H | H]]]]];
     [other_field H | other_field H | other_field H | try other_field H | try other_field H
      | other_field H]);
    destruct H as (_ & -> & n & Hn & ->);
    eexists operand, plus, n, _, _;
    (split; [exact Hplus |]); (split; [exact Hn |]); (split; [exact Hlist |]);
    (split; [reflexivity |]);
    (split; [destruct plus; reflexivity |]);
    intros Hv; destruct (Hstrict _ _ Hv) as [Hgt Hlt];
    destruct plus; cbn; rewrite ?Hgt, ?Hlt; reflexivity.
Qed.

Lemma threshold_filters_are_strict_witness :
  exists f,
    registered Posix.world (PyFloat.of_Z 0) "size" "+1k" = [f] /\
    holds Posix.world (file "a" 1024 32768) f = Ok false /\
    holds Posix.world (file "a" 1025 32768) f = Ok true.
Proof.
  destruct (threshold_filters_are_strict Posix.world (PyFloat.of_Z 0) "size" "+1k"
              empty_registry _ (file "a" 1024 32768) (or_introl eq_refl)
              (registered_size_above Posix.world (PyFloat.of_Z 0)))
    as (operand & plus & n & f & v & Hplus & Hn & Hlist & Hv & Hholds & Hstrict).
  exists f. cbn [filter_list app] in Hlist. injection Hlist as <-.
  split; [reflexivity |]. split; [| reflexivity].
  apply Hstrict. injection Hplus as <- <-. injection Hv as <-. injection Hn as <-. reflexivity.
Defined.

Lemma parse_each_length (parse : gmap string Z -> string -> result Z * gmap string Z)
    (value_list : list string) (known : gmap string Z) (l : list Z) :
  fst (parse_each parse known value_list) = Ok l -> List.length l = List.length value_list.
Proof.
  revert known l. induction value_list as [| x rest IH]; intros known l; cbn [parse_each].
  - intros [= <-]. reflexivity.
  - destruct (parse known x) as [[e | n] known']; [discriminate |].
    specialize (IH known').
    destruct (parse_each parse known' rest) as [[e | ns] known'']; [discriminate |].
    intros [= <-]. cbn [List.length]. f_equal. apply IH. reflexivity.
Qed.

(** X13: an owner filter tests membership.  [-u VALUE] (and [-g VALUE])
    keeps the records whose uid (gid) is one of the ids that
    [Uid.from_str] ([Gid.from_str]) made of the comma separated parts of
    the value when the filter was registered, one id for each part; with
    a plus sign it keeps the others. *)
Theorem owner_filters_test_membership (w : World) (now : PyFloat.t) (field value : string)
    (reg reg' : Registry) (self : FileStats)
    (Hfield : field = "uid" \/ field = "gid")
    (Hadd : add_filter w now field value reg = (Ok tt, reg')) :
  exists operand plus ids f,
    arg_has_plus value = Some (operand, plus) /\
    fst (if String.eqb field "uid"
         then parse_each (Uid.from_str w) (usernames reg) (PyStr.split_on "," operand)
         else parse_each (Gid.from_str w) (groups reg) (PyStr.split_on "," operand)) = Ok ids /\
    List.length ids = List.length (PyStr.split_on "," operand) /\
    filter_list reg' = (filter_list reg ++ [f])%list /\
    holds w self f
    = Ok (xorb plus (mem_Z (if String.eqb field "uid" then uid self else gid self) ids)).
Proof.
  assert (Hpy : String.eqb field "python" = false) by (destruct Hfield as [-> | ->]; reflexivity).
  destruct (registered_filter w now field value reg reg' Hadd Hpy)
    as (operand & plus & comparison & nat & i & Hplus & Hidx & Hlist & Hcase).
  destruct Hfield as [-> | ->];
    vm_compute in Hidx; injection Hidx as <-;
    (destruct Hcase as [H | [H | [H | [H | [H | H]]]]];
     [other_field H | try other_field H | try other_field H | other_field H | other_field H
      | other_field H]);
    destruct H as (_ & -> & ids & Hids & ->);
    eexists operand, plus, ids, _;
    (split; [exact Hplus |]); (split; [exact Hids |]);
    (split; [eapply parse_each_length; exact Hids |]);
    (split; [exact Hlist |]);
    destruct plus; reflexivity.
Qed.

Lemma owner_filters_test_membership_witness :
  exists reg' f,
    add_filter Posix.world (PyFloat.of_Z 0) "uid" "+root,1000" empty_registry = (Ok tt, reg') /\
    filter_list reg' = [f] /\
    f_native f = NList [0; 1000] /\
    holds Posix.world (file "a" 1 32768) f = Ok false.
Proof.
  destruct (add_filter Posix.world (PyFloat.of_Z 0) "uid" "+root,1000" empty_registry)
    as [r reg'] eqn:Hadd.
  assert (Hr : r = Ok tt) by (vm_compute in Hadd; injection Hadd as <- _; reflexivity).
  subst r.
  destruct (owner_filters_test_membership _ _ _ _ _ _ (file "a" 1 32768) (or_introl eq_refl)
              Hadd) as (operand & plus & ids & f & Hplus & Hids & Hlen & Hlist & Hholds).
  exists reg', f. split; [reflexivity |]. split; [exact Hlist |].
  vm_compute in Hadd. injection Hadd as <-. cbn [filter_list app] in Hlist.
  injection Hlist as <-. split; reflexivity.
Defined.

(** X14: a text filter searches.  [-n], [-p] and [-r] keep the records
    in whose name, path or full path the regular expression finds a
    match, and with a plus sign those in which it finds none; an
    expression that does not compile raises the error of [re.compile],
    and nothing is registered. *)
Theorem text_filters_search (w : World) (now : PyFloat.t) (field value operand : string)
    (plus : bool) (reg : Registry) (self : FileStats)
    (Hfield : is_text_field field = true)
    (Hplus : arg_has_plus value = Some (operand, plus))
    (Hne : operand <> "") :
  (re_valid w operand = false -> add_filter w now field value reg = (Raise ReError, reg)) /\
  (re_valid w operand = true ->
   exists reg' f text,
     add_filter w now field value reg = (Ok tt, reg') /\
     filter_list reg' = (filter_list reg ++ [f])%list /\
     getitem_any self (OStr field) = Ok (VStr text) /\
     holds w self f = Ok (xorb plus (re_search w operand text))).
Proof.
  assert (Hempty : plus && String.eqb operand "" = false).
  { destruct (String.eqb_spec operand ""); [congruence | apply andb_false_r]. }
  apply text_field_cases in Hfield.
  split; intros Hre.
  - destruct Hfield as [-> | [-> | ->]];
      unfold add_filter; rewrite Hplus, Hempty; cbn [String.eqb Ascii.eqb Bool.eqb];
      unfold resolve; cbn [String.eqb Ascii.eqb Bool.eqb orb is_time_field is_text_field
                           mem_string List.existsb];
      rewrite Hre; reflexivity.
  - destruct Hfield as [-> | [-> | ->]];
      unfold add_filter; rewrite Hplus, Hempty; cbn [String.eqb Ascii.eqb Bool.eqb];
      unfold resolve; cbn [String.eqb Ascii.eqb Bool.eqb orb is_time_field is_text_field
                           mem_string List.existsb];
      rewrite Hre; cbn [index_of field_words String.eqb Ascii.eqb Bool.eqb option_map];
      eexists _, _, _; (split; [reflexivity |]); (split; [reflexivity |]);
      (split; [reflexivity |]); destruct plus; reflexivity.
Qed.

Lemma text_filters_search_witness :
  exists reg' f,
    add_filter Posix.world (PyFloat.of_Z 0) "name" "+.txt" empty_registry = (Ok tt, reg') /\
    filter_list reg' = [f] /\
    holds Posix.world (file "a.txt" 1 32768) f = Ok false /\
    holds Posix.world (file "b.py" 1 32768) f = Ok true.
Proof.
  destruct (proj2 (text_filters_search Posix.world (PyFloat.of_Z 0) "name" "+.txt" ".txt" true
                     empty_registry (file "a.txt" 1 32768) eq_refl eq_refl
                     ltac:(discriminate)) eq_refl)
    as (reg' & f & text & Hadd & Hlist & Htext & Hholds).
  exists reg', f. split; [exact Hadd |]. split; [exact Hlist |].
  vm_compute in Hadd. injection Hadd as <-. cbn [filter_list app] in Hlist.
  injection Hlist as <-. split; reflexivity.
Defined.

Lemma typecodes_of_elem (l : list ascii) (codes : list Z) (z : Z) :
  typecodes_of l = Ok codes ->
  (z ∈ codes <-> exists c, c ∈ l /\ FileTypeCode.from_char c = Some z).
Proof.
  revert codes. induction l as [| c l IH]; intros codes; cbn [typecodes_of].
  - intros [= <-]. split.
    + intros H. inversion H.
    + intros (c & H & _). inversion H.
  - destruct (FileTypeCode.from_char c) as [code |] eqn:Hc; [| discriminate].
    destruct (typecodes_of l) as [e | codes'] eqn:Hl; [discriminate |].
    intros [= <-]. specialize (IH codes' eq_refl). rewrite elem_of_cons, IH. split.
    + intros [-> | (c' & Hin & Hc')].
      * exists c. split; [left | exact Hc].
      * exists c'. split; [right; exact Hin | exact Hc'].
    + intros (c' & Hin & Hc'). apply elem_of_cons in Hin. destruct Hin as [-> | Hin].
      * left. congruence.
      * right. exists c'. split; assumption.
Qed.

Lemma type_letter_from_char (code : Z) (c : ascii) :
  type_letter code = Some c <->
  (code = FileTypeCode.broken_link /\ c = "l"%char) \/ FileTypeCode.from_char c = Some code.
Proof.
  split.
  - unfold type_letter.
    repeat (match goal with
            | |- context [?a =? ?b] => destruct (Z.eqb_spec a b) as [-> | ?]
            end; [intros [= <-]; (left; split; reflexivity) || (right; reflexivity) |]).
    discriminate.
  - intros [[-> ->] | H]; [reflexivity |]. revert H. unfold FileTypeCode.from_char.
    repeat (match goal with
            | |- context [Ascii.eqb ?a ?b] => destruct (Ascii.eqb_spec a b) as [-> | ?]
            end; [intros [= <-]; reflexivity |]).
    discriminate.
Qed.

Lemma mem_Z_elem (x : Z) (l : list Z) : mem_Z x l = true <-> x ∈ l.
Proof.
  unfold mem_Z. rewrite List.existsb_exists, list_elem_of_In. split.
  - intros (y & Hy & He). apply Z.eqb_eq in He. subst. exact Hy.
  - intros H. exists x. split; [exact H | apply Z.eqb_refl].
Qed.

(** the type codes of an option value are those of its letters *)
Lemma typecode_list_letters (operand : string) (l : list Z) (code : Z) (c : ascii) :
  typecode_list_from_string operand = Ok l -> type_letter code = Some c ->
  exists tc_set, type_set_from_string operand = Ok tc_set /\
                 mem_Z code l = bool_decide (c ∈ tc_set).
Proof.
  unfold typecode_list_from_string. intros Hl Hc.
  destruct (type_set_from_string operand) as [e | tc_set]; [discriminate |].
  exists tc_set. split; [reflexivity |].
  destruct (typecodes_of (elements tc_set)) as [e | codes] eqn:Hcodes; [discriminate |].
  pose proof (fun z => typecodes_of_elem _ _ z Hcodes) as Hin.
  apply type_letter_from_char in Hc.
  assert (Hiff : code ∈ l <-> c ∈ tc_set).
  { destruct (bool_decide ("l"%char ∈ tc_set)) eqn:Hlink; injection Hl as <-.
    - apply bool_decide_eq_true in Hlink. rewrite elem_of_app, Hin, list_elem_of_singleton. split.
      + intros [(c' & Hc' & Hfrom) | ->].
        * apply elem_of_elements in Hc'. destruct Hc as [[-> ->] | Hc]; [exact Hlink |].
          assert (type_letter code = Some c') by (apply type_letter_from_char; right; exact Hfrom).
          assert (type_letter code = Some c) by (apply type_letter_from_char; right; exact Hc).
          congruence.
        * destruct Hc as [[_ ->] | Hc]; [exact Hlink |].
          assert (H : type_letter FileTypeCode.broken_link = Some c)
            by (apply type_letter_from_char; right; exact Hc).
          injection H as <-. exact Hlink.
      + intros Hset. destruct Hc as [[-> ->] | Hc]; [right; reflexivity |].
        left. exists c. split; [apply elem_of_elements, Hset | exact Hc].
    - apply bool_decide_eq_false in Hlink. rewrite Hin. split.
      + intros (c' & Hc' & Hfrom). apply elem_of_elements in Hc'.
        assert (H1 : type_letter code = Some c')
          by (apply type_letter_from_char; right; exact Hfrom).
        destruct Hc as [[-> ->] | Hc].
        * injection H1 as <-. exact Hc'.
        * assert (type_letter code = Some c) by (apply type_letter_from_char; right; exact Hc).
          congruence.
      + intros Hset. destruct Hc as [[-> ->] | Hc]; [contradiction |].
        exists c. split; [apply elem_of_elements, Hset | exact Hc]. }
  destruct (mem_Z code l) eqn:Hmem.
  - symmetry. apply bool_decide_eq_true, Hiff, mem_Z_elem, Hmem.
  - symmetry. apply bool_decide_eq_false. intros Hset.
    apply Hiff, mem_Z_elem in Hset. congruence.
Qed.

(** X15: a type filter selects by type letter.  [-e VALUE] drops the
    records whose type letter (with a broken link counted as a link) is
    in the letter set of the value, and [-e +VALUE] keeps exactly those.
    This holds for every record with one of the eight type codes the
    program knows. *)
Theorem type_filter_selects_by_letter (w : World) (now : PyFloat.t) (value : string)
    (reg reg' : Registry) (self : FileStats) (c : ascii)
    (Hadd : add_filter w now "Typecode" value reg = (Ok tt, reg'))
    (Hletter : type_letter (Typecode self) = Some c) :
  exists operand plus tc_set f,
    arg_has_plus value = Some (operand, plus) /\
    type_set_from_string operand = Ok tc_set /\
    filter_list reg' = (filter_list reg ++ [f])%list /\
    holds w self f = Ok (xorb (negb plus) (bool_decide (c ∈ tc_set))).
Proof.
  destruct (registered_filter w now "Typecode" value reg reg' Hadd eq_refl)
    as (operand & plus & comparison & nat & i & Hplus & Hidx & Hlist & Hcase).
  vm_compute in Hidx. injection Hidx as <-.
  destruct Hcase as [H | [H | [H | [H | [H | H]]]]];
    [| other_field H | other_field H | other_field H | other_field H | other_field H].
  destruct H as (_ & -> & l & Hl & ->).
  destruct (typecode_list_letters operand l (Typecode self) c Hl Hletter)
    as (tc_set & Hset & Hmem).
  eexists operand, plus, tc_set, _.
  split; [exact Hplus |]. split; [exact Hset |]. split; [exact Hlist |].
  rewrite <- Hmem. destruct plus; cbn; destruct (mem_Z (Typecode self) l); reflexivity.
Qed.

Lemma type_filter_selects_by_letter_witness :
  exists reg' f,
    add_filter Posix.world (PyFloat.of_Z 0) "Typecode" "+dir,link" empty_registry
    = (Ok tt, reg') /\
    filter_list reg' = [f] /\
    holds Posix.world (file "x" 0 FileTypeCode.broken_link) f = Ok true /\
    holds Posix.world (file "f" 0 FileTypeCode.S_IFREG) f = Ok false.
Proof.
  destruct (add_filter Posix.world (PyFloat.of_Z 0) "Typecode" "+dir,link" empty_registry)
    as [r reg'] eqn:Hadd.
  assert (Hr : r = Ok tt) by (vm_compute in Hadd; injection Hadd as <- _; reflexivity).
  subst r.
  destruct (type_filter_selects_by_letter _ _ _ _ _ (file "x" 0 FileTypeCode.broken_link)
              "l"%char Hadd eq_refl) as (operand & plus & tc_set & f & Hplus & Hset & Hlist & Hh).
  exists reg', f. split; [reflexivity |]. split; [exact Hlist |].
  vm_compute in Hadd. injection Hadd as <-. cbn [filter_list app] in Hlist.
  injection Hlist as <-. split; reflexivity.
Defined.

Lemma appended_filter_shape (w : World) (now : PyFloat.t) (field value : string)
    (reg reg' : Registry) :
  add_filter w now field value reg = (Ok tt, reg') ->
  exists f, filter_list reg' = (filter_list reg ++ [f])%list /\
            (if String.eqb field "python" then f_comparison f = FEval else True).
Proof.
  unfold add_filter.
  destruct (arg_has_plus value) as [[operand plus] |]; [| discriminate].
  destruct (plus && String.eqb operand ""); [discriminate |].
  destruct (String.eqb field "python").
  - destruct (init w (argv0 w)); [discriminate |].
    destruct (py_eval w operand _); [discriminate |]. intros [= <-].
    eexists. split; reflexivity.
  - pose proof (resolve_keeps_filters w now field operand plus reg) as Hkeep.
    destruct (resolve w now field operand plus reg) as [[e | [comparison nat]] reg1];
      [discriminate |]. cbn [snd] in Hkeep.
    destruct (index_of String.eqb field field_words); [| discriminate].
    destruct comparison; [| discriminate]. intros [= <-].
    eexists. cbn. rewrite Hkeep. split; [reflexivity | exact I].
Qed.

(* ===================================================================== *)
(** ** Applying filters *)
(* ===================================================================== *)

(** the test of a filter, as a truth value *)
Lemma passes_filters_forallb (w : World) (filters : list Filter) (self : FileStats) :
  Forall (fun f => exists b, holds w self f = Ok b) filters ->
  passes_filters w filters self
  = Ok (List.forallb (fun f => match holds w self f with inr true => true | _ => false end)
          filters).
Proof.
  unfold passes_filters. intros H. induction H as [| f rest (b & Hb) _ IH]; [reflexivity |].
  cbn [first_failing List.forallb]. rewrite Hb. unfold Ok at 1. cbv beta iota.
  destruct b; [exact IH | reflexivity].
Qed.

Lemma well_formed_passes (w : World) (filters : list Filter) (self : FileStats) :
  Forall well_formed filters -> Forall (fun f => f_comparison f <> FEval) filters ->
  Forall (fun f => exists b, holds w self f = Ok b) filters.
Proof.
  intros Hwf. induction Hwf as [| f rest Hf _ IH]; intros Hev; [constructor |].
  inversion Hev as [| ? ? Hne Hrest]; subst. constructor; [| apply IH, Hrest].
  destruct Hf as [Hf | Hf]; [contradiction | apply Hf].
Qed.

(** X16: the filters [add_filter] registers fit the records they are
    applied to: if every filter of the list was well formed before a
    call, every filter is so after it, whatever the call did.  So with
    filters registered by [add_filter] and no python expression among
    them, [passes_filters] returns a truth value for every record and
    never raises. *)
Theorem registered_filters_cannot_fail (w : World) (now : PyFloat.t) (field value : string)
    (reg reg' : Registry) (r : result unit)
    (Hreg : Forall well_formed (filter_list reg))
    (Hadd : add_filter w now field value reg = (r, reg')) :
  Forall well_formed (filter_list reg') /\
  (Forall (fun f => f_comparison f <> FEval) (filter_list reg') ->
   forall w' self, exists b, passes_filters w' (filter_list reg') self = Ok b).
Proof.
  assert (Hwf : Forall well_formed (filter_list reg')).
  { destruct r as [e | []].
    - rewrite (add_filter_failure w now field value reg reg' e Hadd). exact Hreg.
    - destruct (String.eqb field "python") eqn:Hpy.
      + destruct (appended_filter_shape w now field value reg reg' Hadd)
          as (f & Hlist & Hcmp).
        rewrite Hpy in Hcmp. rewrite Hlist. apply Forall_app. split; [exact Hreg |].
        constructor; [left; exact Hcmp | constructor].
      + destruct (registered_filter w now field value reg reg' Hadd Hpy)
          as (operand & plus & comparison & nat & i & Hplus & Hidx & Hlist & Hcase).
        rewrite Hlist. apply Forall_app. split; [exact Hreg |].
        constructor; [| constructor]. right. intros w' self.
        destruct Hcase as [H | [H | [H | [H | [H | H]]]]].
        * destruct H as (-> & -> & l & _ & ->). vm_compute in Hidx. injection Hidx as <-.
          destruct plus; eexists; reflexivity.
        * destruct H as (-> & -> & l & _ & ->). vm_compute in Hidx. injection Hidx as <-.
          destruct plus; eexists; reflexivity.
        * destruct H as (-> & -> & l & _ & ->). vm_compute in Hidx. injection Hidx as <-.
          destruct plus; eexists; reflexivity.
        * destruct H as (Hf & -> & n & _ & ->). apply time_field_cases in Hf.
          destruct Hf as [-> | [-> | ->]]; vm_compute in Hidx; injection Hidx as <-;
            destruct plus; eexists; reflexivity.
        * destruct H as (-> & -> & n & _ & ->). vm_compute in Hidx. injection Hidx as <-.
          destruct plus; eexists; reflexivity.
        * destruct H as (Hf & -> & _ & ->). apply text_field_cases in Hf.
          destruct Hf as [-> | [-> | ->]]; vm_compute in Hidx; injection Hidx as <-;
            destruct plus; eexists; reflexivity. }
  split; [exact Hwf |]. intros Hev w' self. eexists.
  apply passes_filters_forallb, well_formed_passes; assumption.
Qed.

Lemma registered_filters_cannot_fail_witness :
  let filters := registered Posix.world (PyFloat.of_Z 0) "size" "+1k" in
  Forall well_formed filters /\
  exists b, passes_filters Posix.world filters (file "a" 2048 32768) = Ok b.
Proof.
  intros filters.
  destruct (registered_filters_cannot_fail Posix.world (PyFloat.of_Z 0) "size" "+1k"
              empty_registry _ _ ltac:(constructor)
              (registered_size_above Posix.world (PyFloat.of_Z 0))) as [Hwf Hpass].
  split; [exact Hwf |]. apply Hpass. repeat constructor. discriminate.
Defined.

Lemma keep_passing_spec (w : World) (filters : list Filter) (statlist : list FileStats) :
  match keep_passing w filters statlist with
  | inr kept =>
      kept = List.filter (fun s => match passes_filters w filters s with
                                   | inr true => true
                                   | _ => false
                                   end) statlist /\
      Forall (fun s => exists b, passes_filters w filters s = Ok b) statlist
  | inl e => exists s, List.In s statlist /\ passes_filters w filters s = Raise e
  end.
Proof.
  induction statlist as [| s rest IH]; cbn [keep_passing].
  - split; [reflexivity | constructor].
  - destruct (passes_filters w filters s) as [e | b] eqn:Hs.
    + exists s. split; [left; reflexivity | exact Hs].
    + destruct (keep_passing w filters rest) as [e | kept].
      * destruct IH as (s' & Hin & Hs'). exists s'. split; [right; exact Hin | exact Hs'].
      * destruct IH as [-> Hall]. split.
        -- cbn [List.filter]. rewrite Hs. destruct b; reflexivity.
        -- constructor; [exists b; exact Hs | exact Hall].
Qed.

Lemma passes_filters_nil (w : World) (self : FileStats) : passes_filters w [] self = Ok true.
Proof. reflexivity. Qed.

Lemma apply_all_filters_spec (w : World) (filters : list Filter)
    (statlist : list FileStats) :
  match apply_all_filters w filters statlist with
  | inr kept =>
      kept = List.filter (fun s => match passes_filters w filters s with
                                   | inr true => true
                                   | _ => false
                                   end) statlist
  | inl e => True
  end.
Proof.
  destruct filters as [| f filters].
  - cbn [apply_all_filters]. symmetry. apply List.forallb_filter_id.
    apply List.forallb_forall. intros s _. reflexivity.
  - cbn [apply_all_filters]. pose proof (keep_passing_spec w (f :: filters) statlist) as H.
    destruct (keep_passing w (f :: filters) statlist) as [e | kept]; [exact I |].
    destruct H as [H _]. exact H.
Qed.

(** X17: [apply_all_filters] keeps the records that pass the filters,
    in the order they had, and drops the others; applying it to its own
    result changes nothing.  It raises only when [passes_filters] raises
    for one of the records, and then with that exception. *)
Theorem apply_all_filters_keeps_the_passing (w : World) (filters : list Filter)
    (statlist : list FileStats) :
  match apply_all_filters w filters statlist with
  | inr kept =>
      kept = List.filter (fun s => match passes_filters w filters s with
                                   | inr true => true
                                   | _ => false
                                   end) statlist /\
      (forall s, List.In s kept <->
                 List.In s statlist /\ passes_filters w filters s = Ok true) /\
      apply_all_filters w filters kept = Ok kept
  | inl e => exists s, List.In s statlist /\ passes_filters w filters s = Raise e
  end.
Proof.
  set (test := fun s => match passes_filters w filters s with inr true => true | _ => false end).
  assert (Htest : forall s, test s = true <-> passes_filters w filters s = Ok true).
  { intros s. unfold test. destruct (passes_filters w filters s) as [e | []]; split;
      intros H; try reflexivity; discriminate H. }
  destruct filters as [| f filters].
  - cbn [apply_all_filters]. split; [| split; [| reflexivity]].
    + symmetry. apply List.forallb_filter_id. apply List.forallb_forall. intros s _. reflexivity.
    + intros s. split; [intros H; split; [exact H | reflexivity] | intros [H _]; exact H].
  - cbn [apply_all_filters]. pose proof (keep_passing_spec w (f :: filters) statlist) as H.
    destruct (keep_passing w (f :: filters) statlist) as [e | kept] eqn:Hkept; [exact H |].
    destruct H as [Hk Hall]. fold test in Hk. split; [exact Hk |]. split.
    + intros s. rewrite Hk, List.filter_In, Htest. reflexivity.
    + pose proof (keep_passing_spec w (f :: filters) kept) as H2.
      destruct (keep_passing w (f :: filters) kept) as [e | kept2].
      * destruct H2 as (s & Hin & Hs). rewrite Hk in Hin. apply List.filter_In in Hin.
        destruct Hin as [_ Hin]. apply Htest in Hin. rewrite Hs in Hin. discriminate Hin.
      * destruct H2 as [-> _]. fold test. f_equal. rewrite Hk. apply List.forallb_filter_id.
        apply List.forallb_forall. intros s Hin. apply List.filter_In in Hin. tauto.
Qed.

(** X18: as long as no filter raises for a record, the order of the
    filters does not matter for it: [passes_filters] gives the same
    answer for every rearrangement of the list.  (With a filter that
    raises the order does matter: the loop stops at the first filter that
    fails, and a failing filter in front hides the exception.) *)
Theorem passes_filters_order_is_immaterial (w : World) (filters filters' : list Filter)
    (self : FileStats)
    (Hperm : Permutation filters filters')
    (Hok : Forall (fun f => exists b, holds w self f = Ok b) filters) :
  passes_filters w filters self = passes_filters w filters' self.
Proof.
  assert (Hok' : Forall (fun f => exists b, holds w self f = Ok b) filters').
  { eapply Permutation_Forall; eassumption. }
  rewrite !passes_filters_forallb by assumption. f_equal.
  clear Hok Hok'. induction Hperm as [| x l l' _ IH | x y l | l l' l'' _ IH1 _ IH2].
  - reflexivity.
  - cbn [List.forallb]. rewrite IH. reflexivity.
  - cbn [List.forallb]. rewrite !andb_assoc. f_equal. apply andb_comm.
  - congruence.
Qed.

Lemma passes_filters_order_is_immaterial_witness :
  let small := {| f_field := "size"; f_comparison := FLt; f_value := "1k";
                  f_index := Some 6%nat; f_native := NInt 1024 |} in
  let dirs := {| f_field := "Typecode"; f_comparison := FIn; f_value := "d";
                 f_index := Some 14%nat; f_native := NList [16384] |} in
  passes_filters Posix.world [small; dirs] (file "a" 10 32768)
  = passes_filters Posix.world [dirs; small] (file "a" 10 32768).
Proof.
  intros small dirs.
  apply passes_filters_order_is_immaterial.
  - apply perm_swap.
  - repeat constructor; eexists; reflexivity.
Defined.

(* ===================================================================== *)
(** ** Byte counts in words *)
(* ===================================================================== *)

Section ByteCounts.

Import PyFloat.

(** a value with at most 53 significant bits is not changed by rounding,
    however many zero bits follow them *)
Lemma round_representable (m j e : Z) :
  bits (Z.abs m) <= prec -> 0 <= j -> emin <= e + j -> bits (Z.abs m) + e + j <= emax ->
  round (m * 2 ^ j) e = norm m (e + j).
Proof.
  intros Hb Hj He Ho.
  destruct (Z.eq_dec m 0) as [-> | Hm]; [reflexivity |].
  assert (Hpow : 0 < 2 ^ j) by (apply Z.pow_pos_nonneg; lia).
  assert (Ha : Z.abs (m * 2 ^ j) = Z.abs m * 2 ^ j) by (rewrite Z.abs_mul; f_equal; lia).
  assert (Hbits : bits (Z.abs (m * 2 ^ j)) = bits (Z.abs m) + j)
    by (rewrite Ha; apply bits_shift; lia).
  unfold round. rewrite Hbits.
  destruct (Z.eqb_spec (Z.abs (m * 2 ^ j)) 0) as [H0 | H0]; [nia |].
  set (sh := Z.max (bits (Z.abs m) + j - prec) (emin - e)).
  assert (Hsh : sh <= j) by (unfold sh; lia).
  assert (Hneg : (m * 2 ^ j <? 0) = (m <? 0)).
  { destruct (Z.ltb_spec m 0), (Z.ltb_spec (m * 2 ^ j) 0); try reflexivity; nia. }
  rewrite Hneg.
  destruct (Z.leb_spec sh 0) as [Hle | Hgt].
  - unfold finish. destruct (Z.eqb_spec (Z.abs (m * 2 ^ j)) 0); [contradiction |].
    rewrite Hbits. destruct (Z.ltb_spec emax (bits (Z.abs m) + j + e)); [lia |].
    rewrite <- Hneg, signed_abs. apply norm_shift, Hj.
  - assert (Hsplit : Z.abs (m * 2 ^ j) = Z.abs m * 2 ^ (j - sh) * 2 ^ sh).
    { rewrite Ha, <- Z.mul_assoc, <- Z.pow_add_r by lia. do 2 f_equal. lia. }
    assert (Hps : 0 < 2 ^ sh) by (apply Z.pow_pos_nonneg; lia).
    assert (Hq : Z.shiftr (Z.abs (m * 2 ^ j)) sh = Z.abs m * 2 ^ (j - sh)).
    { rewrite Z.shiftr_div_pow2 by lia. rewrite Hsplit. apply Z.div_mul. lia. }
    assert (Hr : Z.abs (m * 2 ^ j) mod 2 ^ sh = 0).
    { rewrite Hsplit. apply Z.mod_mul. lia. }
    rewrite Hq, Hr.
    assert (Hhalf : 0 < 2 ^ (sh - 1)) by (apply Z.pow_pos_nonneg; lia).
    destruct (Z.ltb_spec (2 ^ (sh - 1)) 0); [lia |].
    destruct (Z.eqb_spec 0 (2 ^ (sh - 1))); [lia |]. cbn [orb andb].
    assert (Hpj : 0 < 2 ^ (j - sh)) by (apply Z.pow_pos_nonneg; lia).
    unfold finish. destruct (Z.eqb_spec (Z.abs m * 2 ^ (j - sh)) 0); [nia |].
    rewrite bits_shift by lia.
    destruct (Z.ltb_spec emax (bits (Z.abs m) + (j - sh) + (e + sh))); [lia |].
    replace (if m <? 0 then - (Z.abs m * 2 ^ (j - sh)) else Z.abs m * 2 ^ (j - sh))
      with (m * 2 ^ (j - sh)).
    + rewrite norm_shift by lia. f_equal. lia.
    + destruct (Z.ltb_spec m 0); [rewrite Z.abs_neq by lia | rewrite Z.abs_eq by lia]; ring.
Qed.

(** the quotient of a float by a power of two is exact *)
Lemma round_ratio_pow2 (m a b : Z) :
  0 < m -> bits m <= prec -> 0 <= a -> 0 <= b -> emin <= a - b -> bits m + a - b <= emax ->
  round_ratio false (m * 2 ^ a) (2 ^ b) = norm m (a - b).
Proof.
  intros Hm Hb Ha Hb0 He Ho. unfold round_ratio.
  assert (Hpa : 0 < 2 ^ a) by (apply Z.pow_pos_nonneg; lia).
  assert (Hpb : 0 < 2 ^ b) by (apply Z.pow_pos_nonneg; lia).
  destruct (Z.eqb_spec (m * 2 ^ a) 0) as [H0 | _]; [nia |].
  rewrite Z.log2_pow2, Z.log2_mul_pow2 by lia.
  set (s := Z.max 0 (60 + b - (a + Z.log2 m))).
  assert (Hlog : Z.log2 m <= 52) by (unfold bits, prec in Hb; lia).
  assert (Hs : 0 <= s /\ b <= a + s) by (unfold s; lia).
  assert (Hn : m * 2 ^ a * 2 ^ s = m * 2 ^ (a + s - b) * 2 ^ b).
  { rewrite <- !Z.mul_assoc, <- !Z.pow_add_r by lia. do 2 f_equal. lia. }
  rewrite Hn, Z.div_mul, Z.mod_mul by lia. cbn [Z.eqb].
  rewrite Z.add_0_r.
  replace (2 * (m * 2 ^ (a + s - b))) with (m * 2 ^ (a + s - b + 1))
    by (rewrite Z.pow_add_r by lia; ring).
  rewrite round_representable; try (rewrite Z.abs_eq by lia); try lia.
  f_equal. lia.
Qed.

Lemma float_1024 : of_Z 1024 = Fin 1 10.
Proof. reflexivity. Qed.

(** one turn of the loop: the division by [1024.0] lowers the exponent *)
Lemma div_1024 (m e : Z) :
  0 < m -> Z.odd m = true -> bits m <= prec -> -1000 <= e <= 900 ->
  float_div (Fin m e) (of_Z 1024) = Some (Fin m (e - 10)).
Proof.
  intros Hm Hodd Hb He. rewrite float_1024. unfold float_div. cbn [Z.eqb].
  destruct (Z.ltb_spec m 0); [lia |]. cbn [Z.ltb Z.compare xorb].
  rewrite (Z.abs_eq m) by lia. change (Z.abs 1) with 1. f_equal.
  unfold prec, emin, emax in *.
  destruct (Z.leb_spec 0 (e - 10)).
  - change (round_ratio false (m * 2 ^ (e - 10)) 1)
      with (round_ratio false (m * 2 ^ (e - 10)) (2 ^ 0)).
    rewrite round_ratio_pow2; unfold prec, emin, emax; try lia.
    rewrite Z.sub_0_r. apply norm_odd, Hodd.
  - rewrite Z.mul_1_l. replace m with (m * 2 ^ 0) at 1 by (rewrite Z.pow_0_r; ring).
    rewrite round_ratio_pow2; unfold prec, emin, emax; try lia.
    replace (0 - - (e - 10)) with (e - 10) by lia. apply norm_odd, Hodd.
Qed.

(** the test of the loop, on the number of bytes itself *)
Lemma ge_1024 (m e j n : Z) :
  0 < m -> 0 <= j -> 0 <= e + 10 * j -> n = m * 2 ^ (e + 10 * j) ->
  float_ge (Fin m e) (of_Z 1024) = (1024 ^ (j + 1) <=? n).
Proof.
  intros Hm Hj He ->. rewrite float_1024. unfold float_ge.
  replace (1024 ^ (j + 1)) with (2 ^ (10 * j + 10))
    by (change 1024 with (2 ^ 10); rewrite <- Z.pow_mul_r by lia; f_equal; lia).
  rewrite Z.mul_1_l.
  destruct (Z.le_ge_cases e 10) as [Hle | Hge].
  - rewrite Z.min_l by lia. rewrite Z.sub_diag, Z.pow_0_r, Z.mul_1_r.
    assert (E : 2 ^ (10 * j + 10) = 2 ^ (10 - e) * 2 ^ (e + 10 * j))
      by (rewrite <- Z.pow_add_r by lia; f_equal; lia).
    rewrite E.
    assert (Hp : 0 < 2 ^ (e + 10 * j)) by (apply Z.pow_pos_nonneg; lia).
    set (B := 2 ^ (10 - e)). set (Q := 2 ^ (e + 10 * j)) in *.
    destruct (Z.leb_spec B m), (Z.leb_spec (B * Q) (m * Q)); try reflexivity; nia.
  - rewrite Z.min_r by lia. rewrite Z.sub_diag, Z.pow_0_r.
    assert (Hp : 0 < 2 ^ (e - 10)) by (apply Z.pow_pos_nonneg; lia).
    assert (E : 2 ^ (e + 10 * j) = 2 ^ (e - 10) * 2 ^ (10 * j + 10))
      by (rewrite <- Z.pow_add_r by lia; f_equal; lia).
    rewrite E.
    assert (Hp2 : 0 < 2 ^ (10 * j + 10)) by (apply Z.pow_pos_nonneg; lia).
    rewrite Z.mul_assoc.
    set (A := m * 2 ^ (e - 10)). set (Q := 2 ^ (10 * j + 10)) in *.
    assert (HA : 1 <= A) by (unfold A; nia).
    destruct (Z.leb_spec 1 A), (Z.leb_spec Q (A * Q)); try reflexivity; nia.
Qed.

Lemma pow_1024 (j : Z) : 0 <= j -> 1024 ^ j = 2 ^ (10 * j).
Proof. intros H. change 1024 with (2 ^ 10). rewrite <- Z.pow_mul_r by lia. reflexivity. Qed.

(** the loop divides as long as the number is 1024 or more and a unit
    is left *)
Lemma bytecount_loop_spec (m e1 n : Z) :
  0 < m -> Z.odd m = true -> bits m <= prec -> 0 <= e1 <= 60 -> n = m * 2 ^ e1 ->
  forall remaining j,
    0 <= j -> Z.of_nat (List.length remaining) = 5 - j ->
    exists J,
      j <= J <= 5 /\
      bytecount_loop remaining (Fin m (e1 - 10 * j)) (j - 1) = inr (Fin m (e1 - 10 * J), J - 1) /\
      (1024 ^ j <= n -> 1024 ^ J <= n) /\
      (J < 5 -> n < 1024 ^ (J + 1)).
Proof.
  intros Hm Hodd Hb He Hn remaining.
  induction remaining as [| u rest IH]; intros j Hj Hlen.
  - cbn [List.length Z.of_nat] in Hlen. exists j. cbn [bytecount_loop].
    split; [lia |]. split; [reflexivity |]. split; [tauto | lia].
  - cbn [List.length] in Hlen. rewrite Nat2Z.inj_succ in Hlen. cbn [bytecount_loop].
    rewrite (ge_1024 m (e1 - 10 * j) j n) by (try lia; rewrite Hn; f_equal; f_equal; lia).
    destruct (Z.leb_spec (1024 ^ (j + 1)) n) as [Hge | Hlt].
    + rewrite div_1024 by (try assumption; lia).
      destruct (IH (j + 1) ltac:(lia) ltac:(lia)) as (J & HJ & Hloop & Hlow & Hhigh).
      exists J. split; [lia |]. split.
      * replace (e1 - 10 * j - 10) with (e1 - 10 * (j + 1)) by lia.
        replace (j - 1 + 1) with (j + 1 - 1) by lia. exact Hloop.
      * split; [intros _; apply Hlow, Hge | exact Hhigh].
    + exists j. split; [lia |]. split; [reflexivity |]. split; [tauto | intros _; exact Hlt].
Qed.

Lemma round_half_even_scale (a b c : Z) :
  0 < b -> 0 < c -> round_half_even (a * c) (b * c) = round_half_even a b.
Proof.
  intros Hb Hc. unfold round_half_even.
  rewrite Z.div_mul_cancel_r, Z.mul_mod_distr_r by lia.
  assert (H1 : (b * c <? 2 * (a mod b * c)) = (b <? 2 * (a mod b))).
  { destruct (Z.ltb_spec (b * c) (2 * (a mod b * c))), (Z.ltb_spec b (2 * (a mod b)));
      try reflexivity; nia. }
  assert (H2 : (2 * (a mod b * c) =? b * c) = (2 * (a mod b) =? b)).
  { destruct (Z.eqb_spec (2 * (a mod b * c)) (b * c)), (Z.eqb_spec (2 * (a mod b)) b);
      try reflexivity; nia. }
  rewrite H1, H2. reflexivity.
Qed.

Lemma round_half_even_exact (a b : Z) : 0 < b -> round_half_even (a * b) b = a.
Proof.
  intros Hb. unfold round_half_even. rewrite Z.div_mul, Z.mod_mul by lia.
  destruct (Z.ltb_spec b (2 * 0)); [lia |]. destruct (Z.eqb_spec (2 * 0) b); [lia |].
  reflexivity.
Qed.

(** rounding to the nearest integer: at most one half away *)
Lemma round_half_even_near (num den : Z) :
  0 < den -> 2 * Z.abs (num - round_half_even num den * den) <= den.
Proof.
  intros Hd. unfold round_half_even.
  pose proof (Z.div_mod num den ltac:(lia)) as Hdm.
  pose proof (Z.mod_pos_bound num den Hd) as Hr.
  destruct (Z.ltb_spec den (2 * (num mod den))) as [H1 | H1]; cbn [orb].
  - replace (num - (num / den + 1) * den) with (num mod den - den) by lia. lia.
  - destruct (Z.eqb_spec (2 * (num mod den)) den) as [H2 | H2]; cbn [andb].
    + destruct (Z.odd (num / den)).
      * replace (num - (num / den + 1) * den) with (num mod den - den) by lia. lia.
      * replace (num - num / den * den) with (num mod den) by lia. lia.
    + replace (num - num / den * den) with (num mod den) by lia. lia.
Qed.

(** the two places shown for the float that is [n / 1024^J] *)
Lemma format_2f_spec (m e1 J n : Z) :
  0 < m -> 0 <= e1 -> 0 <= J -> n = m * 2 ^ e1 ->
  format_2f (Fin m (e1 - 10 * J)) = two_places (round_half_even (100 * n) (1024 ^ J)).
Proof.
  intros Hm He HJ ->. unfold format_2f. destruct (Z.ltb_spec m 0); [lia |].
  rewrite Z.abs_eq by lia. change ("" +:+ ?s) with s. f_equal.
  rewrite pow_1024 by exact HJ.
  destruct (Z.leb_spec 0 (e1 - 10 * J)).
  - replace (100 * (m * 2 ^ e1)) with (m * 2 ^ (e1 - 10 * J) * 100 * 2 ^ (10 * J)).
    + symmetry. apply round_half_even_exact, Z.pow_pos_nonneg; lia.
    + assert (E : 2 ^ e1 = 2 ^ (e1 - 10 * J) * 2 ^ (10 * J))
        by (rewrite <- Z.pow_add_r by lia; f_equal; lia).
      rewrite E. ring.
  - replace (100 * (m * 2 ^ e1)) with (m * 100 * 2 ^ e1) by ring.
    replace (2 ^ (10 * J)) with (2 ^ (- (e1 - 10 * J)) * 2 ^ e1)
      by (rewrite <- Z.pow_add_r by lia; f_equal; lia).
    symmetry. apply round_half_even_scale; apply Z.pow_pos_nonneg; lia.
Qed.

(** the float of a byte count below [2^53] *)
Lemma of_Z_count (n : Z) :
  0 < n < 2 ^ 53 ->
  exists m e1, of_Z n = Fin m e1 /\ 0 < m /\ Z.odd m = true /\ bits m <= prec /\
               0 <= e1 <= 60 /\ n = m * 2 ^ e1.
Proof.
  intros Hn. assert (Habs : Z.abs n < 2 ^ prec) by (unfold prec; lia).
  pose proof (wf_round n 0) as Hwf. fold (of_Z n) in Hwf.
  rewrite (of_Z_exact n Habs) in *.
  destruct (norm_fin n 0 ltac:(lia)) as (m & k & Hnorm & Hk & Hv & Hm).
  rewrite Hnorm in *. cbn [Z.add] in *. exists m, k.
  assert (Hp : 0 < 2 ^ k) by (apply Z.pow_pos_nonneg; lia).
  assert (Hpos : 0 < m) by nia.
  destruct Hwf as [[H0 _] | (Hodd & Hb & _)]; [lia |].
  rewrite Z.abs_eq in Hb by lia.
  split; [reflexivity |]. split; [exact Hpos |]. split; [exact Hodd |]. split; [exact Hb |].
  split; [| exact Hv]. split; [exact Hk |].
  destruct (Z.le_gt_cases k 60) as [Hle | Hgt]; [exact Hle |].
  assert (2 ^ 53 <= 2 ^ k) by (apply Z.pow_le_mono_r; lia). nia.
Qed.

End ByteCounts.

(** X26: [bytecount_to_string] names a byte count in words.  A count
    below 1024 is shown as it is.  A larger count (below [2^53], where
    the floats are exact) is shown followed by the count in the unit
    number [k] of Kbytes, Mbytes, Gbytes, Tbytes, Pbytes, where [k] is
    such that the count is at least [1024^(k+1)] and, unless the unit is
    the last one, less than [1024^(k+2)]: the number shown is the count
    divided by [1024^(k+1)], rounded to the nearest hundredth (to the
    even one of two that are equally near). *)
Theorem bytecount_to_string_units (n : Z) :
  (n < 1024 -> bytecount_to_string n = inr (py_str n +:+ " bytes")) /\
  (forall k unit,
     n < 2 ^ 53 -> 0 <= k -> List.nth_error units (Z.to_nat k) = Some unit ->
     1024 ^ (k + 1) <= n -> (k < 4 -> n < 1024 ^ (k + 2)) ->
     let h := round_half_even (100 * n) (1024 ^ (k + 1)) in
     bytecount_to_string n
     = inr (py_str n +:+ " bytes (" +:+ two_places h +:+ " " +:+ unit +:+ ")") /\
     2 * Z.abs (100 * n - h * 1024 ^ (k + 1)) <= 1024 ^ (k + 1)).
Proof.
  split.
  - intros H. unfold bytecount_to_string. destruct (Z.ltb_spec n 1024); [reflexivity | lia].
  - intros k unit Hn Hk Hunit Hlow Hhigh h.
    assert (Hk4 : k <= 4).
    { assert (Hlt : (Z.to_nat k < List.length units)%nat)
        by (apply List.nth_error_Some; congruence).
      cbn in Hlt. lia. }
    assert (Hpk : 0 < 1024 ^ (k + 1)) by (apply Z.pow_pos_nonneg; lia).
    split; [| apply round_half_even_near, Hpk].
    assert (H1024 : 1024 <= n).
    { assert (1024 ^ 1 <= 1024 ^ (k + 1)) by (apply Z.pow_le_mono_r; lia). lia. }
    destruct (of_Z_count n ltac:(lia)) as (m & e1 & Hfloat & Hm & Hodd & Hb & He & Hv).
    destruct (bytecount_loop_spec m e1 n Hm Hodd Hb He Hv units 0 ltac:(lia) eq_refl)
      as (J & HJ & Hloop & HlowJ & HhighJ).
    assert (Hn0 : 1024 ^ 0 <= n) by (cbn; lia). specialize (HlowJ Hn0).
    assert (HJk : J = k + 1).
    { destruct (Z.lt_trichotomy J (k + 1)) as [Hlt | [Heq | Hgt]]; [| exact Heq |].
      - assert (1024 ^ (J + 1) <= 1024 ^ (k + 1)) by (apply Z.pow_le_mono_r; lia).
        specialize (HhighJ ltac:(lia)). lia.
      - assert (1024 ^ (k + 2) <= 1024 ^ J) by (apply Z.pow_le_mono_r; lia).
        specialize (Hhigh ltac:(lia)). lia. }
    subst J. unfold bytecount_to_string.
    destruct (Z.ltb_spec n 1024); [lia |]. rewrite Hfloat.
    rewrite Z.mul_0_r, Z.sub_0_r in Hloop. change (0 - 1) with (-1) in Hloop.
    rewrite Hloop.
    assert (Hnth : py_nth units (k + 1 - 1) = Some unit).
    { unfold py_nth. replace (k + 1 - 1) with k by lia.
      destruct (Z.ltb_spec k 0); [lia |].
      destruct (Z.leb_spec 0 k); [| lia].
      destruct (Z.ltb_spec k (Z.of_nat (List.length units))); [exact Hunit |].
      cbn in *. lia. }
    rewrite Hnth. rewrite (format_2f_spec m e1 (k + 1) n) by (try assumption; lia).
    reflexivity.
Qed.

Lemma bytecount_to_string_units_witness :
  bytecount_to_string 849 = inr "849 bytes" /\
  bytecount_to_string 1500 = inr "1500 bytes (1.46 Kbytes)" /\
  bytecount_to_string 123456789123 = inr "123456789123 bytes (114.98 Gbytes)".
Proof.
  split; [| split].
  - apply (proj1 (bytecount_to_string_units 849)). lia.
  - refine (proj1 (proj2 (bytecount_to_string_units 1500) 0 "Kbytes" _ _ eq_refl _ _));
      cbn; lia.
  - refine (proj1 (proj2 (bytecount_to_string_units 123456789123) 2 "Gbytes" _ _ eq_refl _ _));
      cbn; lia.
Defined.

(* ===================================================================== *)
(** ** Traversal and display: what is written, and the totals *)
(* ===================================================================== *)

Lemma display_loop_spec (opts : Options) (content : list FileStats) (run : Run) :
  List.fold_left (display_one opts) content run
  = {| TOTFILES := TOTFILES run + Z.of_nat (List.length content);
       TOTSIZE := TOTSIZE run + total_size content;
       GTOTFILES := GTOTFILES run; GTOTSIZE := GTOTSIZE run;
       output := (output run ++ List.flat_map (line_events opts) content)%list |}.
Proof.
  revert run. induction content as [| s rest IH]; intros run.
  - cbn [List.fold_left List.length List.flat_map total_size List.map List.fold_right].
    rewrite !Z.add_0_r, List.app_nil_r. destruct run; reflexivity.
  - cbn [List.fold_left]. rewrite IH. unfold display_one, line_events, emit.
    destruct (opt_os_command opts); cbn [TOTFILES TOTSIZE GTOTFILES GTOTSIZE output];
      (f_equal;
       [cbn [List.length]; rewrite Nat2Z.inj_succ; lia
       | unfold total_size; cbn [List.map List.fold_right]; lia
       | cbn [List.flat_map]; rewrite <- !List.app_assoc; reflexivity]).
Qed.

(** what a group display does to the run *)
Lemma display_statlist_spec (opts : Options) (w : World) (filters : list Filter)
    (statlist : list FileStats) (run : Run) :
  match group_content opts w filters statlist with
  | inl e =>
      display_statlist opts w filters statlist run
      = (Raise e, {| TOTFILES := 0; TOTSIZE := 0; GTOTFILES := GTOTFILES run;
                     GTOTSIZE := GTOTSIZE run; output := output run |})
  | inr content =>
      let counted := nonempty content && negb (opt_quiet opts) in
      display_statlist opts w filters statlist run
      = (Ok tt,
         {| TOTFILES := Z.of_nat (List.length content);
            TOTSIZE := total_size content;
            GTOTFILES := GTOTFILES run + (if counted then Z.of_nat (List.length content) else 0);
            GTOTSIZE := GTOTSIZE run + (if counted then total_size content else 0);
            output := (output run ++ group_events opts content)%list |})
  end.
Proof.
  unfold group_content, display_statlist.
  destruct (apply_all_filters w filters statlist) as [e | l]; [reflexivity |].
  destruct (sort_stats (opt_sort opts) l) as [e | content]; [reflexivity |].
  cbv zeta. rewrite display_loop_spec. f_equal.
  destruct content as [| first rest].
  - cbn [nonempty andb group_events List.length List.flat_map total_size List.map
         List.fold_right TOTFILES TOTSIZE GTOTFILES GTOTSIZE output Z.of_nat].
    rewrite !Z.add_0_r, !List.app_nil_r. reflexivity.
  - cbn [nonempty andb group_events].
    destruct (opt_quiet opts), (opt_merge opts);
      cbn [negb andb emit TOTFILES TOTSIZE GTOTFILES GTOTSIZE output app];
      rewrite ?Z.add_0_r, ?Z.add_0_l, ?List.app_nil_r, <- ?List.app_assoc; reflexivity.
Qed.

(** A property of the run that the writing of an error line keeps, and
    that a group display keeps when directories are not merged, is kept
    by the whole traversal. *)
Section TraversalInvariant.

Variables (opts : Options) (w : World) (filters : list Filter) (P : Run -> Prop).

Hypothesis P_err : forall msg run, P run -> P (emit (ErrLine msg) run).

Hypothesis P_display :
  opt_merge opts = false ->
  forall statlist run, P run -> P (snd (display_statlist opts w filters statlist run)).

Lemma stat_files_inv (filepaths : list string) (run : Run) :
  P run -> P (snd (stat_files w filepaths run)).
Proof.
  revert run. induction filepaths as [| p rest IH]; intros run HP; [exact HP |].
  cbn [stat_files]. destruct (init w p) as [msg | stats].
  - apply IH, P_err, HP.
  - specialize (IH run HP). destruct (stat_files w rest run) as [l run']. exact IH.
Qed.

Lemma stat_directory_inv (fuel : nat) :
  forall path run r run',
    P run -> stat_directory fuel opts w filters path run = Some (r, run') -> P run'.
Proof.
  induction fuel as [| fuel IH]; intros path run r run' HP Hdir; [discriminate Hdir |].
  cbn [stat_directory] in Hdir.
  destruct (listdir w path) as [msg | files].
  { injection Hdir as <- <-. apply P_err, HP. }
  destruct (if opt_all opts then _ else visible files) as [e | files'].
  { injection Hdir as <- <-. exact HP. }
  destruct files' as [| f files'].
  { injection Hdir as <- <-. exact HP. }
  pose proof (stat_files_inv (List.map (path_join w path) (f :: files')) run HP) as HP1.
  destruct (stat_files w (List.map (path_join w path) (f :: files')) run) as [statlist run1].
  cbn [snd] in HP1.
  assert (Hshown : exists shown statlist2 run2,
            (if negb (opt_merge opts)
             then let '(r0, run'0) := display_statlist opts w filters statlist run1 in
                  (r0, [], run'0)
             else (Ok tt, statlist, run1)) = (shown, statlist2, run2) /\ P run2).
  { destruct (opt_merge opts) eqn:Hmerge; cbn [negb].
    - eexists _, _, _. split; [reflexivity | exact HP1].
    - pose proof (P_display eq_refl statlist run1 HP1) as HP2.
      destruct (display_statlist opts w filters statlist run1) as [r0 run2].
      eexists _, _, _. split; [reflexivity | exact HP2]. }
  destruct Hshown as (shown & statlist2 & run2 & Heq & HP2).
  rewrite Heq in Hdir. clear Heq.
  destruct shown as [e | []].
  { injection Hdir as <- <-. exact HP2. }
  destruct (opt_recursive opts).
  2: { injection Hdir as <- <-. exact HP2. }
  revert Hdir HP2.
  generalize (List.filter (fun f0 => isdir w f0 && negb (islink w f0))
                (List.map (path_join w path) (f :: files'))).
  intros dirs. revert statlist2 run2.
  induction dirs as [| d dirs IHd]; intros statlist2 run2 Hdir HP2.
  - injection Hdir as <- <-. exact HP2.
  - destruct (stat_directory fuel opts w filters d run2) as [[[e | l] run3] |] eqn:Hd.
    + injection Hdir as <- <-. exact (IH _ _ _ _ HP2 Hd).
    + exact (IHd _ _ Hdir (IH _ _ _ _ HP2 Hd)).
    + discriminate Hdir.
Qed.

Lemma show_loop_inv (fuel : nat) (paths : list string) :
  forall statlist last_dir run r run',
    P run -> show_loop fuel opts w filters paths statlist last_dir run = Some (r, run') ->
    P run'.
Proof.
  induction paths as [| p rest IH]; intros statlist last_dir run r run' HP Hloop.
  - injection Hloop as <- <-. exact HP.
  - cbn [show_loop] in Hloop. cbv zeta in Hloop.
    set (flush := match last_dir with
                  | Some d => negb (String.eqb (dirname w p) d) && negb (opt_merge opts)
                  | None => false
                  end) in Hloop.
    assert (Hshown : exists shown statlist2 run2,
              (if flush
               then let '(r0, run'0) := display_statlist opts w filters statlist run in
                    (r0, [], run'0)
               else (Ok tt, statlist, run)) = (shown, statlist2, run2) /\ P run2).
    { destruct flush eqn:Hflush.
      - assert (Hmerge : opt_merge opts = false).
        { unfold flush in Hflush. destruct last_dir; [| discriminate Hflush].
          apply andb_true_iff in Hflush. destruct Hflush as [_ H].
          destruct (opt_merge opts); [discriminate H | reflexivity]. }
        pose proof (P_display Hmerge statlist run HP) as HP2.
        destruct (display_statlist opts w filters statlist run) as [r0 run2].
        eexists _, _, _. split; [reflexivity | exact HP2].
      - eexists _, _, _. split; [reflexivity | exact HP]. }
    destruct Hshown as (shown & statlist2 & run2 & Heq & HP2).
    rewrite Heq in Hloop. clear Heq.
    destruct shown as [e | []].
    { injection Hloop as <- <-. exact HP2. }
    destruct (isdir w p && negb (opt_directory opts)).
    + destruct (stat_directory fuel opts w filters p run2) as [[[e | l] run3] |] eqn:Hd.
      * injection Hloop as <- <-. exact (stat_directory_inv _ _ _ _ _ HP2 Hd).
      * exact (IH _ _ _ _ _ (stat_directory_inv _ _ _ _ _ HP2 Hd) Hloop).
      * discriminate Hloop.
    + pose proof (stat_files_inv [p] run2 HP2) as HP3.
      destruct (stat_files w [p] run2) as [l run3]. cbn [snd] in HP3.
      exact (IH _ _ _ _ _ HP3 Hloop).
Qed.

End TraversalInvariant.






Lemma plain_lines (opts : Options) (content : list FileStats) :
  List.forallb is_plain (List.flat_map (line_events opts) content) = true.
Proof.
  induction content as [| s rest IH]; [reflexivity |].
  cbn [List.flat_map]. rewrite List.forallb_app, IH, andb_true_r.
  unfold line_events. destruct (opt_os_command opts); reflexivity.
Qed.

(** X20: with [--quiet] (which [--directory] turns on) nothing but the
    lines of the records, the commands run for them and the error
    messages is written: no directory line, no total, no grand total;
    and the grand totals are not counted. *)
Theorem quiet_prints_only_the_lines (fuel : nat) (opts : Options) (w : World)
    (filters : list Filter) (paths : list string) (run : Run) (r : result unit) (run' : Run)
    (Hquiet : opt_quiet opts = true)
    (Hshow : show_paths fuel opts w filters paths run = Some (r, run')) :
  GTOTFILES run' = GTOTFILES run /\ GTOTSIZE run' = GTOTSIZE run /\
  exists added,
    output run' = (output run ++ added)%list /\ List.forallb is_plain added = true.
Proof.
  set (P := fun x : Run =>
              GTOTFILES x = GTOTFILES run /\ GTOTSIZE x = GTOTSIZE run /\
              exists added, output x = (output run ++ added)%list /\
                            List.forallb is_plain added = true).
  assert (P0 : P run).
  { split; [reflexivity |]. split; [reflexivity |]. exists []. rewrite List.app_nil_r.
    split; reflexivity. }
  assert (Perr : forall msg x, P x -> P (emit (ErrLine msg) x)).
  { intros msg x (H1 & H2 & added & Hout & Hplain). split; [exact H1 |]. split; [exact H2 |].
    exists (added ++ [ErrLine msg])%list. unfold emit. cbn [output].
    rewrite Hout, List.app_assoc, List.forallb_app, Hplain. split; reflexivity. }
  assert (Pdisplay : forall sl x, P x -> P (snd (display_statlist opts w filters sl x))).
  { intros sl x (H1 & H2 & added & Hout & Hplain).
    pose proof (display_statlist_spec opts w filters sl x) as Hspec.
    destruct (group_content opts w filters sl) as [e | content].
    - rewrite Hspec. split; [exact H1 |]. split; [exact H2 |]. exists added.
      split; assumption.
    - cbv zeta in Hspec. rewrite Hspec. cbn [snd]. unfold P. cbn [GTOTFILES GTOTSIZE output].
      rewrite Hquiet, andb_false_r, !Z.add_0_r. split; [exact H1 |]. split; [exact H2 |].
      exists (added ++ group_events opts content)%list.
      rewrite Hout, List.app_assoc, List.forallb_app, Hplain. split; [reflexivity |].
      destruct content as [| first rest]; [reflexivity |].
      unfold group_events. rewrite Hquiet. cbn [negb andb app].
      rewrite List.app_nil_r. apply plain_lines. }
  revert Hshow. unfold show_paths.
  destruct (show_loop fuel opts w filters paths [] None run) as [[[e | statlist] run1] |]
    eqn:Hloop; [| | discriminate].
  - intros [= <- <-].
    exact (show_loop_inv opts w filters P Perr (fun _ => Pdisplay) fuel paths _ _ _ _ _ P0 Hloop).
  - pose proof (show_loop_inv opts w filters P Perr (fun _ => Pdisplay) fuel paths
                  _ _ _ _ _ P0 Hloop) as H1.
    assert (H2 : exists shown run2,
              (if nonempty statlist then display_statlist opts w filters statlist run1
               else (Ok tt, run1)) = (shown, run2) /\ P run2).
    { destruct (nonempty statlist).
      - pose proof (Pdisplay statlist run1 H1) as H.
        destruct (display_statlist opts w filters statlist run1) as [shown run2].
        exists shown, run2. split; [reflexivity | exact H].
      - exists (Ok tt), run1. split; [reflexivity | exact H1]. }
    destruct H2 as (shown & run2 & -> & H2).
    destruct shown as [e | []]; [intros [= <- <-]; exact H2 |].
    rewrite Hquiet, andb_false_r. intros [= <- <-]. exact H2.
Qed.

Lemma quiet_prints_only_the_lines_witness :
  exists run',
    show_paths 2 (with_quiet true recursive_opts) Posix.world [] ["proj"; "lsf.py"] start
    = Some (Ok tt, run') /\
    GTOTFILES run' = 0 /\
    List.length (output run') = 7%nat /\
    List.forallb is_plain (output run') = true.
Proof.
  destruct (show_paths 2 (with_quiet true recursive_opts) Posix.world [] ["proj"; "lsf.py"] start)
    as [[r run'] |] eqn:Hshow; [| vm_compute in Hshow; discriminate Hshow].
  pose proof (quiet_prints_only_the_lines 2 (with_quiet true recursive_opts) _ _ _ _ _ _
                eq_refl Hshow)
    as (Hfiles & _ & added & Hout & Hplain).
  cbn [output start app] in Hout. rewrite <- Hout in Hplain.
  vm_compute in Hshow. injection Hshow as <- <-.
  eexists. split; [reflexivity |]. split; [exact Hfiles |]. split; [reflexivity | exact Hplain].
Defined.

(** *** The records that are printed *)

Lemma decorate_snd {A K : Type} (key : A -> result K) (l : list A) (d : list (K * A)) :
  decorate key l = Ok d -> List.map snd d = l.
Proof.
  revert d. induction l as [| x r IH]; intros d; cbn [decorate].
  - intros [= <-]. reflexivity.
  - destruct (key x) as [e | k]; [discriminate |].
    destruct (decorate key r) as [e | d']; [discriminate |].
    intros [= <-]. cbn [List.map snd]. rewrite (IH d' eq_refl). reflexivity.
Qed.

Lemma insert_by_perm {A K : Type} (lt : K -> K -> bool) (x : K * A) (l : list (K * A)) :
  Permutation (x :: l) (insert_by lt x l).
Proof.
  induction l as [| y r IH]; [reflexivity |]. cbn [insert_by].
  destruct (lt (fst y) (fst x)); [| reflexivity].
  rewrite perm_swap. apply perm_skip, IH.
Qed.

Lemma stable_sort_perm {A K : Type} (lt : K -> K -> bool) (l : list (K * A)) :
  Permutation l (stable_sort lt l).
Proof.
  induction l as [| x r IH]; [reflexivity |]. cbn [stable_sort List.fold_right].
  rewrite <- insert_by_perm. apply perm_skip, IH.
Qed.

Lemma list_sort_perm {A K : Type} (lt : K -> K -> bool) (key : A -> result K)
    (reverse : bool) (l l' : list A) :
  list_sort lt key reverse l = Ok l' -> Permutation l l'.
Proof.
  unfold list_sort. destruct (decorate key l) as [e | d] eqn:Hd; [discriminate |].
  intros [= <-]. rewrite <- (decorate_snd key l d Hd).
  apply Permutation_map, stable_sort_perm.
Qed.

(** whatever the sort option is, a sort that does not fail rearranges *)
Lemma sort_stats_perm (sort : string) (l l' : list FileStats) :
  sort_stats sort l = Ok l' -> Permutation l l'.
Proof.
  unfold sort_stats. destruct (arg_has_plus sort) as [[fields reverse] |]; [| discriminate].
  generalize (List.rev (PyStr.chars fields)). intros letters. revert l.
  induction letters as [| c rest IH]; intros l; cbn [sort_passes].
  - intros [= <-]. reflexivity.
  - destruct (list_sort py_lt (fun r => getitem r c) reverse l) as [e | l1] eqn:H1;
      [discriminate |].
    intros H. etransitivity; [apply (list_sort_perm _ _ _ _ _ H1) | apply IH, H].
Qed.

Lemma group_content_passes (opts : Options) (w : World) (filters : list Filter)
    (statlist content : list FileStats) :
  group_content opts w filters statlist = Ok content ->
  Permutation (List.filter (fun s => match passes_filters w filters s with
                                     | inr true => true
                                     | _ => false
                                     end) statlist) content.
Proof.
  unfold group_content.
  pose proof (apply_all_filters_spec w filters statlist) as Hspec.
  destruct (apply_all_filters w filters statlist) as [e | kept]; [discriminate |].
  rewrite <- Hspec. apply sort_stats_perm.
Qed.

(** X21: nothing that fails a filter is ever printed.  Every record the
    program prints a line for passes all the registered filters,
    whatever the options, the paths and the sort order are, and also
    when the run ends with an exception. *)
Theorem only_passing_records_are_printed (fuel : nat) (opts : Options) (w : World)
    (filters : list Filter) (paths : list string) (run : Run) (r : result unit) (run' : Run)
    (Hinit : Forall (fun s => passes_filters w filters s = Ok true) (shown_records run))
    (Hshow : show_paths fuel opts w filters paths run = Some (r, run')) :
  Forall (fun s => passes_filters w filters s = Ok true) (shown_records run').
Proof.
  set (P := fun x : Run =>
              Forall (fun s => passes_filters w filters s = Ok true) (shown_records x)).
  assert (Perr : forall msg x, P x -> P (emit (ErrLine msg) x)).
  { intros msg x Hx. unfold P. rewrite shown_records_emit, List.app_nil_r. exact Hx. }
  assert (Pdisplay : forall sl x, P x -> P (snd (display_statlist opts w filters sl x))).
  { intros sl x Hx. pose proof (display_statlist_shown opts w filters sl x) as Hs.
    destruct (group_content opts w filters sl) as [e | content] eqn:Hcontent.
    - destruct Hs as [_ Hs]. unfold P. rewrite Hs. exact Hx.
    - destruct Hs as [_ Hs]. unfold P. rewrite Hs. apply Forall_app. split; [exact Hx |].
      apply List.Forall_forall. intros s Hin.
      apply (Permutation_in _ (Permutation_sym (group_content_passes _ _ _ _ _ Hcontent))) in Hin.
      apply List.filter_In in Hin. destruct Hin as [_ Hin].
      destruct (passes_filters w filters s) as [e | []]; try discriminate Hin. reflexivity. }
  revert Hshow. unfold show_paths.
  destruct (show_loop fuel opts w filters paths [] None run) as [[[e | statlist] run1] |]
    eqn:Hloop; [| | discriminate].
  - intros [= <- <-].
    exact (show_loop_inv opts w filters P Perr (fun _ => Pdisplay) fuel paths
             _ _ _ _ _ Hinit Hloop).
  - pose proof (show_loop_inv opts w filters P Perr (fun _ => Pdisplay) fuel paths
                  _ _ _ _ _ Hinit Hloop) as H1.
    assert (H2 : exists shown run2,
              (if nonempty statlist then display_statlist opts w filters statlist run1
               else (Ok tt, run1)) = (shown, run2) /\ P run2).
    { destruct (nonempty statlist).
      - pose proof (Pdisplay statlist run1 H1) as H.
        destruct (display_statlist opts w filters statlist run1) as [shown run2].
        exists shown, run2. split; [reflexivity | exact H].
      - exists (Ok tt), run1. split; [reflexivity | exact H1]. }
    destruct H2 as (shown & run2 & -> & H2).
    destruct shown as [e | []]; [intros [= <- <-]; exact H2 |].
    destruct (negb (TOTFILES run2 =? GTOTFILES run2) && negb (opt_quiet opts));
      intros [= <- <-]; [| exact H2].
    unfold P. rewrite shown_records_emit, List.app_nil_r. exact H2.
Qed.

Lemma only_passing_records_are_printed_witness :
  let filters := registered Posix.world (PyFloat.of_Z 0) "size" "+1k" in
  exists run',
    show_paths 2 recursive_opts Posix.world filters ["proj"; "lsf.py"] start
    = Some (Ok tt, run') /\
    List.map name (shown_records run') = ["b.txt"; "sub"; ".hidden"] /\
    Forall (fun s => passes_filters Posix.world filters s = Ok true) (shown_records run').
Proof.
  intros filters.
  destruct (show_paths 2 recursive_opts Posix.world filters ["proj"; "lsf.py"] start)
    as [[r run'] |] eqn:Hshow; [| vm_compute in Hshow; discriminate Hshow].
  pose proof (only_passing_records_are_printed 2 recursive_opts Posix.world filters _ start
                _ _ ltac:(constructor) Hshow) as Hpass.
  vm_compute in Hshow. injection Hshow as <- <-.
  eexists. split; [reflexivity |]. split; [reflexivity | exact Hpass].
Defined.



(** *** The traversal comes to an end *)

Lemma stat_directory_returns (fuel : nat) (opts : Options) (w : World)
    (filters : list Filter) :
  forall path run,
    deep_enough fuel opts w path = true ->
    exists res, stat_directory fuel opts w filters path run = Some res.
Proof.
  induction fuel as [| fuel IH]; intros path run Hdeep; [discriminate Hdeep |].
  cbn [deep_enough] in Hdeep. cbn [stat_directory].
  destruct (listdir w path) as [msg | files]; [eexists; reflexivity |].
  destruct (if opt_all opts then _ else visible files) as [e | files'];
    [eexists; reflexivity |].
  destruct files' as [| f files']; [eexists; reflexivity |].
  destruct (stat_files w (List.map (path_join w path) (f :: files')) run) as [statlist run1].
  destruct (if negb (opt_merge opts)
            then let '(r0, run'0) := display_statlist opts w filters statlist run1 in
                 (r0, [], run'0)
            else (Ok tt, statlist, run1)) as [[shown statlist2] run2].
  destruct shown as [e | []]; [eexists; reflexivity |].
  destruct (opt_recursive opts); [| eexists; reflexivity].
  cbn [negb orb] in Hdeep. revert Hdeep.
  generalize (List.filter (fun f0 => isdir w f0 && negb (islink w f0))
                (List.map (path_join w path) (f :: files'))).
  intros dirs. revert statlist2 run2.
  induction dirs as [| d dirs IHd]; intros statlist2 run2 Hdeep; [eexists; reflexivity |].
  cbn [List.forallb] in Hdeep. apply andb_true_iff in Hdeep. destruct Hdeep as [Hd Hrest].
  destruct (IH d run2 Hd) as ([[e | l] run3] & ->); [eexists; reflexivity |].
  apply IHd, Hrest.
Qed.

Lemma deep_enough_flat (fuel : nat) (opts : Options) (w : World) (path : string) :
  opt_recursive opts = false -> deep_enough (S fuel) opts w path = true.
Proof.
  intros H. cbn [deep_enough]. rewrite H. cbn [negb orb].
  destruct (listdir w path); [reflexivity |].
  destruct (if opt_all opts then _ else visible _); reflexivity.
Qed.

Lemma show_paths_returns (fuel : nat) (opts : Options) (w : World) (filters : list Filter)
    (paths : list string) (run : Run) :
  Forall (fun p => isdir w p && negb (opt_directory opts) = true ->
                   deep_enough fuel opts w p = true) paths ->
  exists r run', show_paths fuel opts w filters paths run = Some (r, run').
Proof.
  intros Hdeep.
  assert (Hloop : forall statlist last_dir run0,
            exists res, show_loop fuel opts w filters paths statlist last_dir run0 = Some res).
  { induction Hdeep as [| p rest Hp _ IH]; intros statlist last_dir run0;
      [eexists; reflexivity |].
    cbn [show_loop]. cbv zeta.
    destruct (if match last_dir with
                 | Some d => negb (String.eqb (dirname w p) d) && negb (opt_merge opts)
                 | None => false
                 end
              then let '(r0, run'0) := display_statlist opts w filters statlist run0 in
                   (r0, [], run'0)
              else (Ok tt, statlist, run0)) as [[shown statlist2] run2].
    destruct shown as [e | []]; [eexists; reflexivity |].
    destruct (isdir w p && negb (opt_directory opts)) eqn:Hdir.
    - destruct (stat_directory_returns fuel opts w filters p run2 (Hp eq_refl))
        as ([[e | l] run3] & ->); [eexists; reflexivity | apply IH].
    - destruct (stat_files w [p] run2) as [l run3]. apply IH. }
  unfold show_paths. destruct (Hloop [] None run) as ([[e | statlist] run1] & ->);
    [eexists _, _; reflexivity |].
  destruct (if nonempty statlist then display_statlist opts w filters statlist run1
            else (Ok tt, run1)) as [[e | []] run2]; [eexists _, _; reflexivity |].
  destruct (negb (TOTFILES run2 =? GTOTFILES run2) && negb (opt_quiet opts));
    eexists _, _; reflexivity.
Qed.

(** X23: the traversal returns.  When the directories among the paths
    are no deeper than the bound on the recursion, [show_paths] comes to
    an end, with a result or an exception and the output written up to
    there; a larger bound is as good; and without [--recursive] it does
    so for all paths, as no directory is entered from another. *)
Theorem traversal_returns (fuel : nat) (opts : Options) (w : World) (filters : list Filter)
    (paths : list string) (run : Run)
    (Hdeep : Forall (fun p => isdir w p && negb (opt_directory opts) = true ->
                              deep_enough fuel opts w p = true) paths) :
  (exists r run', show_paths fuel opts w filters paths run = Some (r, run')) /\
  (forall p, deep_enough fuel opts w p = true -> deep_enough (S fuel) opts w p = true) /\
  (opt_recursive opts = false ->
   forall paths' run0, exists r run',
     show_paths (S fuel) opts w filters paths' run0 = Some (r, run')).
Proof.
  split; [apply show_paths_returns, Hdeep |]. split.
  - clear. induction fuel as [| fuel IH]; intros p Hp; [discriminate Hp |].
    cbn [deep_enough] in Hp. change (deep_enough (S (S fuel)) opts w p)
      with (match listdir w p with
            | inl _ => true
            | inr files =>
                match (if opt_all opts then Ok files else visible files) with
                | inl _ => true
                | inr files0 =>
                    negb (opt_recursive opts)
                    || List.forallb (deep_enough (S fuel) opts w)
                         (List.filter (fun f => isdir w f && negb (islink w f))
                            (List.map (path_join w p) files0))
                end
            end).
    destruct (listdir w p) as [msg | files]; [reflexivity |].
    destruct (if opt_all opts then _ else visible files) as [e | files0]; [reflexivity |].
    apply orb_true_iff in Hp. apply orb_true_iff. destruct Hp as [Hp | Hp]; [left; exact Hp |].
    right. rewrite List.forallb_forall in Hp |- *. intros d Hd. apply IH, Hp, Hd.
  - intros Hflat paths' run0. apply show_paths_returns.
    apply List.Forall_forall. intros p _ _. apply deep_enough_flat, Hflat.
Qed.

Lemma traversal_returns_witness :
  deep_enough 2 recursive_opts Posix.world "proj" = true /\
  deep_enough 1 recursive_opts Posix.world "proj" = false /\
  exists r run', show_paths 2 recursive_opts Posix.world [] ["proj"; "lsf.py"] start
                 = Some (r, run').
Proof.
  split; [reflexivity |]. split; [reflexivity |].
  apply (traversal_returns 2 recursive_opts Posix.world [] ["proj"; "lsf.py"] start).
  constructor; [intros _; reflexivity |].
  constructor; [intros H; discriminate H | constructor].
Defined.

(** *** Files named on the command line *)




